(** * vault0: keystore, secp256k1 curve and transaction-history engine

    A shallow embedding of these parts of the vault0 backend:

    - [Errors]    : the [Vault0Error] values built by [internal/errors];
    - [History]   : the transaction-history synchronisation engine of
                    [internal/services/transaction/history.go];
    - [Lifecycle] : starting and stopping that engine;
    - [ExplorerFactory] : the explorer factory the engine asks,
                    [internal/core/blockexplorer/factory.go];
    - [Keystore]  : the database keystore [DBKeyStore];
    - [Secp256k1] : the affine group law of the secp256k1 curve;
    - [Secp256k1Helpers] : the helpers of the curve's tests.

    Go's [*big.Int] is [Z]; Go maps are [gmap]; slices are lists; an
    [error] result is an [option] (or a sum) of [Vault0Error].  The
    collaborators of each component (explorer, repository, token store,
    encryptor, database driver, ...) are records of functions; the
    fixture modules give concrete ones on which the operations run.
    The properties follow the definitions, one module per component. *)

From Stdlib Require Import ZArith Zdiv Zcong Lia List Ascii String Bool.
From Stdlib Require Import DecimalString.
From stdpp Require Import base option list gmap strings.

Open Scope string_scope.
Open Scope list_scope.
Open Scope Z_scope.

(** ** Errors (internal/errors) *)

Module Errors.

(** [Vault0Error]: an error code, a message and the wrapped cause. *)
Inductive Vault0Error : Type :=
| MkError (Code : string) (Message : string)
| Wrap (Code : string) (Message : string) (Err : Vault0Error).

Definition Code (e : Vault0Error) : string :=
  match e with MkError c _ | Wrap c _ _ => c end.

Definition Cause (e : Vault0Error) : option Vault0Error :=
  match e with MkError _ _ => None | Wrap _ _ c => Some c end.

Definition ErrCodeDatabaseError : string := "database_error".
Definition ErrCodeResourceNotFound : string := "resource_not_found".
Definition ErrCodeTransactionNotFound : string := "transaction_not_found".
Definition ErrCodeOperationFailed : string := "operation_failed".
Definition ErrCodeKeyInUseByWallet : string := "key_in_use_by_wallet".
Definition ErrCodeInvalidKey : string := "invalid_key".
Definition ErrCodeInvalidKeyType : string := "invalid_key_type".
Definition ErrCodeInvalidCurve : string := "invalid_curve".
Definition ErrCodeSigningError : string := "signing_error".

Definition NewDatabaseError (err : Vault0Error) : Vault0Error :=
  Wrap ErrCodeDatabaseError "Database operation failed" err.

Definition NewResourceNotFoundError (resource id : string) : Vault0Error :=
  MkError ErrCodeResourceNotFound (resource +:+ " not found: " +:+ id).

Definition NewTransactionNotFoundError (hash : string) : Vault0Error :=
  MkError ErrCodeTransactionNotFound ("Transaction not found: " +:+ hash).

Definition NewOperationFailedError (operation : string) (err : Vault0Error)
  : Vault0Error :=
  Wrap ErrCodeOperationFailed (operation +:+ " operation failed") err.

Definition NewKeyInUseByWalletError (keyID : string) : Vault0Error :=
  MkError ErrCodeKeyInUseByWallet
    ("Key with ID " +:+ keyID +:+
     " cannot be deleted because it is associated with one or more wallets").

Definition NewInvalidKeyError (msg : string) (err : option Vault0Error)
  : Vault0Error :=
  match err with
  | Some e => Wrap ErrCodeInvalidKey msg e
  | None => MkError ErrCodeInvalidKey msg
  end.

Definition NewInvalidKeyTypeError (expected got : string) : Vault0Error :=
  MkError ErrCodeInvalidKeyType
    ("Invalid key type: expected " +:+ expected +:+ ", got " +:+ got).

Definition NewInvalidCurveError (expected got : string) : Vault0Error :=
  MkError ErrCodeInvalidCurve
    ("Invalid curve: expected " +:+ expected +:+ ", got " +:+ got).

Definition NewSigningError (err : Vault0Error) : Vault0Error :=
  Wrap ErrCodeSigningError "Signing operation failed" err.

(** A two-valued result, for calls whose callers only test [err != nil]. *)
Inductive Result (A : Type) : Type :=
| Ok (a : A)
| Fail (e : Vault0Error).
Arguments Ok {A} a.
Arguments Fail {A} e.

End Errors.

Import Errors.

(** ** Go's [big.Int.Int64]

    [Int64] returns the low 64 bits of the magnitude, reinterpreted as a
    signed 64-bit value, negated (with wrap-around) for a negative
    receiver. *)

Definition to_int64 (z : Z) : Z := (z + 2 ^ 63) mod 2 ^ 64 - 2 ^ 63.

Definition Int64 (x : Z) : Z :=
  let v := to_int64 (Z.abs x) in
  if x <? 0 then to_int64 (- v) else v.

(** [strings.ToLower] on the ASCII range. *)
Definition lower_ascii (c : ascii) : ascii :=
  let n := nat_of_ascii c in
  if (Nat.leb 65 n && Nat.leb n 90)%bool then ascii_of_nat (n + 32) else c.

Fixpoint ToLower (s : string) : string :=
  match s with
  | EmptyString => EmptyString
  | String c r => String (lower_ascii c) (ToLower r)
  end.

(** ** Transaction history engine
       (internal/services/transaction/history.go) *)

Module History.

(** *** Domain values *)

(** [types.Address]: a chain type and an address string. *)
Record Address : Type := MkAddress {
  ChainType : string;
  AddressValue : string
}.

(** [types.Transaction], with the fields the engine reads. *)
Record Transaction : Type := MkTransaction {
  Hash : string;
  BlockNumber : Z;
  Metadata : gmap string string
}.

(** The service-level transaction produced by [FromCoreTransaction]. *)
Record ServiceTransaction : Type := MkServiceTransaction {
  ID : Z;
  SHash : string;
  Core : Transaction
}.

Definition withID (id : Z) (t : ServiceTransaction) : ServiceTransaction :=
  {| ID := id; SHash := SHash t; Core := Core t |}.

Record Token : Type := MkToken { Symbol : string }.

Inductive TransactionType : Type :=
| TxTypeNormal
| TxTypeERC20.

(** Modelled from the spec: the string values of
    [blockexplorer.TxTypeNormal] and [blockexplorer.TxTypeERC20] (their
    declaration is not among the sources); the spec speaks of "normal"
    and "ERC20-transfer" transactions.  The strings only appear in log
    fields. *)
Definition txTypeString (t : TransactionType) : string :=
  match t with TxTypeNormal => "normal" | TxTypeERC20 => "erc20" end.

Definition isERC20 (t : TransactionType) : bool :=
  match t with TxTypeERC20 => true | TxTypeNormal => false end.

Record TransactionHistoryOptions : Type := MkOptions {
  OptTransactionType : TransactionType;
  StartBlock : Z;
  Limit : Z
}.

(** A page of explorer items; [GetTransaction] of an item is the item. *)
Record Page : Type := MkPage { Items : list Transaction }.

Record TransactionEvent : Type := MkEvent {
  EvTransaction : Transaction;
  IsNew : bool
}.

(** [addressSyncInfo] holds the address and its start block. *)
Record addressSyncInfo : Type := MkSyncInfo {
  Address_ : Address;
  StartBlock_ : Z
}.

(** *** Logger and explorer calls, as a trace of output effects *)

Inductive Level : Type := Debug | Info | Warn | Error.

Inductive Field : Type :=
| FString (k v : string)
| FInt (k : string) (v : Z)
| FInt64 (k : string) (v : Z)
| FBool (k : string) (v : bool)
| FError (e : Vault0Error).

Inductive Effect : Type :=
| Log (lvl : Level) (msg : string) (fields : list Field)
| Request (chain : string) (address : string)
          (options : TransactionHistoryOptions) (pageToken : string).

Definition isErrorLog (e : Effect) : bool :=
  match e with Log Error _ _ => true | _ => false end.

Definition isRequest (e : Effect) : bool :=
  match e with Request _ _ _ _ => true | _ => false end.

(** *** Collaborator interfaces *)

(** [blockexplorer.BlockExplorer] *)
Record BlockExplorer : Type := MkExplorer {
  GetTransactionHistory :
    string -> TransactionHistoryOptions -> string -> Result Page
}.

(** [blockexplorer.Factory] *)
Record Factory : Type := MkFactory {
  NewExplorer : string -> Result BlockExplorer
}.

(** [TransformerService]: [Apply] may veto a transaction (nil). *)
Record TransformerService : Type := MkTransformer {
  Apply : Transaction -> option Transaction
}.

(** [tokenstore.TokenStore] *)
Record TokenStore : Type := MkTokenStore {
  GetToken : string -> option Token * option Vault0Error
}.

(** [Repository], over a store of type [R]. *)
Record Repository (R : Type) : Type := MkRepository {
  GetByHash : R -> string -> R * (option ServiceTransaction * option Vault0Error);
  Update : R -> ServiceTransaction -> R * option Vault0Error;
  Create : R -> ServiceTransaction -> R * option Vault0Error
}.
Arguments GetByHash {R} _ _ _.
Arguments Update {R} _ _ _.
Arguments Create {R} _ _ _.

(** The dependencies of [historyService], together with the helpers of
    other packages the engine calls ([types.Address.ToChecksum] and
    [String], [errors.IsError], [FromCoreTransaction] and the metadata
    key of the token address), which are taken as parameters. *)
Record Env (R : Type) : Type := MkEnv {
  blockExplorerFactory : Factory;
  transformerService : TransformerService;
  repositoryOps : Repository R;
  tokenStore : TokenStore;
  ToChecksum : Address -> string;
  AddressString : Address -> string;
  IsError : Vault0Error -> string -> bool;
  FromCoreTransaction : Transaction -> option ServiceTransaction;
  ERC20TokenAddressMetadataKey : string
}.
Arguments blockExplorerFactory {R} _.
Arguments transformerService {R} _.
Arguments repositoryOps {R} _.
Arguments tokenStore {R} _.
Arguments ToChecksum {R} _ _.
Arguments AddressString {R} _ _.
Arguments IsError {R} _ _ _.
Arguments FromCoreTransaction {R} _ _.
Arguments ERC20TokenAddressMetadataKey {R} _.

(** *** Engine state *)

(** The mutable part of [historyService] and of the repository it owns
    a handle to.  [historyEventsChan] is the buffer of the channel,
    oldest event first. *)
Record historyService (R : Type) : Type := MkService {
  syncAddresses : gmap string addressSyncInfo;
  historyEventsChan : list TransactionEvent;
  repository : R
}.
Arguments MkService {R} _ _ _.
Arguments syncAddresses {R} _.
Arguments historyEventsChan {R} _.
Arguments repository {R} _.

(** Capacity of the channel made by [NewHistoryService]. *)
Definition historyEventsChanCap : nat := 100.

Definition NewHistoryService {R : Type} (repo : R) : historyService R :=
  MkService ∅ [] repo.

(** *** The engine monad: state passing with a trace of effects *)

Definition M (R A : Type) : Type :=
  historyService R -> (A * historyService R) * list Effect.

Definition ret {R A} (a : A) : M R A := fun s => ((a, s), []).

Definition bind {R A B} (m : M R A) (k : A -> M R B) : M R B :=
  fun s =>
    let r1 := m s in
    let r2 := k (fst (fst r1)) (snd (fst r1)) in
    (fst r2, snd r1 ++ snd r2).

Definition state_of {R A} (r : (A * historyService R) * list Effect)
  : historyService R := snd (fst r).
Definition value_of {R A} (r : (A * historyService R) * list Effect)
  : A := fst (fst r).
Definition trace_of {R A} (r : (A * historyService R) * list Effect)
  : list Effect := snd r.

Declare Scope engine_scope.
Delimit Scope engine_scope with engine.
Notation "x <~ m ;; k" := (bind m (fun x => k))
  (at level 62, m at next level, right associativity) : engine_scope.
Notation "m ;;; k" := (bind m (fun _ => k))
  (at level 62, right associativity) : engine_scope.
Open Scope engine_scope.

Definition emitLog {R} (lvl : Level) (msg : string) (fields : list Field)
  : M R unit := fun s => ((tt, s), [Log lvl msg fields]).

Fixpoint forEach {R A} (l : list A) (body : A -> M R unit) : M R unit :=
  match l with
  | [] => ret tt
  | x :: rest => body x ;;; forEach rest body
  end.

Section Engine.
Context {R : Type} (env : Env R).

(** [deriveAddressKey] creates the map key combining chain and address. *)
Definition deriveAddressKey (address : Address) : string :=
  ChainType address +:+ ":" +:+ ToLower (ToChecksum env address).

(** [MonitorAddress] adds an address to be monitored. *)
Definition MonitorAddress (address : Address) (startBlockNumber : Z)
  : M R (option Vault0Error) :=
  fun s =>
    let addrKey := deriveAddressKey address in
    match syncAddresses s !! addrKey with
    | Some _ => ((None, s), [])
    | None =>
        ((None,
          MkService
            (<[addrKey := MkSyncInfo address startBlockNumber]>
               (syncAddresses s))
            (historyEventsChan s) (repository s)),
         [Log Info "Added address for transaction history syncing"
            [FString "chain" (ChainType address);
             FString "address" (AddressString env address);
             FInt64 "start_block_number" (Int64 startBlockNumber)]])
    end.

(** [UnmonitorAddress] removes an address from monitoring. *)
Definition UnmonitorAddress (address : Address)
  : M R (option Vault0Error) :=
  fun s =>
    let addrKey := deriveAddressKey address in
    match syncAddresses s !! addrKey with
    | None => ((None, s), [])
    | Some _ =>
        ((None,
          MkService (delete addrKey (syncAddresses s))
            (historyEventsChan s) (repository s)),
         [Log Info "Removed address from transaction history syncing"
            [FString "chain" (ChainType address);
             FString "address" (AddressString env address)]])
    end.

(** [getStartBlock] retrieves the start block number of an address. *)
Definition getStartBlock (address : Address) : M R Z :=
  fun s =>
    match syncAddresses s !! deriveAddressKey address with
    | None =>
        ((0, s),
         [Log Warn "Address not found in syncAddresses"
            [FString "address" (AddressString env address)]])
    | Some info => ((StartBlock_ info, s), [])
    end.

(** [setStartBlock] updates the start block number of an address. *)
Definition setStartBlock (address : Address) (blockNumber : Z)
  : M R unit :=
  fun s =>
    let addrKey := deriveAddressKey address in
    match syncAddresses s !! addrKey with
    | None =>
        ((tt, s),
         [Log Warn "Address not found in syncAddresses"
            [FString "address" (AddressString env address)]])
    | Some info =>
        ((tt,
          MkService
            (<[addrKey := MkSyncInfo (Address_ info) blockNumber]>
               (syncAddresses s))
            (historyEventsChan s) (repository s)),
         [])
    end.

(** Calls on the repository thread its store. *)
Definition repoGetByHash (hash : string)
  : M R (option ServiceTransaction * option Vault0Error) :=
  fun s =>
    let r := GetByHash (repositoryOps env) (repository s) hash in
    ((snd r, MkService (syncAddresses s) (historyEventsChan s) (fst r)), []).

Definition repoUpdate (tx : ServiceTransaction) : M R (option Vault0Error) :=
  fun s =>
    let r := Update (repositoryOps env) (repository s) tx in
    ((snd r, MkService (syncAddresses s) (historyEventsChan s) (fst r)), []).

Definition repoCreate (tx : ServiceTransaction) : M R (option Vault0Error) :=
  fun s =>
    let r := Create (repositoryOps env) (repository s) tx in
    ((snd r, MkService (syncAddresses s) (historyEventsChan s) (fst r)), []).

(** The [select] with a [default] branch: a send that never waits. *)
Definition publish (event : TransactionEvent) : M R unit :=
  fun s =>
    if (length (historyEventsChan s) <? historyEventsChanCap)%nat then
      ((tt,
        MkService (syncAddresses s) (historyEventsChan s ++ [event])
          (repository s)),
       [Log Debug "Emitted history transaction event"
          [FString "tx_hash" (Hash (EvTransaction event));
           FBool "is_new" (IsNew event)]])
    else
      ((tt, s),
       [Log Warn "History events channel is full, dropping event"
          [FString "tx_hash" (Hash (EvTransaction event))]]).

(** [isValidERC20Token] checks that the token of the transaction
    exists in the token store. *)
Definition isValidERC20Token (tx : Transaction) : M R bool :=
  match Metadata tx !! ERC20TokenAddressMetadataKey env with
  | None =>
      emitLog Warn "ERC20 token address not found in metadata, skipping"
        [FString "tx_hash" (Hash tx)] ;;;
      ret false
  | Some tokenAddress =>
      match GetToken (tokenStore env) tokenAddress with
      | (Some token, None) =>
          emitLog Debug "Found token in token store"
            [FString "tx_hash" (Hash tx);
             FString "token_address" tokenAddress;
             FString "token_symbol" (Symbol token)] ;;;
          ret true
      | (_, err) =>
          (match err with
           | Some e =>
               if IsError env e ErrCodeResourceNotFound then
                 emitLog Warn "Token not found in token store, skipping"
                   [FString "tx_hash" (Hash tx);
                    FString "token_address" tokenAddress]
               else
                 emitLog Error "Failed to get token from token store"
                   [FString "tx_hash" (Hash tx);
                    FString "token_address" tokenAddress; FError e]
           | None =>
               emitLog Error "Failed to get token from token store"
                 [FString "tx_hash" (Hash tx);
                  FString "token_address" tokenAddress]
           end) ;;;
          ret false
      end
  end.

(** The save-or-update step of the loop body, followed by the
    emission of the event. *)
Definition upsertAndEmit (transformedTx : Transaction)
           (serviceTx : ServiceTransaction)
           (existingTx : option ServiceTransaction) : M R unit :=
  match existingTx with
  | Some existing =>
      uerr <~ repoUpdate (withID (ID existing) serviceTx) ;;
      match uerr with
      | Some e =>
          emitLog Error "Failed to update transaction"
            [FString "tx_hash" (SHash serviceTx); FError e]
      | None =>
          emitLog Debug "Updated existing transaction"
            [FString "tx_hash" (SHash serviceTx)] ;;;
          publish (MkEvent transformedTx false)
      end
  | None =>
      cerr <~ repoCreate serviceTx ;;
      match cerr with
      | Some e =>
          emitLog Error "Failed to create transaction"
            [FString "tx_hash" (SHash serviceTx); FError e]
      | None =>
          emitLog Debug "Created new transaction"
            [FString "tx_hash" (SHash serviceTx)] ;;;
          publish (MkEvent transformedTx true)
      end
  end.

(** [err != nil && !errors.IsError(err, ErrCodeTransactionNotFound)] *)
Definition lookupFailed (err : option Vault0Error) : bool :=
  match err with
  | Some e => negb (IsError env e ErrCodeTransactionNotFound)
  | None => false
  end.

(** The body of the loop over [page.Items]; every [continue] of the
    source ends the body. *)
Definition processItem (txType : TransactionType) (item : Transaction)
  : M R unit :=
  let rawTx := item in
  match Apply (transformerService env) rawTx with
  | None =>
      emitLog Warn "Transaction is nil after transformation, skipping"
        [FString "tx_hash" (Hash rawTx)]
  | Some transformedTx =>
      valid <~ (if isERC20 txType then isValidERC20Token transformedTx
                else ret true) ;;
      if negb valid then ret tt
      else
        match FromCoreTransaction env transformedTx with
        | None =>
            emitLog Error "Failed to convert transaction to service model"
              [FString "tx_hash" (Hash transformedTx)]
        | Some serviceTx =>
            found <~ repoGetByHash (SHash serviceTx) ;;
            if lookupFailed (snd found) then
              emitLog Error "Error checking for existing transaction"
                (FString "tx_hash" (SHash serviceTx)
                   :: match snd found with
                      | Some err => [FError err]
                      | None => []
                      end)
            else upsertAndEmit transformedTx serviceTx (fst found)
        end
  end.

(** The request sent to the explorer, recorded in the trace. *)
Definition fetch (explorer : BlockExplorer) (address : Address)
           (options : TransactionHistoryOptions) : M R (Result Page) :=
  fun s =>
    ((GetTransactionHistory explorer (ToChecksum env address) options "",
      s),
     [Request (ChainType address) (ToChecksum env address) options ""]).

(** [syncTransactionsForAddressByType] fetches and processes the
    transactions of one type for an address. *)
Definition syncTransactionsForAddressByType (address : Address)
           (txType : TransactionType) : M R (option Vault0Error) :=
  match NewExplorer (blockExplorerFactory env) (ChainType address) with
  | Fail err =>
      emitLog Error "Failed to get explorer for chain"
        [FString "chain" (ChainType address); FError err] ;;;
      ret (Some (NewOperationFailedError "get explorer" err))
  | Ok explorer =>
      startBlock <~ getStartBlock address ;;
      let options := MkOptions txType (Int64 startBlock) 9000 in
      emitLog Info "Fetching transaction history"
        [FString "address" (AddressString env address);
         FString "chain" (ChainType address);
         FString "tx_type" (txTypeString txType);
         FInt64 "start_block" (Int64 startBlock)] ;;;
      res <~ fetch explorer address options ;;
      match res with
      | Fail err =>
          emitLog Error "Failed to get transaction history"
            [FString "address" (AddressString env address);
             FString "tx_type" (txTypeString txType); FError err] ;;;
          ret (Some (NewOperationFailedError "get transaction history" err))
      | Ok page =>
          match Items page with
          | [] =>
              emitLog Info "No transactions found for address"
                [FString "address" (AddressString env address);
                 FString "tx_type" (txTypeString txType)] ;;;
              ret None
          | first :: others =>
              emitLog Info "Found transactions for address"
                [FString "address" (AddressString env address);
                 FString "tx_type" (txTypeString txType);
                 FInt "count" (Z.of_nat (length (Items page)))] ;;;
              forEach (Items page) (processItem txType) ;;;
              let latestBlockNumber := BlockNumber (List.last others first) in
              setStartBlock address (latestBlockNumber + 1) ;;;
              ret None
          end
      end
  end.

(** [syncTransactionsForAddress] syncs normal transactions, then
    ERC20 transactions; the error of either is logged and dropped. *)
Definition syncTransactionsForAddress (address : Address)
  : M R (option Vault0Error) :=
  err1 <~ syncTransactionsForAddressByType address TxTypeNormal ;;
  match err1 with
  | Some e =>
      emitLog Error "Failed to sync normal transactions for address"
        [FString "address" (AddressString env address); FError e]
  | None => ret tt
  end ;;;
  err2 <~ syncTransactionsForAddressByType address TxTypeERC20 ;;
  match err2 with
  | Some e =>
      emitLog Error "Failed to sync ERC20 transactions for address"
        [FString "address" (AddressString env address); FError e]
  | None => ret tt
  end ;;;
  ret None.

(** The loop of [syncTransactions] over the copied addresses.
    [ctxErr i] is the value of [ctx.Err()] at iteration [i]. *)
Fixpoint syncLoop (ctxErr : nat -> option Vault0Error) (i : nat)
         (addresses : list Address) : M R unit :=
  match addresses with
  | [] => emitLog Info "Completed transaction history sync cycle" []
  | address :: rest =>
      match ctxErr i with
      | Some cerr =>
          emitLog Info "Transaction history sync cycle interrupted"
            [FError cerr]
      | None =>
          err <~ syncTransactionsForAddress address ;;
          match err with
          | Some e =>
              emitLog Error "Failed to sync history for address"
                [FString "address" (AddressString env address); FError e]
          | None => ret tt
          end ;;;
          syncLoop ctxErr (S i) rest
      end
  end.

(** [syncTransactions]: [addresses] is the copy of the monitored
    addresses made under the read lock, in the order in which the map
    was iterated. *)
Definition syncTransactions (ctxErr : nat -> option Vault0Error)
           (addresses : list Address) : M R unit :=
  match addresses with
  | [] =>
      emitLog Debug "No addresses configured for transaction history syncing" []
  | _ :: _ =>
      emitLog Info "Starting transaction history sync cycle"
        [FInt "address_count" (Z.of_nat (length addresses))] ;;;
      syncLoop ctxErr 0 addresses
  end.

(** Go iterates a map in an unspecified order: a snapshot is any
    arrangement of the monitored addresses. *)
Definition Snapshot (s : historyService R) (addresses : list Address)
  : Prop :=
  addresses ≡ₚ (Address_ <$> (map_to_list (syncAddresses s)).*2).

End Engine.

End History.

(** ** Database keystore ([DBKeyStore]) *)

Module Keystore.

Definition bytes : Type := list Byte.byte.

(** [types.KeyType] is a string type; a key type read back from the
    database is whatever string the row holds. *)
Definition KeyType : Type := string.

(** Modelled from the spec: the values of [types.KeyTypeECDSA],
    [KeyTypeRSA], [KeyTypeEd25519] and [KeyTypeSymmetric] (package
    [types] is not among the sources); the spec lists the key types
    as ECDSA, RSA, Ed25519 and Symmetric. *)
Definition KeyTypeECDSA : KeyType := "ECDSA".
Definition KeyTypeRSA : KeyType := "RSA".
Definition KeyTypeEd25519 : KeyType := "Ed25519".
Definition KeyTypeSymmetric : KeyType := "Symmetric".

Definition CurveNameP256 : string := "P-256".
Definition CurveNameSecp256k1 : string := "secp256k1".

(** An [elliptic.Curve] value, or nil; a curve is known by the name
    its [Params()] carry. *)
Inductive CurveImpl : Type := P256 | Secp256k1Curve.

Definition Curve : Type := option CurveImpl.

Definition curveParamsName (c : CurveImpl) : string :=
  match c with P256 => CurveNameP256 | Secp256k1Curve => CurveNameSecp256k1 end.

(** [curveByName] returns the curve of a given name. *)
Definition curveByName (name : string) : Result CurveImpl :=
  if String.eqb name CurveNameP256 then Ok P256
  else if String.eqb name CurveNameSecp256k1 then Ok Secp256k1Curve
  else Fail (NewInvalidCurveError "P-256 or secp256k1" name).

Inductive DataType : Type := DataTypeRaw | DataTypeDigest.

(** [Key]: the value handed to callers. [Tags] is [None] for a nil map. *)
Record Key : Type := MkKey {
  ID : string;
  Name : string;
  Type_ : KeyType;
  Tags : option (gmap string string);
  CreatedAt : Z;
  Curve_ : Curve;
  PrivateKey : bytes;
  PublicKey : bytes
}.

(** A row of table [keys]. *)
Record KeyRow : Type := MkKeyRow {
  col_id : string;
  col_name : string;
  col_key_type : string;
  col_curve : string;
  col_tags : string;
  col_created_at : Z;
  col_private_key : bytes;
  col_public_key : bytes
}.

(** [wallet.WalletInfo]: a wallet refers to its key by [KeyID]. *)
Record WalletInfo : Type := MkWalletInfo {
  KeyID : string;
  WalletAddress : string;
  WalletChainType : string
}.

(** The database: the [keys] table in insertion order, and the wallets
    stored next to it. *)
Record DB : Type := MkDB {
  keys : list KeyRow;
  wallets : list WalletInfo
}.

(** The statements the keystore executes. *)
Inductive Statement : Type :=
| (* INSERT INTO keys (id, name, key_type, curve, tags, created_at,
     private_key, public_key) VALUES (?, ?, ?, ?, ?, ?, ?, ?) *)
  InsertKey (row : KeyRow)
| (* UPDATE keys SET name = ?, tags = ? WHERE id = ? *)
  UpdateKey (name tags id : string)
| (* DELETE FROM keys WHERE id = ? *)
  DeleteKey (id : string).

(** The queries the keystore runs. *)
Inductive Query : Type :=
| (* SELECT id, name, key_type, curve, tags, created_at, public_key
     FROM keys WHERE id = ? *)
  SelectPublic (id : string)
| (* SELECT id, name, key_type, curve, tags, created_at, public_key
     FROM keys [WHERE id > ?] ORDER BY id ASC LIMIT ? *)
  SelectPage (after : option string) (limit : Z)
| (* SELECT id, name, key_type, curve, private_key FROM keys WHERE id = ? *)
  SelectPrivate (id : string).

(** The columns a query reads; [private_key] is read by
    [SelectPrivate] only. *)
Record PublicColumns : Type := MkPublicColumns {
  pc_id : string;
  pc_name : string;
  pc_key_type : string;
  pc_curve : string;
  pc_tags : string;
  pc_created_at : Z;
  pc_public_key : bytes
}.

Record PrivateColumns : Type := MkPrivateColumns {
  sc_id : string;
  sc_name : string;
  sc_key_type : string;
  sc_curve : string;
  sc_private_key : bytes
}.

Definition publicColumns (r : KeyRow) : PublicColumns :=
  MkPublicColumns (col_id r) (col_name r) (col_key_type r) (col_curve r)
    (col_tags r) (col_created_at r) (col_public_key r).

Definition privateColumns (r : KeyRow) : PrivateColumns :=
  MkPrivateColumns (col_id r) (col_name r) (col_key_type r) (col_curve r)
    (col_private_key r).

Definition hasID (id : string) (r : KeyRow) : bool := String.eqb (col_id r) id.

(** Semantics of the statements on the table: the new table and the
    number of affected rows. *)
Definition runStatement (st : Statement) (db : DB) : DB * Z :=
  match st with
  | InsertKey row => (MkDB (keys db ++ [row]) (wallets db), 1)
  | UpdateKey name tags id =>
      (MkDB
         (map (fun r =>
                 if hasID id r then
                   MkKeyRow (col_id r) name (col_key_type r) (col_curve r)
                     tags (col_created_at r) (col_private_key r)
                     (col_public_key r)
                 else r)
              (keys db))
         (wallets db),
       Z.of_nat (length (filter (fun r => hasID id r = true) (keys db))))
  | DeleteKey id =>
      (MkDB (filter (fun r => hasID id r = false) (keys db)) (wallets db),
       Z.of_nat (length (filter (fun r => hasID id r = true) (keys db))))
  end.

(** Rows in ascending order of [id]. *)
Fixpoint insertById (r : KeyRow) (l : list KeyRow) : list KeyRow :=
  match l with
  | [] => [r]
  | x :: rest =>
      if String.leb (col_id r) (col_id x) then r :: l
      else x :: insertById r rest
  end.

Definition orderById (l : list KeyRow) : list KeyRow :=
  fold_right insertById [] l.

Definition selectById (id : string) (db : DB) : list KeyRow :=
  filter (fun r => hasID id r = true) (keys db).

Definition selectPage (after : option string) (limit : Z) (db : DB)
  : list KeyRow :=
  let matching :=
    match after with
    | Some v => filter (fun r => String.ltb v (col_id r) = true) (keys db)
    | None => keys db
    end in
  take (Z.to_nat limit) (orderById matching).

(** What the keystore does to its collaborators, in order. *)
Inductive Effect : Type :=
| Executed (st : Statement)
| Queried (q : Query)
| Encrypted (plaintext : bytes)
| Decrypted (ciphertext : bytes).

Definition isDecrypted (e : Effect) : bool :=
  match e with Decrypted _ => true | _ => false end.

Definition isExecuted (e : Effect) : bool :=
  match e with Executed _ => true | _ => false end.

(** Page token of [types]: column and value of the last item seen. *)
Record NextPageToken : Type := MkToken {
  Column : string;
  Value : string
}.

Record KeyPage : Type := MkKeyPage {
  PageItems : list Key;
  NextToken : option NextPageToken;
  PageLimit : Z
}.

(** Modelled from the spec: [types.NewPage] (package [types] is not
    among the sources).  A page holds at most [limit] items, and a
    token, made from the last item kept, iff more items were fetched. *)
Definition NewPage (items : list Key) (limit : Z)
           (generateToken : Key -> NextPageToken) : KeyPage :=
  let kept := take (Z.to_nat limit) items in
  MkKeyPage kept
    (if (Z.to_nat limit <? length items)%nat
     then generateToken <$> List.last (Some <$> kept) None
     else None)
    limit.

(** The cryptographic routines [signData] dispatches to. *)
Record Crypto : Type := MkCrypto {
  sha256Sum : bytes -> bytes;
  UnmarshalPrivateKey : bytes -> Result bytes;
  ParseECPrivateKey : bytes -> Result bytes;
  ecdsaSign : bytes -> bytes -> Result (Z * Z);
  asn1Marshal : Z * Z -> Result bytes;
  ParsePKCS1PrivateKey : bytes -> Result bytes;
  rsaSignPKCS1v15 : bytes -> bytes -> Result bytes;
  ParsePKCS8PrivateKey : bytes -> Result (option bytes);
  ed25519Sign : bytes -> bytes -> option bytes;
  hmacSHA256 : bytes -> bytes -> Result bytes
}.

(** The dependencies of [DBKeyStore]: the encryptor, the key
    generator, the database driver's failures, the clock, JSON and the
    page-token codec. *)
Record Env : Type := MkEnv {
  Encrypt : bytes -> Result bytes;
  Decrypt : bytes -> Result bytes;
  GenerateKeyPair : KeyType -> Curve -> Result (bytes * bytes);
  GenerateID : DB -> Result Z;
  execFault : DB -> Statement -> option Vault0Error;
  rowsAffectedFault : DB -> Statement -> option Vault0Error;
  queryFault : DB -> Query -> option Vault0Error;
  scanFault : DB -> Query -> option Vault0Error;
  rowsErr : DB -> Query -> option Vault0Error;
  now : Z;
  jsonMarshal : option (gmap string string) -> Result string;
  jsonUnmarshal : string -> Result (option (gmap string string));
  DecodeNextPageToken : string -> string -> Result (option NextPageToken);
  crypto : Crypto
}.

Definition FormatInt (z : Z) : string :=
  DecimalString.NilZero.string_of_int (Z.to_int z).

(** An operation returns its result, the database it leaves and the
    calls it made. *)
Definition Outcome (A : Type) : Type := (Result A * DB) * list Effect.

Definition result_of {A} (o : Outcome A) : Result A := fst (fst o).
Definition db_of {A} (o : Outcome A) : DB := snd (fst o).
Definition calls_of {A} (o : Outcome A) : list Effect := snd o.

Section Operations.
Context (env : Env).

(** [db.ExecuteStatementContext] followed by [result.RowsAffected]. *)
Definition ExecuteStatementContext (st : Statement) (db : DB)
  : Result (DB * Result Z) :=
  match execFault env db st with
  | Some e => Fail e
  | None =>
      let r := runStatement st db in
      Ok (fst r,
          match rowsAffectedFault env db st with
          | Some e => Fail e
          | None => Ok (snd r)
          end)
  end.

Definition curveNameOf (curve : Curve) : string :=
  match curve with Some c => curveParamsName c | None => "" end.

(** [Create] creates a new key with the given name and type. *)
Definition Create (name : string) (keyType : KeyType) (curve : Curve)
           (tags : option (gmap string string)) (db : DB) : Outcome Key :=
  let curve :=
    if String.eqb keyType KeyTypeECDSA then
      match curve with None => Some P256 | Some c => Some c end
    else curve in
  match jsonMarshal env tags with
  | Fail e =>
      ((Fail (NewInvalidKeyError "failed to marshal tags" (Some e)), db), [])
  | Ok tagsJSON =>
      match GenerateID env db with
      | Fail e => ((Fail (NewDatabaseError e), db), [])
      | Ok snowflakeID =>
          let keyID := FormatInt snowflakeID in
          match GenerateKeyPair env keyType curve with
          | Fail e => ((Fail e, db), [])
          | Ok (privateKey, publicKey) =>
              match Encrypt env privateKey with
              | Fail e => ((Fail e, db), [Encrypted privateKey])
              | Ok encryptedPrivateKey =>
                  let key :=
                    MkKey keyID name keyType tags (now env) curve
                      encryptedPrivateKey publicKey in
                  let st :=
                    InsertKey
                      (MkKeyRow (ID key) (Name key) (Type_ key)
                         (curveNameOf curve) tagsJSON (CreatedAt key)
                         (PrivateKey key) (PublicKey key)) in
                  match ExecuteStatementContext st db with
                  | Fail e =>
                      ((Fail (NewDatabaseError e), db),
                       [Encrypted privateKey; Executed st])
                  | Ok (db', _) =>
                      ((Ok key, db'), [Encrypted privateKey; Executed st])
                  end
              end
          end
      end
  end.

(** [Import] imports an existing key. *)
Definition Import (name : string) (keyType : KeyType) (curve : Curve)
           (privateKey publicKey : bytes)
           (tags : option (gmap string string)) (db : DB) : Outcome Key :=
  match jsonMarshal env tags with
  | Fail e =>
      ((Fail (NewInvalidKeyError "failed to marshal tags" (Some e)), db), [])
  | Ok tagsJSON =>
      match Encrypt env privateKey with
      | Fail e => ((Fail e, db), [Encrypted privateKey])
      | Ok encryptedPrivateKey =>
          let curve :=
            if String.eqb keyType KeyTypeECDSA then
              match curve with None => Some P256 | Some c => Some c end
            else curve in
          let curveName := curveNameOf curve in
          match GenerateID env db with
          | Fail e =>
              ((Fail (NewDatabaseError e), db), [Encrypted privateKey])
          | Ok snowflakeID =>
              let keyID := FormatInt snowflakeID in
              let key :=
                MkKey keyID name keyType tags (now env) curve
                  encryptedPrivateKey publicKey in
              let st :=
                InsertKey
                  (MkKeyRow (ID key) (Name key) (Type_ key) curveName
                     tagsJSON (CreatedAt key) (PrivateKey key)
                     (PublicKey key)) in
              match ExecuteStatementContext st db with
              | Fail e =>
                  ((Fail (NewDatabaseError e), db),
                   [Encrypted privateKey; Executed st])
              | Ok (db', _) =>
                  ((Ok key, db'), [Encrypted privateKey; Executed st])
              end
          end
      end
  end.

(** Building a [Key] from the columns of a public query: the
    [PrivateKey] field keeps its zero value. *)
Definition scanPublic (c : PublicColumns) : Result Key :=
  let curveR :=
    if String.eqb (pc_curve c) "" then Ok None
    else match curveByName (pc_curve c) with
         | Ok cv => Ok (Some cv)
         | Fail e => Fail e
         end in
  match curveR with
  | Fail e => Fail e
  | Ok curve =>
      match jsonUnmarshal env (pc_tags c) with
      | Fail e =>
          Fail (NewInvalidKeyError "failed to unmarshal tags" (Some e))
      | Ok tags =>
          Ok (MkKey (pc_id c) (pc_name c) (pc_key_type c) tags
                (pc_created_at c) curve [] (pc_public_key c))
      end
  end.

(** [GetPublicKey] retrieves only the public part of a key. *)
Definition GetPublicKey (id : string) (db : DB) : Outcome Key :=
  let q := SelectPublic id in
  match queryFault env db q with
  | Some e => ((Fail (NewDatabaseError e), db), [Queried q])
  | None =>
      match publicColumns <$> selectById id db with
      | [] => ((Fail (NewResourceNotFoundError "key" id), db), [Queried q])
      | c :: _ =>
          match scanFault env db q with
          | Some e => ((Fail (NewDatabaseError e), db), [Queried q])
          | None => ((scanPublic c, db), [Queried q])
          end
      end
  end.

(** The loop of [List] over the rows of the page query. *)
Fixpoint scanRows (db : DB) (q : Query) (rows : list PublicColumns)
  : Result (list Key) :=
  match rows with
  | [] =>
      match rowsErr env db q with
      | Some e => Fail (NewDatabaseError e)
      | None => Ok []
      end
  | c :: rest =>
      match scanFault env db q with
      | Some e => Fail (NewDatabaseError e)
      | None =>
          match scanPublic c with
          | Fail e => Fail e
          | Ok key =>
              match scanRows db q rest with
              | Fail e => Fail e
              | Ok ks => Ok (key :: ks)
              end
          end
      end
  end.

(** [List] retrieves keys with pagination. *)
Definition List_ (limit : Z) (nextToken : string) (db : DB)
  : Outcome KeyPage :=
  let limit := if limit <=? 0 then 50 else limit in
  let paginationColumn := "id" in
  let tokenR :=
    if String.eqb nextToken "" then Ok None
    else DecodeNextPageToken env nextToken paginationColumn in
  match tokenR with
  | Fail e => ((Fail e, db), [])
  | Ok token =>
      let q := SelectPage (Value <$> token) (limit + 1) in
      match queryFault env db q with
      | Some e => ((Fail (NewDatabaseError e), db), [Queried q])
      | None =>
          match scanRows db q
                  (publicColumns <$> selectPage (Value <$> token) (limit + 1) db)
          with
          | Fail e => ((Fail e, db), [Queried q])
          | Ok ks =>
              ((Ok (NewPage ks limit
                      (fun key => MkToken paginationColumn (ID key))),
                db),
               [Queried q])
          end
      end
  end.

(** [Update] modifies a key's metadata. *)
Definition Update (id name : string) (tags : option (gmap string string))
           (db : DB) : Outcome Key :=
  match jsonMarshal env tags with
  | Fail e =>
      ((Fail (NewInvalidKeyError "failed to marshal tags" (Some e)), db), [])
  | Ok tagsJSON =>
      let st := UpdateKey name tagsJSON id in
      match ExecuteStatementContext st db with
      | Fail e => ((Fail (NewDatabaseError e), db), [Executed st])
      | Ok (db', Fail e) => ((Fail (NewDatabaseError e), db'), [Executed st])
      | Ok (db', Ok rowsAffected) =>
          if rowsAffected =? 0 then
            ((Fail (NewResourceNotFoundError "key" id), db'), [Executed st])
          else
            let r := GetPublicKey id db' in
            (fst r, Executed st :: snd r)
      end
  end.

(** [Delete] removes a key from the keystore. *)
Definition Delete (id : string) (db : DB) : Outcome unit :=
  let st := DeleteKey id in
  match ExecuteStatementContext st db with
  | Fail e => ((Fail (NewDatabaseError e), db), [Executed st])
  | Ok (db', Fail e) => ((Fail (NewDatabaseError e), db'), [Executed st])
  | Ok (db', Ok rowsAffected) =>
      if rowsAffected =? 0 then
        ((Fail (NewResourceNotFoundError "key" id), db'), [Executed st])
      else ((Ok tt, db'), [Executed st])
  end.

Definition hashIfRaw (data : bytes) (dataType : DataType) : bytes :=
  match dataType with
  | DataTypeRaw => sha256Sum (crypto env) data
  | DataTypeDigest => data
  end.

(** [signWithECDSA] *)
Definition signWithECDSA (privateKeyBytes data : bytes)
           (dataType : DataType) (curveName : string) : Result bytes :=
  let parsed :=
    if String.eqb curveName CurveNameSecp256k1 then
      match UnmarshalPrivateKey (crypto env) privateKeyBytes with
      | Ok k => Ok k
      | Fail e =>
          Fail (NewInvalidKeyError "failed to parse secp256k1 private key"
                  (Some e))
      end
    else
      match ParseECPrivateKey (crypto env) privateKeyBytes with
      | Ok k => Ok k
      | Fail e =>
          Fail (NewInvalidKeyError "failed to parse ECDSA private key"
                  (Some e))
      end in
  match parsed with
  | Fail e => Fail e
  | Ok privKey =>
      match ecdsaSign (crypto env) privKey (hashIfRaw data dataType) with
      | Fail e => Fail (NewSigningError e)
      | Ok rs =>
          match asn1Marshal (crypto env) rs with
          | Fail e => Fail (NewSigningError e)
          | Ok signatureBytes => Ok signatureBytes
          end
      end
  end.

(** [signWithRSA] *)
Definition signWithRSA (privateKeyBytes data : bytes) (dataType : DataType)
  : Result bytes :=
  match ParsePKCS1PrivateKey (crypto env) privateKeyBytes with
  | Fail e =>
      Fail (NewInvalidKeyError "failed to parse RSA private key" (Some e))
  | Ok privKey =>
      match rsaSignPKCS1v15 (crypto env) privKey (hashIfRaw data dataType) with
      | Fail e => Fail (NewSigningError e)
      | Ok signature => Ok signature
      end
  end.

(** [signWithEd25519] *)
Definition signWithEd25519 (privateKeyBytes data : bytes) : Result bytes :=
  match ParsePKCS8PrivateKey (crypto env) privateKeyBytes with
  | Fail e =>
      Fail (NewInvalidKeyError "failed to parse Ed25519 private key" (Some e))
  | Ok None => Fail (NewInvalidKeyError "invalid Ed25519 private key" None)
  | Ok (Some privKey) =>
      match ed25519Sign (crypto env) privKey data with
      | None =>
          Fail (NewSigningError
                  (MkError "" "failed to sign with Ed25519"))
      | Some signature => Ok signature
      end
  end.

(** [signWithHMAC] *)
Definition signWithHMAC (keyBytes data : bytes) : Result bytes :=
  match hmacSHA256 (crypto env) keyBytes data with
  | Fail e => Fail (NewSigningError e)
  | Ok mac => Ok mac
  end.

(** [signData] handles signing based on key type. *)
Definition signData (keyType : KeyType) (privateKeyBytes data : bytes)
           (dataType : DataType) (curveName : string) : Result bytes :=
  if String.eqb keyType KeyTypeECDSA then
    signWithECDSA privateKeyBytes data dataType curveName
  else if String.eqb keyType KeyTypeRSA then
    signWithRSA privateKeyBytes data dataType
  else if String.eqb keyType KeyTypeEd25519 then
    signWithEd25519 privateKeyBytes data
  else if String.eqb keyType KeyTypeSymmetric then
    signWithHMAC privateKeyBytes data
  else Fail (NewInvalidKeyTypeError KeyTypeECDSA keyType).

(** [Sign] performs a signing operation using the specified key. *)
Definition Sign (id : string) (data : bytes) (dataType : DataType)
           (db : DB) : Outcome bytes :=
  let q := SelectPrivate id in
  match queryFault env db q with
  | Some e => ((Fail (NewDatabaseError e), db), [Queried q])
  | None =>
      match privateColumns <$> selectById id db with
      | [] => ((Fail (NewResourceNotFoundError "key" id), db), [Queried q])
      | c :: _ =>
          match scanFault env db q with
          | Some e => ((Fail (NewDatabaseError e), db), [Queried q])
          | None =>
              match Decrypt env (sc_private_key c) with
              | Fail e =>
                  ((Fail e, db), [Queried q; Decrypted (sc_private_key c)])
              | Ok privateKey =>
                  ((signData (sc_key_type c) privateKey data dataType
                      (sc_curve c),
                    db),
                   [Queried q; Decrypted (sc_private_key c)])
              end
          end
      end
  end.

End Operations.

End Keystore.

(** ** The secp256k1 curve *)

Module Secp256k1.

(** Modelled from the spec: the parameters of [Secp256k1Curve] (the
    file defining the curve is not among the sources; its tests are).
    The spec names the curve secp256k1, whose field prime, coefficient
    and base point are the standard ones; the base point is the
    "known valid point" of the tests. *)
Definition P : Z := 2 ^ 256 - 2 ^ 32 - 977.
Definition B : Z := 7.
Definition Gx : Z :=
  55066263022277343669578718895168534326250603453777594175500187360389116729240.
Definition Gy : Z :=
  32670510020758816978083085130507043184471273380659243275938904335757337482424.

(** [big.Int.ModInverse g n], for a positive modulus: the inverse of
    [g] in [[0, n)], or nil when [g] and [n] are not coprime. *)
Definition ModInverse (g n : Z) : option Z :=
  if Z.gcd g n =? 1 then Some (Z.invmod g n) else None.

(** The doubling formula, as [doubleUnsafe] of the tests writes it
    out; a nil inverse makes the multiplication panic ([None]). *)
Definition doubleFormula (x1 y1 : Z) : option (Z * Z) :=
  let threeX1Sq := x1 * x1 * 3 in
  let twoY1 := (y1 * 2) mod P in
  match ModInverse twoY1 P with
  | None => None
  | Some invTwoY1 =>
      let lambda := (threeX1Sq * invTwoY1) mod P in
      let x3 := (lambda * lambda - 2 * x1) mod P in
      let y3 := (lambda * (x1 - x3) - y1) mod P in
      Some (x3, y3)
  end.

(** The addition formula, as [addUnsafe] of the tests writes it out. *)
Definition addFormula (x1 y1 x2 y2 : Z) : option (Z * Z) :=
  let deltaX := (x2 - x1) mod P in
  let deltaY := (y2 - y1) mod P in
  match ModInverse deltaX P with
  | None => None
  | Some invDeltaX =>
      let lambda := (deltaY * invDeltaX) mod P in
      let x3 := (lambda * lambda - x1 - x2) mod P in
      let y3 := (lambda * (x1 - x3) - y1) mod P in
      Some (x3, y3)
  end.

(** Modelled from the spec: [IsOnCurve] (the curve's file is not among
    the sources).  False for a coordinate outside [[0, p)], false for
    the point at infinity (0,0), false for points not satisfying
    y^2 = x^3 + b (mod p); true otherwise. *)
Definition IsOnCurve (x y : Z) : bool :=
  if negb ((0 <=? x) && (x <? P) && (0 <=? y) && (y <? P)) then false
  else if (x =? 0) && (y =? 0) then false
  else (y * y) mod P =? (x * x * x + B) mod P.

(** Modelled from the spec: [Double] (the curve's file is not among
    the sources).  y = 0 returns the point at infinity; otherwise the
    doubling formula. *)
Definition Double (x1 y1 : Z) : option (Z * Z) :=
  if y1 =? 0 then Some (0, 0) else doubleFormula x1 y1.

(** Modelled from the spec: [Add] (the curve's file is not among the
    sources).  Either input being the point at infinity (0,0) returns
    the other point; identical points delegate to [Double]; a point
    added to its own negation (same x, y values summing to p) returns
    (0,0); the general case computes the slope by modular inverse. *)
Definition Add (x1 y1 x2 y2 : Z) : option (Z * Z) :=
  if (x1 =? 0) && (y1 =? 0) then Some (x2, y2)
  else if (x2 =? 0) && (y2 =? 0) then Some (x1, y1)
  else if (x1 =? x2) && (y1 =? y2) then Double x1 y1
  else if (x1 =? x2) && (y1 + y2 =? P) then Some (0, 0)
  else addFormula x1 y1 x2 y2.

(** The doubled test point of the tests. *)
Definition doubleX : Z :=
  89565891926547004231252920425935692360644145829622209833684329913297188986597.
Definition doubleY : Z :=
  12158399299693830322967808612713398636155367887041628176798871954788371653930.

End Secp256k1.

(** ** Concrete collaborators, for running the engine on examples *)

Module HistoryFixtures.
Import History.

(** An in-memory repository keyed by hash.  With [failing] set, every
    [Create] and [Update] returns an error and stores nothing. *)
Definition store : Type := gmap string ServiceTransaction.

Definition writeError : Vault0Error :=
  MkError ErrCodeDatabaseError "Database operation failed".

Definition memGetByHash (r : store) (hash : string)
  : store * (option ServiceTransaction * option Vault0Error) :=
  match r !! hash with
  | Some t => (r, (Some t, None))
  | None => (r, (None, Some (NewTransactionNotFoundError hash)))
  end.

Definition memWrite (failing : bool) (r : store) (t : ServiceTransaction)
  : store * option Vault0Error :=
  if failing then (r, Some writeError) else (<[SHash t := t]> r, None).

Definition memRepository (failing : bool) : Repository store :=
  MkRepository store memGetByHash (memWrite failing) (memWrite failing).

(** An explorer given by its answer to each request. *)
Definition answer : Type :=
  string -> TransactionHistoryOptions -> Result Page.

Definition fixtureFactory (f : answer) : Factory :=
  MkFactory (fun _ => Ok (MkExplorer (fun address options _ => f address options))).

Definition fixtureEnv (f : answer) (failing : bool) : Env store :=
  MkEnv store
    (fixtureFactory f)
    (MkTransformer Some)
    (memRepository failing)
    (MkTokenStore (fun _ => (Some (MkToken "TKN"), None)))
    AddressValue
    AddressValue
    (fun e code => String.eqb (Code e) code)
    (fun t => Some (MkServiceTransaction 0 (Hash t) t))
    "erc20_token_address".

Definition addrA : Address := MkAddress "ethereum" "0xaa".
Definition addrB : Address := MkAddress "ethereum" "0xbb".

Definition keyA : string := "ethereum:0xaa".
Definition keyB : string := "ethereum:0xbb".

Definition tx (hash : string) (block : Z) : Transaction :=
  MkTransaction hash block ∅.

Definition monitoring (l : list (string * addressSyncInfo))
  : historyService store :=
  MkService (list_to_map l) [] ∅.

(** One normal transaction at block 7 for every request. *)
Definition oneAtSeven : answer :=
  fun _ options =>
    match OptTransactionType options with
    | TxTypeNormal => Ok (MkPage [tx "0x01" 7])
    | TxTypeERC20 => Ok (MkPage [])
    end.

(** Normal transactions at blocks 101 to 103, then one ERC20 transfer
    at block 102. *)
Definition normalThenToken : answer :=
  fun _ options =>
    match OptTransactionType options with
    | TxTypeNormal => Ok (MkPage [tx "0x01" 101; tx "0x02" 102; tx "0x03" 103])
    | TxTypeERC20 =>
        Ok (MkPage [MkTransaction "0x04" 102
                      {["erc20_token_address" := "0xtoken"]}])
    end.

(** A transaction at the requested start block, for requests that start
    below block 1000. *)
Definition atStart : answer :=
  fun _ options =>
    if (0 <=? StartBlock options) && (StartBlock options <? 1000) then
      Ok (MkPage [tx "0x10" (StartBlock options)])
    else Ok (MkPage []).

Definition explorerDown : Vault0Error :=
  MkError "explorer_request_failed" "Explorer request failed".

(** Requests for normal transactions fail; requests for ERC20
    transfers return one transfer of a known token at block 7. *)
Definition normalDown : answer :=
  fun _ options =>
    match OptTransactionType options with
    | TxTypeNormal => Fail explorerDown
    | TxTypeERC20 =>
        Ok (MkPage [MkTransaction "0x04" 7
                      {["erc20_token_address" := "0xtoken"]}])
    end.

(** The explorer fails for address A and answers for the others. *)
Definition failingForA : answer :=
  fun address options =>
    if String.eqb address "0xaa" then Fail explorerDown
    else oneAtSeven address options.

End HistoryFixtures.

(** ** Observations of the engine used in the statements *)

Module HistoryObs.
Import History.

Section Observations.
Context {R : Type} (env : Env R).

(** A computation preserves an observation [f] of the engine state. *)
Definition Preserves {A X} (f : historyService R -> X) (m : M R A) : Prop :=
  forall s, f (state_of (m s)) = f s.

(** The stored watermark of an address, if it is monitored. *)
Definition watermark (s : historyService R) (address : Address) : option Z :=
  StartBlock_ <$> (syncAddresses s !! deriveAddressKey env address).

(** The options a sub-fetch builds in state [s]. *)
Definition optionsFor (address : Address) (txType : TransactionType)
           (s : historyService R) : TransactionHistoryOptions :=
  MkOptions txType (Int64 (value_of (getStartBlock env address s))) 9000.

(** The explorer's answer to the sub-fetch of [txType] in state [s];
    [None] when the factory gives no explorer. *)
Definition fetched (address : Address) (txType : TransactionType)
           (s : historyService R) : option (Result Page) :=
  match NewExplorer (blockExplorerFactory env) (ChainType address) with
  | Fail _ => None
  | Ok explorer =>
      Some (GetTransactionHistory explorer (ToChecksum env address)
              (optionsFor address txType s) "")
  end.

(** The sub-fetch got at least one transaction. *)
Definition returnedSome (address : Address) (txType : TransactionType)
           (s : historyService R) : Prop :=
  exists page first others,
    fetched address txType s = Some (Ok page) /\ Items page = first :: others.

(** Every request for the address fails: no explorer for its chain, or
    an explorer that answers each request with an error. *)
Definition fetchFails (address : Address) : Prop :=
  match NewExplorer (blockExplorerFactory env) (ChainType address) with
  | Fail _ => True
  | Ok explorer =>
      forall options, exists e,
        GetTransactionHistory explorer (ToChecksum env address) options ""
        = Fail e
  end.

(** The explorer honours the start block of a request: the last
    transaction of a page is at or after it, and block numbers stay
    below the largest int64. *)
Definition ExplorerHonoursStart : Prop :=
  forall chain explorer address options page first others,
    NewExplorer (blockExplorerFactory env) chain = Ok explorer ->
    GetTransactionHistory explorer address options "" = Ok page ->
    Items page = first :: others ->
    StartBlock options <= BlockNumber (List.last others first) < 2 ^ 63 - 1.

(** Every stored watermark is a non-negative int64. *)
Definition WatermarksInRange (s : historyService R) : Prop :=
  forall k info,
    syncAddresses s !! k = Some info -> 0 <= StartBlock_ info < 2 ^ 63.

(** Two states that differ at most in their event channels. *)
Definition Agree (s1 s2 : historyService R) : Prop :=
  syncAddresses s1 = syncAddresses s2 /\ repository s1 = repository s2.

(** A computation whose result, repository and monitored addresses do
    not depend on what the event channel holds. *)
Definition ChannelBlind {A} (m : M R A) : Prop :=
  forall s1 s2,
    Agree s1 s2 ->
    Agree (state_of (m s1)) (state_of (m s2))
    /\ value_of (m s1) = value_of (m s2).

(** The map of monitored addresses once the watermark of [address] has
    been set to [blockNumber]: what [setStartBlock] leaves. *)
Definition advance (address : Address) (blockNumber : Z)
           (m : gmap string addressSyncInfo) : gmap string addressSyncInfo :=
  match m !! deriveAddressKey env address with
  | Some info =>
      <[deriveAddressKey env address := MkSyncInfo (Address_ info) blockNumber]> m
  | None => m
  end.

(** The map of monitored addresses a sub-fetch leaves, read off the
    explorer's answer alone. *)
Definition syncAfter (address : Address) (txType : TransactionType)
           (s : historyService R) : gmap string addressSyncInfo :=
  match fetched address txType s with
  | Some (Ok page) =>
      match Items page with
      | first :: others =>
          advance address (BlockNumber (List.last others first) + 1)
            (syncAddresses s)
      | [] => syncAddresses s
      end
  | _ => syncAddresses s
  end.

(** The explorer requests of a trace, in order. *)
Definition requestsOf (t : list Effect) : list Effect :=
  List.filter isRequest t.

(** A computation that sends nothing to the explorer. *)
Definition NoRequest {A} (m : M R A) : Prop :=
  forall s, requestsOf (trace_of (m s)) = [].

(** Every monitored address stays monitored, under the same address,
    with a watermark that is not smaller. *)
Definition Grows (s s' : historyService R) : Prop :=
  forall k info,
    syncAddresses s !! k = Some info ->
    exists info',
      syncAddresses s' !! k = Some info'
      /\ Address_ info' = Address_ info
      /\ StartBlock_ info <= StartBlock_ info'.

(** The sub-fetch of [txType] in state [s] fails: there is no explorer
    for the chain, or the explorer answers the request with an error. *)
Definition subfetchFailed (address : Address) (txType : TransactionType)
           (s : historyService R) : Prop :=
  fetched address txType s = None
  \/ exists e, fetched address txType s = Some (Fail e).

(** Every entry of the map is stored under the key of its address, as
    [MonitorAddress] stores it. *)
Definition WellKeyed (s : historyService R) : Prop :=
  forall k info,
    syncAddresses s !! k = Some info ->
    deriveAddressKey env (Address_ info) = k.

(** One pass over an address, as a state transformer. *)
Definition passState (s : historyService R) (address : Address)
  : historyService R :=
  state_of (syncTransactionsForAddress env address s).

End Observations.

End HistoryObs.

(** ** A concrete keystore environment, for running the operations *)

Module KeystoreFixtures.
Import Keystore.

(** A stand-in cipher: it reverses the bytes and appends a tag byte. *)
Definition sealBytes (b : bytes) : bytes := rev b ++ [Byte.xff].

Definition openBytes (c : bytes) : Result bytes :=
  match rev c with
  | Byte.xff :: body => Ok body
  | _ => Fail (MkError "decryption_error" "Decryption failed")
  end.

Definition fixtureCrypto : Crypto :=
  MkCrypto
    (fun data => data)
    Ok
    Ok
    (fun priv hash => Ok (Z.of_nat (length priv), Z.of_nat (length hash)))
    (fun rs => Ok [])
    Ok
    (fun priv hash => Ok hash)
    (fun b => Ok (Some b))
    (fun priv data => Some data)
    (fun key data => Ok data).

(** No database faults; ids count the rows; the key generator returns
    fixed material. *)
Definition keystoreEnv : Env :=
  MkEnv
    (fun b => Ok (sealBytes b))
    openBytes
    (fun _ _ => Ok ([Byte.x01; Byte.x02; Byte.x03], [Byte.x0a; Byte.x0b]))
    (fun db => Ok (Z.of_nat (length (keys db)) + 1))
    (fun _ _ => None)
    (fun _ _ => None)
    (fun _ _ => None)
    (fun _ _ => None)
    (fun _ _ => None)
    1700000000
    (fun _ => Ok "{}")
    (fun _ => Ok None)
    (fun _ _ => Ok None)
    fixtureCrypto.

Definition rowOne : KeyRow :=
  MkKeyRow "1" "main" KeyTypeECDSA CurveNameSecp256k1 "{}" 1700000000
    (sealBytes [Byte.x01; Byte.x02; Byte.x03]) [Byte.x0a; Byte.x0b].

(** The key [Create] returns on the empty database. *)
Definition createdKey : Key :=
  MkKey "1" "k" KeyTypeECDSA None 1700000000 (Some P256)
    (sealBytes [Byte.x01; Byte.x02; Byte.x03]) [Byte.x0a; Byte.x0b].

Definition walletOfOne : WalletInfo := MkWalletInfo "1" "0xaa" "ethereum".

Definition emptyDB : DB := MkDB [] [].

(** One key, and one wallet that refers to it. *)
Definition dbWithWallet : DB := MkDB [rowOne] [walletOfOne].

End KeystoreFixtures.

(** ** Observations of the keystore used in the statements *)

Module KeystoreObs.
Import Keystore.

Section Observations.
Context (env : Env).

(** The [private_key] column of an INSERT is an output of the encryptor. *)
Definition writesCiphertext (e : Effect) : Prop :=
  match e with
  | Executed (InsertKey row) =>
      exists plaintext, Encrypt env plaintext = Ok (col_private_key row)
  | _ => True
  end.

(** The bytes are what one of the signing routines returned. *)
Definition signatureBytes (sig : bytes) : Prop :=
  (exists key hash rs,
      ecdsaSign (crypto env) key hash = Ok rs
      /\ asn1Marshal (crypto env) rs = Ok sig)
  \/ (exists key hash, rsaSignPKCS1v15 (crypto env) key hash = Ok sig)
  \/ (exists key data, ed25519Sign (crypto env) key data = Some sig)
  \/ (exists key data, hmacSHA256 (crypto env) key data = Ok sig).

End Observations.

End KeystoreObs.

(** ** Starting and stopping the history engine
       (internal/services/transaction/history.go) *)

Module Lifecycle.
Import History.

(** [config.Transaction.HistorySynchInterval], in seconds. *)
Record Config : Type := MkConfig { HistorySynchInterval : Z }.

(** The lifecycle fields of [historyService].  A context is known by
    the order in which [context.WithCancel] made it: [contexts] counts
    the contexts made so far and [cancelled] lists those whose cancel
    function has been called. *)
Record lifecycle : Type := MkLifecycle {
  syncCtx : option nat;
  syncCancel : option nat;
  contexts : nat;
  cancelled : list nat
}.

(** The lifecycle fields as [NewHistoryService] leaves them. *)
Definition newLifecycle : lifecycle := MkLifecycle None None 0 [].

(** [time.Duration(interval) * time.Second]: a count of nanoseconds
    in an int64, with Go's wrap-around on overflow. *)
Definition tickerDuration (interval : Z) : Z :=
  to_int64 (to_int64 interval * 1000000000).

(** Log lines, and the scheduler goroutine started with the duration
    it gives to [time.NewTicker], which panics when the duration is
    not positive.  The goroutine reads the field [syncCtx] each time
    round its loop, so it is not tied to a context here. *)
Inductive Effect : Type :=
| Logged (lvl : Level) (msg : string) (fields : list Field)
| Go (duration : Z).

(** [StartTransactionSyncing] starts the background synchronization. *)
Definition StartTransactionSyncing (config : Config) (l : lifecycle)
  : (option Vault0Error * lifecycle) * list Effect :=
  match syncCtx l with
  | Some _ =>
      ((None, l),
       [Logged Info "Transaction history syncing is already active" []])
  | None =>
      let ctx := contexts l in
      let l' := MkLifecycle (Some ctx) (Some ctx) (S ctx) (cancelled l) in
      let interval :=
        if HistorySynchInterval config >? 0 then HistorySynchInterval config
        else 300 in
      ((None, l'),
       [Logged Info "Starting transaction history syncing"
          [FInt "interval_seconds" interval];
        Go (tickerDuration interval)])
  end.

(** [StopTransactionSyncing] stops the synchronization process. *)
Definition StopTransactionSyncing (l : lifecycle)
  : lifecycle * list Effect :=
  match syncCtx l with
  | None => (l, [])
  | Some _ =>
      (MkLifecycle None None (contexts l)
         (match syncCancel l with
          | Some c => c :: cancelled l
          | None => cancelled l
          end),
       [Logged Info "Stopping transaction history syncing" [];
        Logged Info "Transaction history syncing stopped" []])
  end.

(** Calls made on the service by its users, in order. *)
Inductive Command : Type :=
| Start (config : Config)
| Stop.

Definition step (c : Command) (l : lifecycle) : lifecycle * list Effect :=
  match c with
  | Start config =>
      let r := StartTransactionSyncing config l in (snd (fst r), snd r)
  | Stop => StopTransactionSyncing l
  end.

Fixpoint run (cs : list Command) (l : lifecycle) : lifecycle * list Effect :=
  match cs with
  | [] => (l, [])
  | c :: rest =>
      let r1 := step c l in
      let r2 := run rest (fst r1) in
      (fst r2, snd r1 ++ snd r2)
  end.

(** The ticker durations of the goroutines a trace started. *)
Definition goroutines (t : list Effect) : list Z :=
  omap (fun e => match e with Go d => Some d | Logged _ _ _ => None end) t.

(** The largest number of seconds whose nanoseconds fit an int64. *)
Definition maxTickerSeconds : Z := 9223372036.

(** The configured interval of a [Start] is at most
    [maxTickerSeconds]. *)
Definition withinTickerRange (c : Command) : Prop :=
  match c with
  | Start config => HistorySynchInterval config <= maxTickerSeconds
  | Stop => True
  end.

Definition isOpen (cs : list nat) (c : nat) : bool :=
  negb (existsb (Nat.eqb c) cs).

(** The contexts made so far whose cancel function has not been
    called. *)
Definition openContexts (l : lifecycle) : list nat :=
  List.filter (isOpen (cancelled l)) (seq 0 (contexts l)).

Definition current (l : lifecycle) : list nat :=
  match syncCtx l with Some c => [c] | None => [] end.

(** What the lifecycle fields satisfy between calls, [n] being the
    number of goroutines started so far. *)
Definition Consistent (l : lifecycle) (n : nat) : Prop :=
  syncCancel l = syncCtx l
  /\ Forall (fun c => (c < contexts l)%nat) (cancelled l)
  /\ openContexts l = current l
  /\ n = contexts l.

End Lifecycle.

(** ** Further observations of the history engine *)

Module HistoryMoreObs.
Import History.

Section Observations.
Context {R : Type} (env : Env R).

(** The monitored addresses of [s'] are those of [s], each under its
    key and with its address. *)
Definition SameAddresses (s s' : historyService R) : Prop :=
  forall k,
    Address_ <$> (syncAddresses s' !! k) = Address_ <$> (syncAddresses s !! k).

(** The channel of [s'] is that of [s] with events appended, and it
    holds at most 100 events if that of [s] does. *)
Definition ChanExtends (s s' : historyService R) : Prop :=
  (exists events, historyEventsChan s' = historyEventsChan s ++ events)
  /\ ((length (historyEventsChan s) <= 100)%nat ->
      (length (historyEventsChan s') <= 100)%nat).

(** What a request asks for, apart from its start block. *)
Definition requestShape (e : Effect)
  : option (string * string * TransactionType * Z * string) :=
  match e with
  | Request chain address options pageToken =>
      Some (chain, address, OptTransactionType options, Limit options,
            pageToken)
  | Log _ _ _ => None
  end.

(** The two requests of a pass over [address]. *)
Definition passShapes (address : Address)
  : list (string * string * TransactionType * Z * string) :=
  [(ChainType address, ToChecksum env address, TxTypeNormal, 9000, "");
   (ChainType address, ToChecksum env address, TxTypeERC20, 9000, "")].

(** The token of an ERC20 transaction is not recognised: its metadata
    carries no token address, or the token store does not answer with a
    token and no error. *)
Definition unknownToken (t : Transaction) : Prop :=
  match Metadata t !! ERC20TokenAddressMetadataKey env with
  | None => True
  | Some tokenAddress =>
      match GetToken (tokenStore env) tokenAddress with
      | (Some _, None) => False
      | _ => True
      end
  end.

(** The loop body drops the item before it reaches the repository. *)
Definition dropped (txType : TransactionType) (item : Transaction) : Prop :=
  match Apply (transformerService env) item with
  | None => True
  | Some t =>
      (txType = TxTypeERC20 /\ unknownToken t)
      \/ FromCoreTransaction env t = None
  end.

(** A computation that only appends to the channel, within its
    capacity. *)
Definition Extending {A} (m : M R A) : Prop :=
  forall s, ChanExtends s (state_of (m s)).

(** The shapes of the requests of a trace, in order. *)
Definition shapesOf (t : list Effect)
  : list (string * string * TransactionType * Z * string) :=
  omap requestShape t.

(** The requests of a pass over [address]: both, or none when the
    factory has no explorer for the chain of the address. *)
Definition availableShapes (address : Address)
  : list (string * string * TransactionType * Z * string) :=
  match NewExplorer (blockExplorerFactory env) (ChainType address) with
  | Ok _ => passShapes address
  | Fail _ => []
  end.

(** Every write to the repository is refused. *)
Definition WritesFail : Prop :=
  forall r t,
    snd (Create (repositoryOps env) r t) <> None
    /\ snd (Update (repositoryOps env) r t) <> None.

End Observations.

End HistoryMoreObs.

(** ** Further concrete collaborators *)

Module HistoryMoreFixtures.
Import History HistoryFixtures.

(** One ERC20 transfer at block 9 whose metadata names no token. *)
Definition tokenless : answer :=
  fun _ options =>
    match OptTransactionType options with
    | TxTypeNormal => Ok (MkPage [])
    | TxTypeERC20 => Ok (MkPage [tx "0x05" 9])
    end.

(** A context that is cancelled when the second address is reached. *)
Definition cancelledAtOne (i : nat) : option Vault0Error :=
  match i with
  | 1%nat => Some (MkError "" "context canceled")
  | _ => None
  end.

End HistoryMoreFixtures.

(** ** The block explorer factory
       (internal/core/blockexplorer/factory.go) *)

Module ExplorerFactory.

Definition ErrCodeChainNotSupported : string := "chain_not_supported".

(** [errors.NewChainNotSupportedError] (internal/errors/core.go) *)
Definition NewChainNotSupportedError (chain : string) : Vault0Error :=
  MkError ErrCodeChainNotSupported ("Chain not supported: " +:+ chain).

(** The fields of [types.Chain] that the factory reads. *)
Record Chain : Type := MkChain {
  ExplorerAPIUrl : string;
  ExplorerUrl : string;
  ExplorerAPIKey : string
}.

(** An explorer is known by what [NewEtherscanExplorer] was given. *)
Record EtherscanExplorer : Type := NewEtherscanExplorer {
  exChain : Chain;
  exAPIUrl : string;
  exUrl : string;
  exAPIKey : string
}.

(** [factory]: the chain registry and the explorers made so far. *)
Record factory : Type := MkFactory {
  chains : string -> Result Chain;
  explorers : gmap string EtherscanExplorer
}.

(** [NewFactory] creates a new BlockExplorer factory. *)
Definition NewFactory (chains : string -> Result Chain) : factory :=
  MkFactory chains ∅.

(** A call of [NewEtherscanExplorer] for a chain type. *)
Inductive Effect : Type :=
| Built (chainType : string).

Definition builtChain (e : Effect) : string :=
  match e with Built c => c end.

(** The values of [types.ChainTypeEthereum], [types.ChainTypePolygon]
    and [types.ChainTypeBase] (package [types] is not among the
    sources, so they are left open). *)
Record ChainTypes : Type := MkChainTypes {
  ChainTypeEthereum : string;
  ChainTypePolygon : string;
  ChainTypeBase : string
}.

Section Factory.
Context (types : ChainTypes).

(** The chain types of the first case of the switch. *)
Definition evmCompatible (chainType : string) : bool :=
  String.eqb chainType (ChainTypeEthereum types)
  || String.eqb chainType (ChainTypePolygon types)
  || String.eqb chainType (ChainTypeBase types).

(** [NewExplorer] returns a BlockExplorer instance for the chain type. *)
Definition NewExplorer (chainType : string) (f : factory)
  : (Result EtherscanExplorer * factory) * list Effect :=
  match explorers f !! chainType with
  | Some explorer => ((Ok explorer, f), [])
  | None =>
      match chains f chainType with
      | Fail err => ((Fail err, f), [])
      | Ok chain =>
          if evmCompatible chainType then
            let explorer :=
              NewEtherscanExplorer chain (ExplorerAPIUrl chain)
                (ExplorerUrl chain) (ExplorerAPIKey chain) in
            ((Ok explorer,
              MkFactory (chains f) (<[chainType := explorer]> (explorers f))),
             [Built chainType])
          else ((Fail (NewChainNotSupportedError chainType), f), [])
      end
  end.

(** The factory and the explorers built after asking for each chain
    type of a list in turn. *)
Fixpoint requestAll (chainTypes : list string) (f : factory)
  : factory * list Effect :=
  match chainTypes with
  | [] => (f, [])
  | c :: rest =>
      let r1 := NewExplorer c f in
      let r2 := requestAll rest (snd (fst r1)) in
      (fst r2, snd r1 ++ snd r2)
  end.

(** What a factory that has made no explorer yet answers. *)
Definition firstAnswer (chains : string -> Result Chain) (chainType : string)
  : Result EtherscanExplorer :=
  fst (fst (NewExplorer chainType (NewFactory chains))).

(** Every explorer kept is the one a first request would make. *)
Definition Coherent (f : factory) : Prop :=
  forall c e, explorers f !! c = Some e -> firstAnswer (chains f) c = Ok e.

End Factory.

End ExplorerFactory.

(** ** The helpers of the curve's interoperability tests
       (internal/core/crypto, secp256k1 tests) *)

Module Secp256k1Helpers.
Import Secp256k1.

(** [badSecp256k1Curve.addUnsafe]: the second point is replaced by
    (x1, y1 + 1) and the chord formula is applied without any check;
    [None] is the panic on the nil inverse. *)
Definition addUnsafe (x1 y1 x2 y2 : Z) : option (Z * Z) :=
  let x2 := x1 in
  let y2 := y1 + 1 in
  addFormula x1 y1 x2 y2.

(** [badSecp256k1Curve.doubleUnsafe]: y1 is replaced by 0 and the
    tangent formula is applied without any check. *)
Definition doubleUnsafe (x1 y1 : Z) : option (Z * Z) :=
  let y1 := 0 in
  doubleFormula x1 y1.

(** [padTo32Bytes] ensures that a byte slice is exactly 32 bytes. *)
Definition padTo32Bytes (input : list Byte.byte) : list Byte.byte :=
  if (length input =? 32)%nat then input
  else if (32 <? length input)%nat then take 32 input
  else replicate (32 - length input) Byte.x00 ++ input.

(** [big.Int.SetBytes]: the unsigned big-endian value of the bytes. *)
Definition SetBytes (buf : list Byte.byte) : Z :=
  fold_left (fun acc b => acc * 256 + Z.of_N (Byte.to_N b)) buf 0.

(** [normalizeS], for the curve order [N] ([Secp256k1Curve.N]). *)
Definition normalizeS (N s : Z) : Z :=
  let halfN := Z.shiftr N 1 in
  if s >? halfN then N - s else s.

(** [calculateRecoveryID], from the Y coordinate of the public key. *)
Definition calculateRecoveryID (Y : Z) : Z :=
  if Z.testbit Y 0 then 1 else 0.

End Secp256k1Helpers.

(** ** The events a sub-fetch publishes *)

Module HistoryEventsObs.
Import History HistoryObs.

(** A computation that appends to the channel events for some of the
    transactions [candidates], in their order, and nothing else. *)
Definition EmitsWithin {R A} (candidates : list Transaction) (m : M R A)
  : Prop :=
  forall s, exists events,
    historyEventsChan (state_of (m s)) = historyEventsChan s ++ events
    /\ (EvTransaction <$> events) `sublist_of` candidates.

Section Observations.
Context {R : Type} (env : Env R).

(** What the transformer makes of an item, if it keeps it. *)
Definition transformed (item : Transaction) : list Transaction :=
  match Apply (transformerService env) item with
  | Some t => [t]
  | None => []
  end.

(** The transactions a sub-fetch can publish: the transformed items
    of the page it was given, in page order. *)
Definition publishable (address : Address) (txType : TransactionType)
           (s : historyService R) : list Transaction :=
  match fetched env address txType s with
  | Some (Ok page) => flat_map transformed (Items page)
  | _ => []
  end.

End Observations.

End HistoryEventsObs.

(** ** Further keystore inputs *)

Module KeystoreMoreFixtures.
Import Keystore KeystoreFixtures.

(** An RSA row, and a row whose curve column names a curve that
    [curveByName] does not know. *)
Definition rowRSA : KeyRow :=
  MkKeyRow "2" "rsa" KeyTypeRSA "" "{}" 1700000000
    (sealBytes [Byte.x04; Byte.x05]) [Byte.x0c].

Definition rowP384 : KeyRow :=
  MkKeyRow "3" "other" KeyTypeECDSA "P-384" "{}" 1700000000
    (sealBytes [Byte.x06]) [Byte.x0d].

Definition dbTwo : DB := MkDB [rowOne; rowRSA] [].

Definition dbThree : DB := MkDB [rowOne; rowRSA; rowP384] [].

(** The token given to [List], decoded as the source does. *)
Definition decodeToken (env : Env) (nextToken : string)
  : Result (option NextPageToken) :=
  if String.eqb nextToken "" then Ok None
  else DecodeNextPageToken env nextToken "id".

(** The limit [List] works with. *)
Definition effectiveLimit (limit : Z) : Z := if limit <=? 0 then 50 else limit.

(** The row [UPDATE keys SET name = ?, tags = ?] leaves. *)
Definition renamed (name tags : string) (r : KeyRow) : KeyRow :=
  MkKeyRow (col_id r) name (col_key_type r) (col_curve r) tags
    (col_created_at r) (col_private_key r) (col_public_key r).

(** The message a non-ECDSA key signs for a raw input: Ed25519 and
    HMAC keys sign the input itself, the others its SHA-256 digest. *)
Definition signedMessage (env : Env) (keyType : string) (data : bytes)
  : bytes :=
  if String.eqb keyType KeyTypeEd25519 || String.eqb keyType KeyTypeSymmetric
  then data else sha256Sum (crypto env) data.

End KeystoreMoreFixtures.

(** * Properties *)

(** ** The history engine *)

Module HistoryFacts.
Import History HistoryObs.

Section Frames.
Context {R : Type} (env : Env R).

Lemma state_of_bind {A B} (m : M R A) (k : A -> M R B) s :
  state_of (bind m k s) = state_of (k (value_of (m s)) (state_of (m s))).
Proof. reflexivity. Qed.

Lemma value_of_bind {A B} (m : M R A) (k : A -> M R B) s :
  value_of (bind m k s) = value_of (k (value_of (m s)) (state_of (m s))).
Proof. reflexivity. Qed.

Lemma trace_of_bind {A B} (m : M R A) (k : A -> M R B) s :
  trace_of (bind m k s)
  = trace_of (m s) ++ trace_of (k (value_of (m s)) (state_of (m s))).
Proof. reflexivity. Qed.

Lemma preserves_ret {A X} (f : historyService R -> X) (a : A) :
  Preserves f (ret a).
Proof. intros s. reflexivity. Qed.

Lemma preserves_bind {A B X} (f : historyService R -> X)
      (m : M R A) (k : A -> M R B) :
  Preserves f m -> (forall a, Preserves f (k a)) -> Preserves f (bind m k).
Proof.
  intros Hm Hk s. rewrite state_of_bind, Hk. apply Hm.
Qed.

Lemma preserves_emitLog {X} (f : historyService R -> X) lvl msg fields :
  Preserves f (emitLog lvl msg fields).
Proof. intros s. reflexivity. Qed.

Lemma preserves_forEach {A X} (f : historyService R -> X)
      (l : list A) (body : A -> M R unit) :
  (forall x, Preserves f (body x)) -> Preserves f (forEach l body).
Proof.
  intros Hb. induction l as [|x l IH]; simpl.
  - apply preserves_ret.
  - apply preserves_bind; auto.
Qed.

Lemma preserves_publish_sync ev : Preserves (@syncAddresses R) (publish ev).
Proof.
  intros s. unfold publish, state_of.
  destruct (_ <? _)%nat; reflexivity.
Qed.

Lemma preserves_publish_repo ev :
  Preserves (@repository R) (publish ev).
Proof.
  intros s. unfold publish, state_of.
  destruct (_ <? _)%nat; reflexivity.
Qed.

Lemma preserves_isValid {X} (f : historyService R -> X) t :
  Preserves f (isValidERC20Token env t).
Proof.
  unfold isValidERC20Token.
  destruct (Metadata t !! _) as [tok|].
  - destruct (GetToken _ tok) as [[token|] [e|]];
      repeat (apply preserves_bind; [|intros ?]);
      try apply preserves_ret; try apply preserves_emitLog;
      destruct (IsError env e _); apply preserves_emitLog.
  - apply preserves_bind; [apply preserves_emitLog|intros; apply preserves_ret].
Qed.

Lemma preserves_upsert_sync t st ex :
  Preserves (@syncAddresses R) (upsertAndEmit env t st ex).
Proof.
  unfold upsertAndEmit. destruct ex as [e|].
  - apply preserves_bind; [intros s; reflexivity|].
    intros [err|]; [apply preserves_emitLog|].
    apply preserves_bind; [apply preserves_emitLog|].
    intros _. apply preserves_publish_sync.
  - apply preserves_bind; [intros s; reflexivity|].
    intros [err|]; [apply preserves_emitLog|].
    apply preserves_bind; [apply preserves_emitLog|].
    intros _. apply preserves_publish_sync.
Qed.

(** The loop body never touches the map of monitored addresses. *)
Lemma preserves_processItem_sync ty item :
  Preserves (@syncAddresses R) (processItem env ty item).
Proof.
  unfold processItem.
  destruct (Apply _ item) as [t|]; [|apply preserves_emitLog].
  apply preserves_bind.
  - destruct (isERC20 ty); [apply preserves_isValid|apply preserves_ret].
  - intros valid. destruct (negb valid); [apply preserves_ret|].
    destruct (FromCoreTransaction env t) as [st|]; [|apply preserves_emitLog].
    apply preserves_bind; [intros s; reflexivity|].
    intros found. destruct (lookupFailed env _); [apply preserves_emitLog|].
    apply preserves_upsert_sync.
Qed.

Lemma preserves_items_sync ty items :
  Preserves (@syncAddresses R) (forEach items (processItem env ty)).
Proof. apply preserves_forEach. intros x. apply preserves_processItem_sync. Qed.

(** *** One sub-fetch, case by case *)

Lemma getStartBlock_state a s : state_of (getStartBlock env a s) = s.
Proof.
  unfold getStartBlock, state_of.
  destruct (syncAddresses s !! _); reflexivity.
Qed.

Lemma getStartBlock_value a s info :
  syncAddresses s !! deriveAddressKey env a = Some info ->
  value_of (getStartBlock env a s) = StartBlock_ info.
Proof.
  intros H. unfold getStartBlock, value_of. rewrite H. reflexivity.
Qed.

Lemma byType_no_explorer a ty s e :
  NewExplorer (blockExplorerFactory env) (ChainType a) = Fail e ->
  syncTransactionsForAddressByType env a ty s
  = ((Some (NewOperationFailedError "get explorer" e), s),
     [Log Error "Failed to get explorer for chain"
        [FString "chain" (ChainType a); FError e]]).
Proof.
  intros H. unfold syncTransactionsForAddressByType. rewrite H. reflexivity.
Qed.

Lemma fetched_explorer a ty s r :
  fetched env a ty s = Some r ->
  exists explorer,
    NewExplorer (blockExplorerFactory env) (ChainType a) = Ok explorer
    /\ GetTransactionHistory explorer (ToChecksum env a)
         (optionsFor env a ty s) "" = r.
Proof.
  unfold fetched.
  destruct (NewExplorer _ _) as [ex|e]; [|discriminate].
  intros [= <-]. eauto.
Qed.

(** The sub-fetch written out along the explorer's answer. *)
Lemma byType_unfold a ty s ex :
  NewExplorer (blockExplorerFactory env) (ChainType a) = Ok ex ->
  syncTransactionsForAddressByType env a ty s
  = let opts := optionsFor env a ty s in
    let pre :=
      trace_of (getStartBlock env a s)
      ++ [Log Info "Fetching transaction history"
            [FString "address" (AddressString env a);
             FString "chain" (ChainType a);
             FString "tx_type" (txTypeString ty);
             FInt64 "start_block" (StartBlock opts)];
          Request (ChainType a) (ToChecksum env a) opts ""] in
    match GetTransactionHistory ex (ToChecksum env a) opts "" with
    | Fail e =>
        ((Some (NewOperationFailedError "get transaction history" e), s),
         pre ++ [Log Error "Failed to get transaction history"
                   [FString "address" (AddressString env a);
                    FString "tx_type" (txTypeString ty); FError e]])
    | Ok page =>
        match Items page with
        | [] =>
            ((None, s),
             pre ++ [Log Info "No transactions found for address"
                       [FString "address" (AddressString env a);
                        FString "tx_type" (txTypeString ty)]])
        | first :: others =>
            let r := forEach (Items page) (processItem env ty) s in
            let r2 :=
              setStartBlock env a (BlockNumber (List.last others first) + 1)
                (state_of r) in
            ((None, state_of r2),
             pre ++ [Log Info "Found transactions for address"
                       [FString "address" (AddressString env a);
                        FString "tx_type" (txTypeString ty);
                        FInt "count" (Z.of_nat (length (Items page)))]]
                 ++ trace_of r ++ trace_of r2)
        end
    end.
Proof.
  intros Hex. unfold syncTransactionsForAddressByType. rewrite Hex.
  unfold optionsFor, bind, fetch, emitLog, ret, state_of, value_of, trace_of.
  unfold getStartBlock.
  destruct (syncAddresses s !! deriveAddressKey env a) as [info|];
    cbn [fst snd];
    (destruct (GetTransactionHistory ex _ _ _) as [page|e]; cbn [fst snd];
     [destruct (Items page) as [|first others]; cbn [fst snd]|]);
    rewrite <- ?app_assoc, ?app_nil_r; reflexivity.
Qed.

Lemma setStartBlock_sync a b s :
  syncAddresses (state_of (setStartBlock env a b s))
  = advance env a b (syncAddresses s).
Proof.
  unfold setStartBlock, advance, state_of.
  destruct (syncAddresses s !! deriveAddressKey env a); reflexivity.
Qed.

Lemma setStartBlock_repo a b s :
  repository (state_of (setStartBlock env a b s)) = repository s.
Proof.
  unfold setStartBlock, state_of.
  destruct (syncAddresses s !! deriveAddressKey env a); reflexivity.
Qed.

Lemma setStartBlock_chan a b s :
  historyEventsChan (state_of (setStartBlock env a b s)) = historyEventsChan s.
Proof.
  unfold setStartBlock, state_of.
  destruct (syncAddresses s !! deriveAddressKey env a); reflexivity.
Qed.

(** A sub-fetch never returns an error to its caller unless the
    explorer could not be obtained or the request failed, and then it
    leaves the state as it found it. *)
Lemma byType_failure a ty s :
  (fetched env a ty s = None \/ exists e, fetched env a ty s = Some (Fail e)) ->
  state_of (syncTransactionsForAddressByType env a ty s) = s
  /\ exists err,
      value_of (syncTransactionsForAddressByType env a ty s) = Some err
      /\ Code err = ErrCodeOperationFailed.
Proof.
  unfold fetched.
  destruct (NewExplorer _ _) as [ex|e0] eqn:Hex.
  - intros [H|[e H]]; [discriminate|]. injection H as H.
    rewrite (byType_unfold _ _ _ _ Hex). cbv zeta. rewrite H.
    split; [reflexivity|]. eexists. split; reflexivity.
  - intros _. rewrite (byType_no_explorer _ _ _ _ Hex).
    split; [reflexivity|]. eexists. split; reflexivity.
Qed.

(** The map of monitored addresses after a sub-fetch depends on the
    explorer's answer only. *)
Lemma byType_sync a ty s :
  syncAddresses (state_of (syncTransactionsForAddressByType env a ty s))
  = syncAfter env a ty s.
Proof.
  unfold syncAfter, fetched.
  destruct (NewExplorer _ _) as [ex|e0] eqn:Hex.
  - rewrite (byType_unfold _ _ _ _ Hex). cbv zeta.
    destruct (GetTransactionHistory _ _ _ _) as [page|e]; [|reflexivity].
    destruct (Items page) as [|first others]; [reflexivity|].
    unfold state_of at 1. cbn [fst snd].
    rewrite setStartBlock_sync. f_equal. apply preserves_items_sync.
  - rewrite (byType_no_explorer _ _ _ _ Hex). reflexivity.
Qed.

(** *** Requests sent to the explorer *)

Lemma requestsOf_app t1 t2 :
  requestsOf (t1 ++ t2) = requestsOf t1 ++ requestsOf t2.
Proof. apply List.filter_app. Qed.

Lemma norequest_ret {A} (a : A) : NoRequest (R:=R) (ret a).
Proof. intros s. reflexivity. Qed.

Lemma norequest_bind {A B} (m : M R A) (k : A -> M R B) :
  NoRequest m -> (forall a, NoRequest (k a)) -> NoRequest (bind m k).
Proof.
  intros Hm Hk s. rewrite trace_of_bind, requestsOf_app, Hm, Hk. reflexivity.
Qed.

Lemma norequest_emitLog lvl msg fields :
  NoRequest (R:=R) (emitLog lvl msg fields).
Proof. intros s. reflexivity. Qed.

Lemma norequest_forEach {A} (l : list A) (body : A -> M R unit) :
  (forall x, NoRequest (body x)) -> NoRequest (forEach l body).
Proof.
  intros Hb. induction l as [|x l IH]; simpl.
  - apply norequest_ret.
  - apply norequest_bind; auto.
Qed.

Lemma norequest_publish ev : NoRequest (R:=R) (publish ev).
Proof. intros s. unfold publish. destruct (_ <? _)%nat; reflexivity. Qed.

Lemma norequest_isValid t : NoRequest (isValidERC20Token env t).
Proof.
  unfold isValidERC20Token.
  destruct (Metadata t !! _) as [tok|].
  - destruct (GetToken _ tok) as [[token|] [e|]];
      repeat (apply norequest_bind; [|intros ?]);
      try apply norequest_ret; try apply norequest_emitLog;
      destruct (IsError env e _); apply norequest_emitLog.
  - apply norequest_bind; [apply norequest_emitLog|intros; apply norequest_ret].
Qed.

Lemma norequest_upsert t st ex : NoRequest (upsertAndEmit env t st ex).
Proof.
  unfold upsertAndEmit. destruct ex as [e|];
    (apply norequest_bind; [intros s; reflexivity|];
     intros [err|]; [apply norequest_emitLog|];
     apply norequest_bind; [apply norequest_emitLog|];
     intros _; apply norequest_publish).
Qed.

Lemma norequest_processItem ty item : NoRequest (processItem env ty item).
Proof.
  unfold processItem.
  destruct (Apply _ item) as [t|]; [|apply norequest_emitLog].
  apply norequest_bind.
  - destruct (isERC20 ty); [apply norequest_isValid|apply norequest_ret].
  - intros valid. destruct (negb valid); [apply norequest_ret|].
    destruct (FromCoreTransaction env t) as [st|]; [|apply norequest_emitLog].
    apply norequest_bind; [intros s; reflexivity|].
    intros found. destruct (lookupFailed env _); [apply norequest_emitLog|].
    apply norequest_upsert.
Qed.

Lemma norequest_getStartBlock a : NoRequest (getStartBlock env a).
Proof.
  intros s. unfold getStartBlock.
  destruct (syncAddresses s !! _); reflexivity.
Qed.

Lemma norequest_setStartBlock a b : NoRequest (setStartBlock env a b).
Proof.
  intros s. unfold setStartBlock.
  destruct (syncAddresses s !! _); reflexivity.
Qed.

(** With an explorer at hand, a sub-fetch sends exactly one request,
    built from the watermark it read. *)
Lemma byType_requests a ty s ex :
  NewExplorer (blockExplorerFactory env) (ChainType a) = Ok ex ->
  requestsOf (trace_of (syncTransactionsForAddressByType env a ty s))
  = [Request (ChainType a) (ToChecksum env a) (optionsFor env a ty s) ""].
Proof.
  intros Hex. rewrite (byType_unfold _ _ _ _ Hex). cbv zeta.
  destruct (GetTransactionHistory _ _ _ _) as [page|e].
  - destruct (Items page) as [|first others];
      unfold trace_of at 1; cbn [snd];
      rewrite !requestsOf_app, norequest_getStartBlock;
      try rewrite (norequest_forEach _ _ (norequest_processItem ty));
      try rewrite norequest_setStartBlock; reflexivity.
  - unfold trace_of at 1; cbn [snd].
    rewrite !requestsOf_app, norequest_getStartBlock. reflexivity.
Qed.

(** *** One pass over an address *)

Lemma pass_state a s :
  state_of (syncTransactionsForAddress env a s)
  = state_of (syncTransactionsForAddressByType env a TxTypeERC20
                (state_of (syncTransactionsForAddressByType env a TxTypeNormal s))).
Proof.
  unfold syncTransactionsForAddress.
  rewrite !state_of_bind.
  destruct (value_of (syncTransactionsForAddressByType env a TxTypeNormal s));
    cbn [emitLog ret state_of value_of fst snd];
    match goal with
    | |- context [value_of ?r] => destruct (value_of r)
    end; reflexivity.
Qed.

Lemma pass_value a s : value_of (syncTransactionsForAddress env a s) = None.
Proof. reflexivity. Qed.

Lemma pass_requests a s :
  requestsOf (trace_of (syncTransactionsForAddress env a s))
  = requestsOf (trace_of (syncTransactionsForAddressByType env a TxTypeNormal s))
    ++ requestsOf
         (trace_of
            (syncTransactionsForAddressByType env a TxTypeERC20
               (state_of (syncTransactionsForAddressByType env a TxTypeNormal s)))).
Proof.
  unfold syncTransactionsForAddress.
  rewrite !trace_of_bind, !requestsOf_app.
  destruct (value_of (syncTransactionsForAddressByType env a TxTypeNormal s));
    cbn [emitLog ret state_of value_of trace_of fst snd];
    match goal with
    | |- context [value_of ?r] => destruct (value_of r)
    end; cbn [requestsOf List.filter isRequest]; rewrite ?app_nil_r; reflexivity.
Qed.

End Frames.

(** *** MonitorAddress *)

(** C10.  Calling [MonitorAddress] for an address whose key is already
    in the map returns nil, leaves the whole engine state as it was (so
    the stored start block is kept and the argument is ignored) and
    logs nothing. *)
Theorem MonitorAddress_already_monitored :
  forall (R : Type) (env : Env R) (s : historyService R)
         (address : Address) (startBlockNumber : Z) (info : addressSyncInfo),
    syncAddresses s !! deriveAddressKey env address = Some info ->
    MonitorAddress env address startBlockNumber s = ((None, s), [])
    /\ syncAddresses
         (state_of (MonitorAddress env address startBlockNumber s))
       !! deriveAddressKey env address = Some info.
Proof.
  intros R env s address b info H.
  unfold MonitorAddress. rewrite H. split; [reflexivity|exact H].
Qed.

Lemma MonitorAddress_already_monitored_witness :
  MonitorAddress (HistoryFixtures.fixtureEnv HistoryFixtures.oneAtSeven false)
    HistoryFixtures.addrA 500
    (HistoryFixtures.monitoring
       [(HistoryFixtures.keyA, MkSyncInfo HistoryFixtures.addrA 100)])
  = ((None,
      HistoryFixtures.monitoring
        [(HistoryFixtures.keyA, MkSyncInfo HistoryFixtures.addrA 100)]), [])
  /\ syncAddresses
       (state_of
          (MonitorAddress
             (HistoryFixtures.fixtureEnv HistoryFixtures.oneAtSeven false)
             HistoryFixtures.addrA 500
             (HistoryFixtures.monitoring
                [(HistoryFixtures.keyA, MkSyncInfo HistoryFixtures.addrA 100)])))
     !! deriveAddressKey
          (HistoryFixtures.fixtureEnv HistoryFixtures.oneAtSeven false)
          HistoryFixtures.addrA
     = Some (MkSyncInfo HistoryFixtures.addrA 100).
Proof.
  apply (MonitorAddress_already_monitored _
           (HistoryFixtures.fixtureEnv HistoryFixtures.oneAtSeven false)).
  vm_compute. reflexivity.
Defined.

(** *** The watermark after a sub-fetch *)

(** C1 (as amended).  For a monitored address, a sub-fetch that got a
    non-empty page sets the watermark to the block number of the last
    returned transaction plus one, and does so on the state the whole
    loop over the batch has left, whatever the repository answered for
    each transaction; a sub-fetch that got no explorer, a failed request
    or an empty page leaves the map of monitored addresses unchanged. *)
Theorem subfetch_watermark :
  forall (R : Type) (env : Env R) (s : historyService R)
         (address : Address) (txType : TransactionType)
         (info : addressSyncInfo),
    syncAddresses s !! deriveAddressKey env address = Some info ->
    (forall page first others,
        fetched env address txType s = Some (Ok page) ->
        Items page = first :: others ->
        state_of (syncTransactionsForAddressByType env address txType s)
        = state_of
            (setStartBlock env address (BlockNumber (List.last others first) + 1)
               (state_of (forEach (Items page) (processItem env txType) s)))
        /\ syncAddresses
             (state_of (syncTransactionsForAddressByType env address txType s))
           = <[deriveAddressKey env address :=
                 MkSyncInfo (Address_ info)
                   (BlockNumber (List.last others first) + 1)]>
               (syncAddresses s))
    /\ ((fetched env address txType s = None
         \/ (exists e, fetched env address txType s = Some (Fail e))
         \/ (exists page, fetched env address txType s = Some (Ok page)
                          /\ Items page = [])) ->
        syncAddresses
          (state_of (syncTransactionsForAddressByType env address txType s))
        = syncAddresses s).
Proof.
  intros R env s a ty info Hmon. split.
  - intros page first others Hf Hitems. split.
    + apply fetched_explorer in Hf as (ex & Hex & Hget).
      rewrite (byType_unfold _ _ _ _ _ Hex). cbv zeta.
      rewrite Hget, Hitems. reflexivity.
    + rewrite byType_sync. unfold syncAfter. rewrite Hf, Hitems.
      unfold advance. rewrite Hmon. reflexivity.
  - intros H. rewrite byType_sync. unfold syncAfter.
    destruct H as [H|[[e H]|[page [H Hitems]]]]; rewrite H; try reflexivity.
    rewrite Hitems. reflexivity.
Qed.

Import HistoryFixtures.

Lemma subfetch_watermark_witness :
  syncAddresses
    (state_of
       (syncTransactionsForAddressByType (fixtureEnv oneAtSeven false) addrA
          TxTypeNormal (monitoring [(keyA, MkSyncInfo addrA 0)])))
  = <[deriveAddressKey (fixtureEnv oneAtSeven false) addrA :=
        MkSyncInfo addrA 8]>
      (syncAddresses (monitoring [(keyA, MkSyncInfo addrA 0)])).
Proof.
  apply (proj1 (subfetch_watermark _ (fixtureEnv oneAtSeven false)
                  (monitoring [(keyA, MkSyncInfo addrA 0)]) addrA TxTypeNormal
                  (MkSyncInfo addrA 0) eq_refl)
           (MkPage [tx "0x01" 7]) (tx "0x01" 7) [] eq_refl eq_refl).
Defined.

(** C1 (as stated) fails: the repository rejects the only returned
    transaction, nothing is stored, and the watermark still moves from
    0 to 8. *)
Lemma watermark_advances_without_persistence :
  let env := fixtureEnv oneAtSeven true in
  let s := monitoring [(keyA, MkSyncInfo addrA 0)] in
  let r := syncTransactionsForAddressByType env addrA TxTypeNormal s in
  In (Log Error "Failed to create transaction"
        [FString "tx_hash" "0x01"; FError writeError]) (trace_of r)
  /\ repository (state_of r) = ∅
  /\ watermark env s addrA = Some 0
  /\ watermark env (state_of r) addrA = Some 8.
Proof.
  vm_compute. repeat split; auto 10.
Qed.

(** *** One watermark for both transaction types *)

(** C7.  One pass over a monitored address runs the normal sub-fetch,
    then the ERC20 sub-fetch on the state the first one left.  The two
    requests sent to the explorer carry, in this order, the watermark
    stored at the start and the watermark stored after the normal
    sub-fetch; when the normal sub-fetch got transactions that second
    value is its last block plus one, and when the ERC20 sub-fetch got
    transactions the stored watermark is overwritten with its last block
    plus one. *)
Theorem shared_watermark :
  forall (R : Type) (env : Env R) (s : historyService R)
         (address : Address) (info : addressSyncInfo) (explorer : BlockExplorer),
    syncAddresses s !! deriveAddressKey env address = Some info ->
    NewExplorer (blockExplorerFactory env) (ChainType address) = Ok explorer ->
    let s1 :=
      state_of (syncTransactionsForAddressByType env address TxTypeNormal s) in
    let s2 := state_of (syncTransactionsForAddress env address s) in
    exists w1,
      watermark env s1 address = Some w1
      /\ s2 = state_of (syncTransactionsForAddressByType env address TxTypeERC20 s1)
      /\ requestsOf (trace_of (syncTransactionsForAddress env address s))
         = [Request (ChainType address) (ToChecksum env address)
              (MkOptions TxTypeNormal (Int64 (StartBlock_ info)) 9000) "";
            Request (ChainType address) (ToChecksum env address)
              (MkOptions TxTypeERC20 (Int64 w1) 9000) ""]
      /\ (forall page first others,
            fetched env address TxTypeNormal s = Some (Ok page) ->
            Items page = first :: others ->
            w1 = BlockNumber (List.last others first) + 1)
      /\ (forall page first others,
            fetched env address TxTypeERC20 s1 = Some (Ok page) ->
            Items page = first :: others ->
            watermark env s2 address
            = Some (BlockNumber (List.last others first) + 1)).
Proof.
  intros R env s a info ex Hmon Hex s1 s2.
  assert (Hs1 : syncAddresses s1 = syncAfter env a TxTypeNormal s)
    by apply byType_sync.
  assert (Hmon1 : exists info1,
             syncAddresses s1 !! deriveAddressKey env a = Some info1).
  { rewrite Hs1. unfold syncAfter.
    destruct (fetched env a TxTypeNormal s) as [[page|e]|]; eauto.
    destruct (Items page) as [|first others]; eauto.
    unfold advance. rewrite Hmon, lookup_insert_eq. eauto. }
  destruct Hmon1 as [info1 Hmon1].
  exists (StartBlock_ info1). repeat split.
  - unfold watermark. rewrite Hmon1. reflexivity.
  - apply pass_state.
  - rewrite pass_requests, !(byType_requests _ _ _ _ _ Hex).
    unfold optionsFor.
    rewrite (getStartBlock_value _ _ _ _ Hmon).
    fold s1. rewrite (getStartBlock_value _ _ _ _ Hmon1). reflexivity.
  - intros page first others Hf Hitems.
    rewrite Hs1 in Hmon1. unfold syncAfter in Hmon1.
    rewrite Hf, Hitems in Hmon1. unfold advance in Hmon1.
    rewrite Hmon, lookup_insert_eq in Hmon1. injection Hmon1 as <-.
    reflexivity.
  - intros page first others Hf Hitems.
    unfold watermark, s2. rewrite pass_state. fold s1.
    rewrite byType_sync. unfold syncAfter. rewrite Hf, Hitems.
    unfold advance. rewrite Hmon1, lookup_insert_eq. reflexivity.
Qed.

Lemma shared_watermark_witness :
  let env := fixtureEnv normalThenToken false in
  let s := monitoring [(keyA, MkSyncInfo addrA 100)] in
  watermark env
    (state_of (syncTransactionsForAddressByType env addrA TxTypeNormal s))
    addrA = Some 104
  /\ requestsOf (trace_of (syncTransactionsForAddress env addrA s))
     = [Request "ethereum" "0xaa" (MkOptions TxTypeNormal (Int64 100) 9000) "";
        Request "ethereum" "0xaa" (MkOptions TxTypeERC20 (Int64 104) 9000) ""]
  /\ watermark env (state_of (syncTransactionsForAddress env addrA s)) addrA
     = Some 103.
Proof.
  cbv zeta.
  destruct (shared_watermark _ (fixtureEnv normalThenToken false)
              (monitoring [(keyA, MkSyncInfo addrA 100)]) addrA
              (MkSyncInfo addrA 100)
              (MkExplorer (fun address options _ => normalThenToken address options))
              eq_refl eq_refl)
    as (w1 & H1 & _ & H3 & H4 & H5).
  assert (Hw : w1 = 104).
  { apply (H4 (MkPage [tx "0x01" 101; tx "0x02" 102; tx "0x03" 103])
              (tx "0x01" 101) [tx "0x02" 102; tx "0x03" 103]);
      reflexivity. }
  subst w1. split; [exact H1|]. split; [exact H3|].
  apply (H5 (MkPage [MkTransaction "0x04" 102
                       {["erc20_token_address" := "0xtoken"]}])
            (MkTransaction "0x04" 102 {["erc20_token_address" := "0xtoken"]})
            []); reflexivity.
Defined.

(** *** Monotonicity of the watermark *)

Lemma Int64_small w : 0 <= w < 2 ^ 63 -> Int64 w = w.
Proof.
  intros Hw. unfold Int64, to_int64.
  destruct (Z.ltb_spec w 0) as [Hneg|_]; [lia|].
  rewrite Z.abs_eq by lia.
  rewrite Z.mod_small; lia.
Qed.

Section Monotone.
Context {R : Type} (env : Env R).
Hypothesis Hhonours : ExplorerHonoursStart env.

Lemma Grows_refl (s : historyService R) : Grows s s.
Proof. intros k info H. exists info. repeat split; [exact H|lia]. Qed.

Lemma Grows_trans (s1 s2 s3 : historyService R) :
  Grows s1 s2 -> Grows s2 s3 -> Grows s1 s3.
Proof.
  intros H12 H23 k info H.
  destruct (H12 _ _ H) as (i2 & H2 & Ha2 & Hb2).
  destruct (H23 _ _ H2) as (i3 & H3 & Ha3 & Hb3).
  exists i3. repeat split; [exact H3|congruence|lia].
Qed.

(** What a non-empty page does to the watermark it was fetched from. *)
Lemma honoured_last a ty s info page first others :
  WatermarksInRange s ->
  syncAddresses s !! deriveAddressKey env a = Some info ->
  fetched env a ty s = Some (Ok page) ->
  Items page = first :: others ->
  StartBlock_ info <= BlockNumber (List.last others first) < 2 ^ 63 - 1.
Proof.
  intros Hr Hmon Hf Hitems.
  apply fetched_explorer in Hf as (ex & Hex & Hget).
  pose proof (Hhonours _ _ _ _ _ _ _ Hex Hget Hitems) as H.
  unfold optionsFor in H. cbn [StartBlock] in H.
  rewrite (getStartBlock_value _ _ _ _ Hmon) in H.
  rewrite Int64_small in H by (eapply Hr; eauto). exact H.
Qed.

Lemma byType_grows a ty s :
  WatermarksInRange s ->
  WatermarksInRange (state_of (syncTransactionsForAddressByType env a ty s))
  /\ Grows s (state_of (syncTransactionsForAddressByType env a ty s)).
Proof.
  intros Hr. unfold WatermarksInRange, Grows.
  rewrite byType_sync. unfold syncAfter.
  destruct (fetched env a ty s) as [[page|e]|] eqn:Hf;
    try (split; [exact Hr|apply Grows_refl]).
  destruct (Items page) as [|first others] eqn:Hitems;
    try (split; [exact Hr|apply Grows_refl]).
  unfold advance.
  destruct (syncAddresses s !! deriveAddressKey env a) as [info0|] eqn:Hmon;
    try (split; [exact Hr|apply Grows_refl]).
  pose proof (honoured_last _ _ _ _ _ _ _ Hr Hmon Hf Hitems) as Hb.
  pose proof (Hr _ _ Hmon) as Hw0.
  split.
  - intros k info. rewrite lookup_insert.
    destruct (decide (deriveAddressKey env a = k)) as [Heq|Hne].
    + intros [= <-]. cbn. lia.
    + apply Hr.
  - intros k info Hk. rewrite lookup_insert.
    destruct (decide (deriveAddressKey env a = k)) as [Heq|Hne].
    + eexists. split; [reflexivity|]. cbn. subst k.
      rewrite Hmon in Hk. injection Hk as <-. split; [reflexivity|lia].
    + exists info. repeat split; [exact Hk|lia].
Qed.

Lemma pass_grows a s :
  WatermarksInRange s ->
  WatermarksInRange (passState env s a) /\ Grows s (passState env s a).
Proof.
  intros Hr. unfold passState. rewrite pass_state.
  destruct (byType_grows a TxTypeNormal s Hr) as [Hr1 Hg1].
  destruct (byType_grows a TxTypeERC20 _ Hr1) as [Hr2 Hg2].
  split; [exact Hr2|]. eapply Grows_trans; eauto.
Qed.

Lemma syncLoop_grows ctxErr l : forall i s,
  WatermarksInRange s ->
  Grows s (state_of (syncLoop env ctxErr i l s)).
Proof.
  induction l as [|a l IH]; intros i s Hr; cbn [syncLoop].
  - apply Grows_refl.
  - destruct (ctxErr i); [apply Grows_refl|].
    rewrite !state_of_bind.
    destruct (pass_grows a s Hr) as [Hr1 Hg1]. unfold passState in *.
    rewrite pass_value. cbn [ret state_of fst snd].
    eapply Grows_trans; [exact Hg1|]. apply IH. exact Hr1.
Qed.

Lemma syncTransactions_grows ctxErr l s :
  WatermarksInRange s ->
  Grows s (state_of (syncTransactions env ctxErr l s)).
Proof.
  intros Hr. unfold syncTransactions. destruct l as [|a l].
  - apply Grows_refl.
  - rewrite state_of_bind. apply syncLoop_grows. exact Hr.
Qed.

Lemma byType_strict a ty s info :
  WatermarksInRange s ->
  syncAddresses s !! deriveAddressKey env a = Some info ->
  returnedSome env a ty s ->
  exists info',
    syncAddresses (state_of (syncTransactionsForAddressByType env a ty s))
      !! deriveAddressKey env a = Some info'
    /\ StartBlock_ info < StartBlock_ info'.
Proof.
  intros Hr Hmon (page & first & others & Hf & Hitems).
  pose proof (honoured_last _ _ _ _ _ _ _ Hr Hmon Hf Hitems) as Hb.
  rewrite byType_sync. unfold syncAfter. rewrite Hf, Hitems.
  unfold advance. rewrite Hmon, lookup_insert_eq.
  eexists. split; [reflexivity|]. cbn. lia.
Qed.

End Monotone.

(** C2 (as amended).  Let the explorer honour the start block of every
    request (the last transaction of each page it returns is at or
    after the requested start block, below the largest int64) and let
    the stored watermarks be non-negative int64 values.  Then a sync
    cycle leaves every monitored address monitored with a watermark at
    least as large as before, and a pass over a monitored address in
    which either sub-fetch got a transaction leaves its watermark
    strictly larger. *)
Theorem watermark_monotone :
  forall (R : Type) (env : Env R) (s : historyService R),
    ExplorerHonoursStart env ->
    WatermarksInRange s ->
    (forall ctxErr addresses, Grows s (state_of (syncTransactions env ctxErr addresses s)))
    /\ (forall address info,
          syncAddresses s !! deriveAddressKey env address = Some info ->
          returnedSome env address TxTypeNormal s
          \/ returnedSome env address TxTypeERC20
               (state_of (syncTransactionsForAddressByType env address TxTypeNormal s)) ->
          exists info',
            syncAddresses (passState env s address)
              !! deriveAddressKey env address = Some info'
            /\ StartBlock_ info < StartBlock_ info').
Proof.
  intros R env s Hh Hr. split.
  - intros ctxErr l. apply syncTransactions_grows; assumption.
  - intros a info Hmon Hret. unfold passState. rewrite pass_state.
    destruct (byType_grows env Hh a TxTypeNormal s Hr) as [Hr1 Hg1].
    destruct (Hg1 _ _ Hmon) as (i1 & Hm1 & _ & Hle1).
    destruct (byType_grows env Hh a TxTypeERC20 _ Hr1) as [Hr2 Hg2].
    destruct Hret as [Hn|He].
    + destruct (byType_strict env Hh a TxTypeNormal s info Hr Hmon Hn)
        as (i1' & Hm1' & Hlt).
      destruct (Hg2 _ _ Hm1') as (i2 & Hm2 & _ & Hle2).
      exists i2. split; [exact Hm2|lia].
    + destruct (byType_strict env Hh a TxTypeERC20 _ i1 Hr1 Hm1 He)
        as (i2 & Hm2 & Hlt).
      exists i2. split; [exact Hm2|lia].
Qed.

Lemma atStart_honours : ExplorerHonoursStart (fixtureEnv atStart false).
Proof.
  intros chain ex address options page first others Hex Hget Hitems.
  injection Hex as <-. cbn in Hget. unfold atStart in Hget.
  destruct ((0 <=? StartBlock options) && (StartBlock options <? 1000)) eqn:E;
    injection Hget as <-; cbn in Hitems; [|discriminate].
  injection Hitems as <- <-. cbn. lia.
Qed.

Lemma monitoring_one_in_range k a w :
  0 <= w < 2 ^ 63 -> WatermarksInRange (monitoring [(k, MkSyncInfo a w)]).
Proof.
  intros Hw k' info. unfold monitoring. cbn [syncAddresses list_to_map foldr].
  destruct (decide (k = k')) as [<-|Hne].
  - rewrite lookup_insert_eq. intros [= <-]. exact Hw.
  - rewrite lookup_insert_ne, lookup_empty by exact Hne. discriminate.
Qed.

Lemma watermark_monotone_witness :
  Grows (monitoring [(keyA, MkSyncInfo addrA 100)])
    (state_of
       (syncTransactions (fixtureEnv atStart false) (fun _ => None) [addrA]
          (monitoring [(keyA, MkSyncInfo addrA 100)])))
  /\ exists info',
      syncAddresses
        (passState (fixtureEnv atStart false)
           (monitoring [(keyA, MkSyncInfo addrA 100)]) addrA)
      !! deriveAddressKey (fixtureEnv atStart false) addrA = Some info'
      /\ StartBlock_ (MkSyncInfo addrA 100) < StartBlock_ info'.
Proof.
  assert (Hr : (0 <= 100 < 2 ^ 63)%Z) by lia.
  destruct (watermark_monotone _ (fixtureEnv atStart false)
              (monitoring [(keyA, MkSyncInfo addrA 100)])
              atStart_honours (monitoring_one_in_range keyA addrA 100 Hr))
    as [Hcycle Hpass].
  split.
  - apply Hcycle.
  - apply Hpass; [reflexivity|].
    left. exists (MkPage [tx "0x10" 100]), (tx "0x10" 100), [].
    split; reflexivity.
Defined.

(** C2 (as stated) fails: an explorer that answers with the same
    transactions whatever the requested start block (normal
    transactions at blocks 101 to 103, one ERC20 transfer at block 102)
    lets a cycle move the watermark of a monitored address from 200
    back to 103, and a cycle started at 103 gets transactions and ends
    at 103 again. *)
Lemma watermark_moves_backwards :
  let env := fixtureEnv normalThenToken false in
  let s := monitoring [(keyA, MkSyncInfo addrA 200)] in
  let s' := state_of (syncTransactions env (fun _ => None) [addrA] s) in
  let t := monitoring [(keyA, MkSyncInfo addrA 103)] in
  let t' := state_of (syncTransactions env (fun _ => None) [addrA] t) in
  Snapshot s [addrA]
  /\ watermark env s addrA = Some 200
  /\ watermark env s' addrA = Some 103
  /\ returnedSome env addrA TxTypeNormal t
  /\ watermark env t addrA = Some 103
  /\ watermark env t' addrA = Some 103.
Proof.
  cbv zeta. split; [|split; [|split; [|split; [|split]]]].
  - unfold Snapshot. vm_compute. reflexivity.
  - vm_compute. reflexivity.
  - vm_compute. reflexivity.
  - exists (MkPage [tx "0x01" 101; tx "0x02" 102; tx "0x03" 103]),
      (tx "0x01" 101), [tx "0x02" 102; tx "0x03" 103].
    split; reflexivity.
  - vm_compute. reflexivity.
  - vm_compute. reflexivity.
Qed.

(** *** Publishing on the bounded channel *)

Section Channel.
Context {R : Type} (env : Env R).

Lemma blind_ret {A} (a : A) : ChannelBlind (R:=R) (ret a).
Proof. intros s1 s2 H. split; [exact H|reflexivity]. Qed.

Lemma blind_bind {A B} (m : M R A) (k : A -> M R B) :
  ChannelBlind m -> (forall a, ChannelBlind (k a)) -> ChannelBlind (bind m k).
Proof.
  intros Hm Hk s1 s2 H. destruct (Hm s1 s2 H) as [Hs Hv].
  rewrite !state_of_bind, !value_of_bind, Hv. apply Hk. exact Hs.
Qed.

Lemma blind_emitLog lvl msg fields :
  ChannelBlind (R:=R) (emitLog lvl msg fields).
Proof. intros s1 s2 H. split; [exact H|reflexivity]. Qed.

Lemma blind_forEach {A} (l : list A) (body : A -> M R unit) :
  (forall x, ChannelBlind (body x)) -> ChannelBlind (forEach l body).
Proof.
  intros Hb. induction l as [|x l IH]; simpl.
  - apply blind_ret.
  - apply blind_bind; auto.
Qed.

Lemma blind_publish ev : ChannelBlind (R:=R) (publish ev).
Proof.
  intros s1 s2 [Hs Hr]. unfold publish, Agree, state_of, value_of.
  destruct (_ <? _)%nat; destruct (_ <? _)%nat; cbn; auto.
Qed.

Lemma blind_repoGetByHash h : ChannelBlind (repoGetByHash env h).
Proof.
  intros s1 s2 [Hs Hr]. unfold repoGetByHash, Agree, state_of, value_of.
  cbn. rewrite Hr. auto.
Qed.

Lemma blind_repoUpdate t : ChannelBlind (repoUpdate env t).
Proof.
  intros s1 s2 [Hs Hr]. unfold repoUpdate, Agree, state_of, value_of.
  cbn. rewrite Hr. auto.
Qed.

Lemma blind_repoCreate t : ChannelBlind (repoCreate env t).
Proof.
  intros s1 s2 [Hs Hr]. unfold repoCreate, Agree, state_of, value_of.
  cbn. rewrite Hr. auto.
Qed.

Lemma blind_getStartBlock a : ChannelBlind (getStartBlock env a).
Proof.
  intros s1 s2 [Hs Hr]. unfold getStartBlock, Agree, state_of, value_of.
  rewrite Hs. destruct (syncAddresses s2 !! _); cbn; auto.
Qed.

Lemma blind_setStartBlock a b : ChannelBlind (setStartBlock env a b).
Proof.
  intros s1 s2 [Hs Hr]. unfold setStartBlock, Agree, state_of, value_of.
  rewrite Hs. destruct (syncAddresses s2 !! _); cbn; rewrite ?Hs, ?Hr; auto.
Qed.

Lemma blind_fetch ex a opts : ChannelBlind (fetch env ex a opts).
Proof. intros s1 s2 H. split; [exact H|reflexivity]. Qed.

Lemma blind_isValid t : ChannelBlind (isValidERC20Token env t).
Proof.
  unfold isValidERC20Token.
  destruct (Metadata t !! _) as [tok|].
  - destruct (GetToken _ tok) as [[token|] [e|]];
      repeat (apply blind_bind; [|intros ?]);
      try apply blind_ret; try apply blind_emitLog;
      destruct (IsError env e _); apply blind_emitLog.
  - apply blind_bind; [apply blind_emitLog|intros; apply blind_ret].
Qed.

Lemma blind_upsert t st ex : ChannelBlind (upsertAndEmit env t st ex).
Proof.
  unfold upsertAndEmit. destruct ex as [e|].
  - apply blind_bind; [apply blind_repoUpdate|].
    intros [err|]; [apply blind_emitLog|].
    apply blind_bind; [apply blind_emitLog|]. intros _. apply blind_publish.
  - apply blind_bind; [apply blind_repoCreate|].
    intros [err|]; [apply blind_emitLog|].
    apply blind_bind; [apply blind_emitLog|]. intros _. apply blind_publish.
Qed.

Lemma blind_processItem ty item : ChannelBlind (processItem env ty item).
Proof.
  unfold processItem.
  destruct (Apply _ item) as [t|]; [|apply blind_emitLog].
  apply blind_bind.
  - destruct (isERC20 ty); [apply blind_isValid|apply blind_ret].
  - intros valid. destruct (negb valid); [apply blind_ret|].
    destruct (FromCoreTransaction env t) as [st|]; [|apply blind_emitLog].
    apply blind_bind; [apply blind_repoGetByHash|].
    intros found. destruct (lookupFailed env _); [apply blind_emitLog|].
    apply blind_upsert.
Qed.

Lemma blind_byType a ty :
  ChannelBlind (syncTransactionsForAddressByType env a ty).
Proof.
  unfold syncTransactionsForAddressByType.
  destruct (NewExplorer _ _) as [ex|e0].
  - apply blind_bind; [apply blind_getStartBlock|]. intros w.
    apply blind_bind; [apply blind_emitLog|]. intros _.
    apply blind_bind; [apply blind_fetch|]. intros [page|e].
    + destruct (Items page) as [|first others].
      * apply blind_bind; [apply blind_emitLog|]. intros _. apply blind_ret.
      * apply blind_bind; [apply blind_emitLog|]. intros _.
        apply blind_bind.
        { apply blind_forEach. intros x. apply blind_processItem. }
        intros _. apply blind_bind; [apply blind_setStartBlock|].
        intros _. apply blind_ret.
    + apply blind_bind; [apply blind_emitLog|]. intros _. apply blind_ret.
  - apply blind_bind; [apply blind_emitLog|]. intros _. apply blind_ret.
Qed.

End Channel.

(** C6.  Publishing an event is a total step of the loop: with fewer
    than 100 events buffered the event is appended to the channel and
    nothing else changes; with 100 buffered the state is left as it is
    and a warning is logged.  The channel never grows beyond 100.
    Whatever the channel holds, the loop over the returned transactions
    and the whole sub-fetch leave the same repository and the same
    monitored addresses and return the same value: a full channel stops
    neither the remaining transactions nor the watermark update. *)
Theorem publish_never_blocks :
  forall (R : Type) (env : Env R),
    (forall (event : TransactionEvent) (s : historyService R),
        ((length (historyEventsChan s) < 100)%nat ->
         publish event s
         = ((tt,
             MkService (syncAddresses s) (historyEventsChan s ++ [event])
               (repository s)),
            [Log Debug "Emitted history transaction event"
               [FString "tx_hash" (Hash (EvTransaction event));
                FBool "is_new" (IsNew event)]]))
        /\ ((100 <= length (historyEventsChan s))%nat ->
            publish event s
            = ((tt, s),
               [Log Warn "History events channel is full, dropping event"
                  [FString "tx_hash" (Hash (EvTransaction event))]]))
        /\ ((length (historyEventsChan s) <= 100)%nat ->
            (length (historyEventsChan (state_of (publish event s))) <= 100)%nat))
    /\ (forall txType items, ChannelBlind (forEach items (processItem env txType)))
    /\ (forall address txType,
          ChannelBlind (syncTransactionsForAddressByType env address txType)).
Proof.
  intros R env. split; [|split].
  - intros ev s. unfold publish, historyEventsChanCap.
    destruct (Nat.ltb_spec (length (historyEventsChan s)) 100) as [Hlt|Hge].
    + repeat split; intros H; try lia; try reflexivity.
      unfold state_of. cbn. rewrite length_app. cbn. lia.
    + repeat split; intros H; try lia; try reflexivity.
      unfold state_of. cbn. lia.
  - intros ty items. apply blind_forEach. intros x. apply blind_processItem.
  - intros a ty. apply blind_byType.
Qed.

(** A state whose channel already holds 100 events. *)
Lemma publish_never_blocks_witness :
  let env := fixtureEnv oneAtSeven false in
  let full :=
    MkService (list_to_map [(keyA, MkSyncInfo addrA 0)])
      (repeat (MkEvent (tx "0x00" 1) true) 100) (∅ : store) in
  let r := syncTransactionsForAddressByType env addrA TxTypeNormal full in
  let r0 :=
    syncTransactionsForAddressByType env addrA TxTypeNormal
      (monitoring [(keyA, MkSyncInfo addrA 0)]) in
  publish (MkEvent (tx "0x01" 7) true) full
  = ((tt, full),
     [Log Warn "History events channel is full, dropping event"
        [FString "tx_hash" "0x01"]])
  /\ Agree (state_of r) (state_of r0)
  /\ value_of r = value_of r0.
Proof.
  cbv zeta.
  destruct (publish_never_blocks _ (fixtureEnv oneAtSeven false))
    as (Hpub & _ & Hblind).
  split.
  - apply (proj1 (proj2 (Hpub (MkEvent (tx "0x01" 7) true) _))).
    cbn [historyEventsChan].
    rewrite repeat_length. lia.
  - apply Hblind. split; reflexivity.
Defined.

(** *** Isolation of failures *)

Section Isolation.
Context {R : Type} (env : Env R).

Lemma fetchFails_subfetch a ty s :
  fetchFails env a -> subfetchFailed env a ty s.
Proof.
  unfold fetchFails, subfetchFailed, fetched.
  destruct (NewExplorer _ _) as [ex|e0]; [|auto].
  intros H. right. destruct (H (optionsFor env a ty s)) as [e He].
  exists e. rewrite He. reflexivity.
Qed.

Lemma byType_failure_logged a ty s :
  subfetchFailed env a ty s ->
  existsb isErrorLog (trace_of (syncTransactionsForAddressByType env a ty s))
  = true.
Proof.
  unfold subfetchFailed, fetched.
  destruct (NewExplorer _ _) as [ex|e0] eqn:Hex.
  - intros [H|[e H]]; [discriminate|]. injection H as H.
    rewrite (byType_unfold _ _ _ _ _ Hex). cbv zeta. rewrite H.
    unfold trace_of. cbn [snd]. rewrite !existsb_app. cbn.
    rewrite !orb_true_r. reflexivity.
  - intros _. rewrite (byType_no_explorer _ _ _ _ _ Hex). reflexivity.
Qed.

Lemma pass_normal_failed a s :
  subfetchFailed env a TxTypeNormal s ->
  passState env s a
  = state_of (syncTransactionsForAddressByType env a TxTypeERC20 s)
  /\ exists err,
      In (Log Error "Failed to sync normal transactions for address"
            [FString "address" (AddressString env a); FError err])
         (trace_of (syncTransactionsForAddress env a s)).
Proof.
  intros Hf. destruct (byType_failure env a TxTypeNormal s Hf)
    as (Hst & err & Hval & _).
  split.
  - unfold passState. rewrite pass_state, Hst. reflexivity.
  - exists err. unfold syncTransactionsForAddress.
    rewrite trace_of_bind. apply in_or_app. right.
    rewrite Hval. rewrite trace_of_bind. apply in_or_app. left.
    cbn. auto.
Qed.

Lemma pass_erc20_failed a s :
  subfetchFailed env a TxTypeERC20
    (state_of (syncTransactionsForAddressByType env a TxTypeNormal s)) ->
  passState env s a
  = state_of (syncTransactionsForAddressByType env a TxTypeNormal s)
  /\ exists err,
      In (Log Error "Failed to sync ERC20 transactions for address"
            [FString "address" (AddressString env a); FError err])
         (trace_of (syncTransactionsForAddress env a s)).
Proof.
  intros Hf.
  destruct (byType_failure env a TxTypeERC20 _ Hf) as (Hst & err & Hval & _).
  split.
  - unfold passState. rewrite pass_state, Hst. reflexivity.
  - exists err. unfold syncTransactionsForAddress.
    rewrite trace_of_bind. apply in_or_app. right. cbv beta.
    destruct (value_of (syncTransactionsForAddressByType env a TxTypeNormal s));
      rewrite trace_of_bind; apply in_or_app; right;
      cbn [emitLog ret state_of value_of fst snd];
      rewrite trace_of_bind; apply in_or_app; right;
      rewrite Hval; rewrite trace_of_bind; apply in_or_app; left;
      cbn; auto.
Qed.

Lemma pass_unchanged a s : fetchFails env a -> passState env s a = s.
Proof.
  intros Hf. unfold passState. rewrite pass_state.
  destruct (byType_failure env a TxTypeNormal s
              (fetchFails_subfetch a _ s Hf)) as [-> _].
  destruct (byType_failure env a TxTypeERC20 s
              (fetchFails_subfetch a _ s Hf)) as [-> _].
  reflexivity.
Qed.

Lemma syncLoop_state ctxErr l :
  (forall i, ctxErr i = None) ->
  forall i s,
    state_of (syncLoop env ctxErr i l s) = fold_left (passState env) l s.
Proof.
  intros Hc. induction l as [|a l IH]; intros i s; cbn [syncLoop fold_left].
  - reflexivity.
  - rewrite Hc, !state_of_bind, pass_value.
    cbn [ret state_of fst snd]. apply IH.
Qed.

Lemma syncTransactions_state ctxErr l s :
  (forall i, ctxErr i = None) ->
  state_of (syncTransactions env ctxErr l s) = fold_left (passState env) l s.
Proof.
  intros Hc. unfold syncTransactions. destruct l as [|a l]; [reflexivity|].
  rewrite state_of_bind. apply syncLoop_state. exact Hc.
Qed.

(** A pass writes the entry of its own address only. *)
Lemma pass_other_key a s k :
  k <> deriveAddressKey env a ->
  syncAddresses (passState env s a) !! k = syncAddresses s !! k.
Proof.
  intros Hne. unfold passState. rewrite pass_state.
  assert (Hstep : forall ty s0,
             syncAddresses
               (state_of (syncTransactionsForAddressByType env a ty s0)) !! k
             = syncAddresses s0 !! k).
  { intros ty s0. rewrite byType_sync. unfold syncAfter.
    destruct (fetched env a ty s0) as [[page|e]|]; try reflexivity.
    destruct (Items page) as [|first others]; try reflexivity.
    unfold advance.
    destruct (syncAddresses s0 !! deriveAddressKey env a); [|reflexivity].
    apply lookup_insert_ne. congruence. }
  rewrite !Hstep. reflexivity.
Qed.

Lemma passes_other_key l : forall s k,
  (forall b, In b l -> k <> deriveAddressKey env b) ->
  syncAddresses (fold_left (passState env) l s) !! k = syncAddresses s !! k.
Proof.
  induction l as [|b l IH]; intros s k Hk; cbn [fold_left]; [reflexivity|].
  rewrite IH by (intros b' Hb'; apply Hk; right; exact Hb').
  apply pass_other_key. apply Hk. left. reflexivity.
Qed.

(** The copy of the monitored addresses holds each key once. *)
Lemma snapshot_keys_nodup s l :
  WellKeyed env s -> Snapshot s l -> NoDup (deriveAddressKey env <$> l).
Proof.
  intros Hw Hp. unfold Snapshot in Hp. rewrite Hp. clear Hp.
  assert (Hall : Forall (fun p => deriveAddressKey env (Address_ p.2) = p.1)
                   (map_to_list (syncAddresses s))).
  { apply Forall_forall. intros [k i] Hin.
    apply elem_of_map_to_list in Hin. cbn. eapply Hw; eauto. }
  assert (Heq : deriveAddressKey env <$>
                  (Address_ <$> (map_to_list (syncAddresses s)).*2)
                = (map_to_list (syncAddresses s)).*1).
  { induction Hall as [|p L Hp' _ IH]; [reflexivity|].
    cbn. rewrite Hp'. f_equal. exact IH. }
  rewrite Heq. apply NoDup_fst_map_to_list.
Qed.

Lemma snapshot_other_keys s before a after :
  WellKeyed env s -> Snapshot s (before ++ a :: after) ->
  forall b, In b (before ++ after) ->
            deriveAddressKey env a <> deriveAddressKey env b.
Proof.
  intros Hw Hp b Hb Heq.
  pose proof (snapshot_keys_nodup _ _ Hw Hp) as Hnd.
  rewrite fmap_app, fmap_cons in Hnd.
  apply NoDup_app in Hnd as (_ & Hdisj & Hnd).
  apply NoDup_cons in Hnd as [Hnotin _].
  apply in_app_or in Hb as [Hb|Hb]; apply list_elem_of_In in Hb.
  - apply (Hdisj (deriveAddressKey env a)).
    + rewrite Heq. apply list_elem_of_fmap. eauto.
    + left.
  - apply Hnotin. rewrite Heq. apply list_elem_of_fmap. eauto.
Qed.

(** [MonitorAddress] keeps every entry under the key of its address. *)
Lemma MonitorAddress_well_keyed a b s :
  WellKeyed env s -> WellKeyed env (state_of (MonitorAddress env a b s)).
Proof.
  intros Hw k info. unfold MonitorAddress, state_of.
  destruct (syncAddresses s !! deriveAddressKey env a) eqn:E; cbn [fst snd].
  - apply Hw.
  - cbn [syncAddresses]. rewrite lookup_insert.
    destruct (decide (deriveAddressKey env a = k)) as [Hk|Hk].
    + intros [= <-]. exact Hk.
    + apply Hw.
Qed.

End Isolation.

(** C5.  A sub-fetch that cannot get its explorer or whose request
    fails logs an error and leaves the state as it found it; the pass
    over the address logs the error it got from the normal sub-fetch,
    still runs the ERC20 sub-fetch and returns nil.  While the context
    is not cancelled, a cycle over addresses among which one has every
    request failing ends in the state reached by the passes over the
    other addresses, in order: their watermarks, their stored
    transactions and their events are those of a cycle without the
    failing address, and the entry of the failing address is as before
    when no other address shares its key.  [syncTransactions] returns
    no value, so nothing is raised to the caller of the cycle.  When
    only one of the two sub-fetches of an address fails, the other one
    still runs and the pass ends in the state it leaves: after a
    failed normal sub-fetch the watermarks are those the ERC20
    sub-fetch records (its last block + 1 when it returned
    transactions), and after a failed ERC20 sub-fetch the state is the
    one the normal sub-fetch left. *)
Theorem partial_failure_isolation :
  forall (R : Type) (env : Env R),
    (forall address txType s,
        subfetchFailed env address txType s ->
        state_of (syncTransactionsForAddressByType env address txType s) = s
        /\ existsb isErrorLog
             (trace_of (syncTransactionsForAddressByType env address txType s))
           = true)
    /\ (forall address s,
          value_of (syncTransactionsForAddress env address s) = None
          /\ (subfetchFailed env address TxTypeNormal s ->
              passState env s address
              = state_of (syncTransactionsForAddressByType env address TxTypeERC20 s)
              /\ exists err,
                  In (Log Error "Failed to sync normal transactions for address"
                        [FString "address" (AddressString env address);
                         FError err])
                     (trace_of (syncTransactionsForAddress env address s))))
    /\ (forall address ctxErr before after s,
          fetchFails env address ->
          (forall i, ctxErr i = None) ->
          state_of (syncTransactions env ctxErr (before ++ address :: after) s)
          = fold_left (passState env) (before ++ after) s
          /\ (WellKeyed env s ->
              Snapshot s (before ++ address :: after) ->
              syncAddresses
                (state_of
                   (syncTransactions env ctxErr (before ++ address :: after) s))
              !! deriveAddressKey env address
              = syncAddresses s !! deriveAddressKey env address))
    /\ (forall address s,
          subfetchFailed env address TxTypeERC20
            (state_of (syncTransactionsForAddressByType env address
                         TxTypeNormal s)) ->
          passState env s address
          = state_of (syncTransactionsForAddressByType env address
                        TxTypeNormal s)
          /\ exists err,
              In (Log Error "Failed to sync ERC20 transactions for address"
                    [FString "address" (AddressString env address);
                     FError err])
                 (trace_of (syncTransactionsForAddress env address s)))
    /\ (forall address s,
          subfetchFailed env address TxTypeNormal s ->
          syncAddresses (passState env s address)
          = syncAfter env address TxTypeERC20 s).
Proof.
  intros R env. split; [|split; [|split; [|split]]].
  - intros a ty s Hf. split.
    + apply (byType_failure env a ty s Hf).
    + apply byType_failure_logged. exact Hf.
  - intros a s. split; [reflexivity|]. apply pass_normal_failed.
  - intros a ctxErr before after s Hf Hc.
    assert (Heq : state_of (syncTransactions env ctxErr (before ++ a :: after) s)
                  = fold_left (passState env) (before ++ after) s).
    { rewrite syncTransactions_state by exact Hc.
      rewrite !fold_left_app. cbn [fold_left].
      rewrite pass_unchanged by exact Hf. reflexivity. }
    split; [exact Heq|].
    intros Hw Hsnap. rewrite Heq. apply passes_other_key.
    intros b Hb. eapply snapshot_other_keys; eauto.
  - intros a s. apply pass_erc20_failed.
  - intros a s Hf. destruct (pass_normal_failed env a s Hf) as [-> _].
    apply byType_sync.
Qed.

Lemma failingForA_fails : fetchFails (fixtureEnv failingForA false) addrA.
Proof. intros options. exists explorerDown. reflexivity. Qed.

Lemma partial_failure_isolation_witness :
  let env := fixtureEnv failingForA false in
  let s := monitoring [(keyA, MkSyncInfo addrA 0); (keyB, MkSyncInfo addrB 0)] in
  let s' := state_of (syncTransactions env (fun _ => None) [addrA; addrB] s) in
  s' = passState env s addrB
  /\ watermark env s' addrA = Some 0
  /\ watermark env s' addrB = Some 8
  /\ historyEventsChan s' = [MkEvent (tx "0x01" 7) true].
Proof.
  cbv zeta.
  destruct (proj1 (proj2 (proj2 (partial_failure_isolation _
                                   (fixtureEnv failingForA false))))
              addrA (fun _ => None) [] [addrB]
              (monitoring [(keyA, MkSyncInfo addrA 0); (keyB, MkSyncInfo addrB 0)])
              failingForA_fails (fun _ => eq_refl))
    as [Hstate Hkey].
  cbn [app] in Hstate, Hkey.
  split; [exact Hstate|].
  split.
  - unfold watermark. rewrite Hkey; [reflexivity| |].
    + intros k info. unfold monitoring.
      cbn [syncAddresses list_to_map foldr].
      destruct (decide (keyA = k)) as [<-|Ha].
      { rewrite lookup_insert_eq. intros [= <-]. reflexivity. }
      rewrite lookup_insert_ne by exact Ha.
      destruct (decide (keyB = k)) as [<-|Hb].
      { rewrite lookup_insert_eq. intros [= <-]. reflexivity. }
      rewrite lookup_insert_ne, lookup_empty by exact Hb. discriminate.
    + unfold Snapshot. vm_compute.
      first [reflexivity | apply Permutation_swap].
  - rewrite Hstate. split; vm_compute; reflexivity.
Defined.

(** When only the request for normal transactions fails, the ERC20
    sub-fetch of the same address still runs and records its own start
    block: the failing address's watermark moves from 0 to 8. *)
Lemma one_type_failure_moves_watermark :
  let env := fixtureEnv normalDown false in
  let s := monitoring [(keyA, MkSyncInfo addrA 0)] in
  let s' := state_of (syncTransactions env (fun _ => None) [addrA] s) in
  subfetchFailed env addrA TxTypeNormal s
  /\ watermark env s addrA = Some 0
  /\ watermark env s' addrA = Some 8
  /\ historyEventsChan s'
     = [MkEvent (MkTransaction "0x04" 7
                   {["erc20_token_address" := "0xtoken"]}) true].
Proof.
  cbv zeta. split; [right; exists explorerDown; reflexivity|].
  split; [reflexivity|]. split; vm_compute; reflexivity.
Qed.

End HistoryFacts.

(** ** The keystore *)

Module KeystoreFacts.
Import Keystore KeystoreObs.

Section Tables.

Lemma hasID_absent id (l : list KeyRow) :
  (forall r, In r l -> col_id r <> id) ->
  Forall (fun r => hasID id r = false) l.
Proof.
  intros H. apply Forall_forall. intros r Hr. apply list_elem_of_In in Hr.
  unfold hasID. apply String.eqb_neq. apply H. exact Hr.
Qed.

Lemma filter_hasID_absent id (l : list KeyRow) :
  Forall (fun r => hasID id r = false) l ->
  filter (fun r => hasID id r = true) l = [].
Proof.
  induction 1 as [|r l Hr _ IH]; [reflexivity|].
  rewrite filter_cons. destruct (decide (hasID id r = true)); [congruence|].
  exact IH.
Qed.

Lemma filter_hasID_keep id (l : list KeyRow) :
  Forall (fun r => hasID id r = false) l ->
  filter (fun r => hasID id r = false) l = l.
Proof.
  induction 1 as [|r l Hr _ IH]; [reflexivity|].
  rewrite filter_cons. destruct (decide (hasID id r = false)); [|congruence].
  rewrite IH. reflexivity.
Qed.

Lemma filter_hasID_present id (l : list KeyRow) r :
  In r l -> col_id r = id ->
  filter (fun r => hasID id r = true) l <> [].
Proof.
  intros Hin Hid Hnil. apply list_elem_of_In in Hin.
  apply (filter_nil_not_elem_of _ _ r Hnil); [|exact Hin].
  unfold hasID. rewrite Hid. apply String.eqb_refl.
Qed.

(** An UPDATE or DELETE by an id that no row has changes nothing and
    affects no row. *)
Lemma runStatement_update_absent id name tags db :
  (forall r, In r (keys db) -> col_id r <> id) ->
  runStatement (UpdateKey name tags id) db = (db, 0).
Proof.
  intros H. apply hasID_absent in H. unfold runStatement.
  rewrite (filter_hasID_absent _ _ H). destruct db as [ks ws]. cbn in *.
  f_equal. f_equal.
  induction H as [|r l Hr _ IH]; [reflexivity|].
  cbn. rewrite Hr, IH. reflexivity.
Qed.

Lemma runStatement_delete_absent id db :
  (forall r, In r (keys db) -> col_id r <> id) ->
  runStatement (DeleteKey id) db = (db, 0).
Proof.
  intros H. apply hasID_absent in H. unfold runStatement.
  rewrite (filter_hasID_absent _ _ H), (filter_hasID_keep _ _ H).
  destruct db; reflexivity.
Qed.

End Tables.

(** C8.  [Update] of an id that no stored key has leaves the database
    exactly as it was and fails; when the database executes the
    statement and reports its row count, the failure is
    [ResourceNotFound], and the only call made is the UPDATE statement
    itself: no query precedes it. *)
Theorem Update_missing_id :
  forall (env : Env) (db : DB) (id name : string)
         (tags : option (gmap string string)),
    (forall r, In r (keys db) -> col_id r <> id) ->
    db_of (Update env id name tags db) = db
    /\ (exists e, result_of (Update env id name tags db) = Fail e)
    /\ (forall tagsJSON,
          jsonMarshal env tags = Ok tagsJSON ->
          execFault env db (UpdateKey name tagsJSON id) = None ->
          rowsAffectedFault env db (UpdateKey name tagsJSON id) = None ->
          Update env id name tags db
          = ((Fail (NewResourceNotFoundError "key" id), db),
             [Executed (UpdateKey name tagsJSON id)])).
Proof.
  intros env db id name tags Habs.
  unfold Update, ExecuteStatementContext, db_of, result_of.
  destruct (jsonMarshal env tags) as [tagsJSON|e].
  - rewrite (runStatement_update_absent _ _ _ _ Habs). cbn [fst snd].
    destruct (execFault env db _) as [e1|] eqn:E1.
    + split; [reflexivity|]. split; [eauto|].
      intros ? [= <-] H1 _. congruence.
    + destruct (rowsAffectedFault env db _) as [e2|] eqn:E2.
      * split; [reflexivity|]. split; [eauto|].
        intros ? [= <-] _ H2. congruence.
      * cbn. split; [reflexivity|]. split; [eauto|].
        intros ? [= <-] _ _. reflexivity.
  - cbn. split; [reflexivity|]. split; [eauto|]. intros ? [=].
Qed.

Lemma Update_missing_id_witness :
  Update KeystoreFixtures.keystoreEnv "2" "renamed" None
    KeystoreFixtures.dbWithWallet
  = ((Fail (NewResourceNotFoundError "key" "2"), KeystoreFixtures.dbWithWallet),
     [Executed (UpdateKey "renamed" "{}" "2")]).
Proof.
  apply (Update_missing_id KeystoreFixtures.keystoreEnv
           KeystoreFixtures.dbWithWallet "2" "renamed" None).
  - intros r [<-|[]]. vm_compute. discriminate.
  - reflexivity.
  - reflexivity.
  - reflexivity.
Defined.

(** C4 (as amended).  When the database executes the DELETE and reports
    its row count, [Delete] fails with [ResourceNotFound] and changes
    nothing if no key has the id; if a key has it, [Delete] succeeds,
    the table keeps exactly the rows with another id and the wallets
    are as before, whether or not one of them refers to the key. *)
Theorem Delete_outcome :
  forall (env : Env) (db : DB) (id : string),
    execFault env db (DeleteKey id) = None ->
    rowsAffectedFault env db (DeleteKey id) = None ->
    ((forall r, In r (keys db) -> col_id r <> id) ->
     Delete env id db
     = ((Fail (NewResourceNotFoundError "key" id), db), [Executed (DeleteKey id)]))
    /\ ((exists r, In r (keys db) /\ col_id r = id) ->
        result_of (Delete env id db) = Ok tt
        /\ keys (db_of (Delete env id db))
           = filter (fun r => hasID id r = false) (keys db)
        /\ wallets (db_of (Delete env id db)) = wallets db).
Proof.
  intros env db id Hexec Hrows.
  unfold Delete, ExecuteStatementContext, db_of, result_of.
  rewrite Hexec, Hrows. split.
  - intros Habs. rewrite (runStatement_delete_absent _ _ Habs). reflexivity.
  - intros (r & Hin & Hid). cbn [runStatement fst snd].
    pose proof (filter_hasID_present id (keys db) r Hin Hid) as Hne.
    destruct (filter (fun r0 => hasID id r0 = true) (keys db)) as [|x l];
      [congruence|].
    cbn. repeat split; reflexivity.
Qed.

Lemma Delete_outcome_witness :
  result_of (Delete KeystoreFixtures.keystoreEnv "1" KeystoreFixtures.dbWithWallet)
  = Ok tt
  /\ keys (db_of (Delete KeystoreFixtures.keystoreEnv "1"
                    KeystoreFixtures.dbWithWallet))
     = filter (fun r => hasID "1" r = false)
         (keys KeystoreFixtures.dbWithWallet)
  /\ wallets (db_of (Delete KeystoreFixtures.keystoreEnv "1"
                       KeystoreFixtures.dbWithWallet))
     = wallets KeystoreFixtures.dbWithWallet.
Proof.
  apply (proj2 (Delete_outcome KeystoreFixtures.keystoreEnv
                  KeystoreFixtures.dbWithWallet "1" eq_refl eq_refl)).
  exists KeystoreFixtures.rowOne. split; [left; reflexivity|reflexivity].
Defined.

(** C4 (as stated) fails: the key "1" is referred to by a wallet, the
    database reports no error, and [Delete] removes the key. *)
Lemma Delete_removes_key_in_use :
  In KeystoreFixtures.walletOfOne (wallets KeystoreFixtures.dbWithWallet)
  /\ KeyID KeystoreFixtures.walletOfOne = "1"
  /\ In KeystoreFixtures.rowOne (keys KeystoreFixtures.dbWithWallet)
  /\ Delete KeystoreFixtures.keystoreEnv "1" KeystoreFixtures.dbWithWallet
     = ((Ok tt, MkDB [] [KeystoreFixtures.walletOfOne]),
        [Executed (DeleteKey "1")]).
Proof.
  repeat split; try (left; reflexivity).
Qed.

(** *** Private key material *)

Section PrivateKeys.
Context (env : Env).

Lemma Create_ok name ty curve tags db key :
  result_of (Create env name ty curve tags db) = Ok key ->
  exists c priv pub tagsJSON,
    GenerateKeyPair env ty c = Ok (priv, pub)
    /\ Encrypt env priv = Ok (PrivateKey key)
    /\ PublicKey key = pub
    /\ keys (db_of (Create env name ty curve tags db))
       = keys db
         ++ [MkKeyRow (ID key) name ty (curveNameOf c) tagsJSON (now env)
               (PrivateKey key) pub]
    /\ calls_of (Create env name ty curve tags db)
       = [Encrypted priv;
          Executed
            (InsertKey
               (MkKeyRow (ID key) name ty (curveNameOf c) tagsJSON (now env)
                  (PrivateKey key) pub))].
Proof.
  unfold Create, ExecuteStatementContext, result_of, db_of, calls_of.
  repeat case_match; cbn [fst snd]; intros Hres; simplify_eq;
    do 4 eexists; repeat split; eauto.
Qed.

Lemma Import_ok name ty curve priv pub tags db key :
  result_of (Import env name ty curve priv pub tags db) = Ok key ->
  exists c tagsJSON,
    Encrypt env priv = Ok (PrivateKey key)
    /\ PublicKey key = pub
    /\ keys (db_of (Import env name ty curve priv pub tags db))
       = keys db
         ++ [MkKeyRow (ID key) name ty (curveNameOf c) tagsJSON (now env)
               (PrivateKey key) pub]
    /\ calls_of (Import env name ty curve priv pub tags db)
       = [Encrypted priv;
          Executed
            (InsertKey
               (MkKeyRow (ID key) name ty (curveNameOf c) tagsJSON (now env)
                  (PrivateKey key) pub))].
Proof.
  unfold Import, ExecuteStatementContext, result_of, db_of, calls_of.
  repeat case_match; cbn [fst snd]; intros Hres; simplify_eq;
    do 2 eexists; repeat split; eauto.
Qed.

Lemma Create_writes name ty curve tags db :
  Forall (writesCiphertext env) (calls_of (Create env name ty curve tags db))
  /\ existsb isDecrypted (calls_of (Create env name ty curve tags db)) = false.
Proof.
  unfold Create, ExecuteStatementContext, calls_of.
  repeat case_match; cbn [fst snd]; simplify_eq;
    (split; [|reflexivity]); repeat constructor; cbn; eauto.
Qed.

Lemma Import_writes name ty curve priv pub tags db :
  Forall (writesCiphertext env)
    (calls_of (Import env name ty curve priv pub tags db))
  /\ existsb isDecrypted (calls_of (Import env name ty curve priv pub tags db))
     = false.
Proof.
  unfold Import, ExecuteStatementContext, calls_of.
  repeat case_match; cbn [fst snd]; simplify_eq;
    (split; [|reflexivity]); repeat constructor; cbn; eauto.
Qed.

Lemma scanPublic_private c key :
  scanPublic env c = Ok key -> PrivateKey key = [].
Proof.
  unfold scanPublic. repeat case_match; intros Hres; simplify_eq; reflexivity.
Qed.

Lemma GetPublicKey_public id db :
  db_of (GetPublicKey env id db) = db
  /\ calls_of (GetPublicKey env id db) = [Queried (SelectPublic id)]
  /\ forall key,
      result_of (GetPublicKey env id db) = Ok key -> PrivateKey key = [].
Proof.
  unfold GetPublicKey, db_of, calls_of, result_of.
  repeat case_match; cbn [fst snd]; repeat split; try reflexivity;
    intros key Hres; try discriminate.
  eapply scanPublic_private; eauto.
Qed.

Lemma scanRows_private db q rows : forall ks,
  scanRows env db q rows = Ok ks -> Forall (fun k => PrivateKey k = []) ks.
Proof.
  induction rows as [|c rows IH]; intros ks; cbn [scanRows].
  - destruct (rowsErr env db q); intros H; simplify_eq. constructor.
  - destruct (scanFault env db q); [discriminate|].
    destruct (scanPublic env c) as [key|] eqn:Hk; [|discriminate].
    destruct (scanRows env db q rows) as [ks'|]; [|discriminate].
    intros H. simplify_eq. constructor.
    + eapply scanPublic_private; eauto.
    + apply IH. reflexivity.
Qed.

Lemma List_public limit token db :
  db_of (List_ env limit token db) = db
  /\ existsb isDecrypted (calls_of (List_ env limit token db)) = false
  /\ forall page,
      result_of (List_ env limit token db) = Ok page ->
      Forall (fun k => PrivateKey k = []) (PageItems page).
Proof.
  unfold List_, db_of, calls_of, result_of.
  repeat case_match; cbn [fst snd]; repeat split; try reflexivity;
    intros page Hp; try discriminate; simplify_eq;
    cbn [NewPage PageItems]; apply Forall_take;
    eapply scanRows_private; eauto.
Qed.

Lemma Update_private id name tags db :
  map col_private_key (keys (db_of (Update env id name tags db)))
  = map col_private_key (keys db)
  /\ existsb isDecrypted (calls_of (Update env id name tags db)) = false
  /\ forall key,
      result_of (Update env id name tags db) = Ok key -> PrivateKey key = [].
Proof.
  assert (Hmap : forall n t,
             map col_private_key
               (keys (fst (runStatement (UpdateKey n t id) db)))
             = map col_private_key (keys db)).
  { intros n t. cbn. rewrite map_map. apply map_ext. intros r.
    destruct (hasID id r); reflexivity. }
  unfold Update, ExecuteStatementContext, db_of, calls_of, result_of.
  destruct (jsonMarshal env tags) as [tagsJSON|e];
    [|repeat split; try reflexivity; intros ? [=]].
  destruct (execFault env db _);
    [repeat split; try reflexivity; intros ? [=]|].
  destruct (rowsAffectedFault env db _);
    [cbn [fst snd]; repeat split; try apply Hmap; try reflexivity;
     intros ? [=]|].
  destruct (snd (runStatement (UpdateKey name tagsJSON id) db) =? 0);
    [cbn [fst snd]; repeat split; try apply Hmap; try reflexivity;
     intros ? [=]|].
  cbn [fst snd].
  destruct (GetPublicKey_public id
              (fst (runStatement (UpdateKey name tagsJSON id) db)))
    as (Hdb & Hcalls & Hkey).
  unfold db_of, calls_of, result_of in Hdb, Hcalls, Hkey.
  rewrite Hdb, Hcalls. repeat split; [apply Hmap|exact Hkey].
Qed.

Lemma Delete_no_decrypt id db :
  existsb isDecrypted (calls_of (Delete env id db)) = false.
Proof.
  unfold Delete, ExecuteStatementContext, calls_of.
  repeat case_match; reflexivity.
Qed.

Lemma Sign_decrypts_once id data dataType db :
  db_of (Sign env id data dataType db) = db
  /\ (calls_of (Sign env id data dataType db) = [Queried (SelectPrivate id)]
      \/ exists row,
          In row (keys db) /\ col_id row = id
          /\ calls_of (Sign env id data dataType db)
             = [Queried (SelectPrivate id); Decrypted (col_private_key row)]).
Proof.
  unfold Sign, db_of, calls_of.
  destruct (queryFault env db _); [split; [reflexivity|left; reflexivity]|].
  destruct (privateColumns <$> selectById id db) as [|c rest] eqn:Hsel;
    [split; [reflexivity|left; reflexivity]|].
  destruct (scanFault env db _); [split; [reflexivity|left; reflexivity]|].
  assert (Hrow : exists row,
             In row (keys db) /\ col_id row = id
             /\ sc_private_key c = col_private_key row).
  { unfold selectById in Hsel.
    destruct (filter (fun r => hasID id r = true) (keys db)) as [|row l] eqn:Hf;
      [discriminate|].
    assert (Hin : row ∈ filter (fun r => hasID id r = true) (keys db))
      by (rewrite Hf; left).
    apply list_elem_of_filter in Hin as [Hid Hin].
    apply list_elem_of_In in Hin. apply String.eqb_eq in Hid.
    cbn in Hsel. injection Hsel as <- _. exists row. auto. }
  destruct Hrow as (row & Hin & Hid & Hpk).
  destruct (Decrypt env (sc_private_key c)); cbn [fst snd];
    (split; [reflexivity|right; exists row; rewrite Hpk; auto]).
Qed.

Lemma signData_signature ty priv data dataType curveName sig :
  signData env ty priv data dataType curveName = Ok sig ->
  signatureBytes env sig.
Proof.
  unfold signData, signWithECDSA, signWithRSA, signWithEd25519, signWithHMAC,
    signatureBytes.
  intros Hres. repeat case_match; simplify_eq; eauto 10.
Qed.

Lemma Sign_returns_signature id data dataType db sig :
  result_of (Sign env id data dataType db) = Ok sig ->
  exists row priv,
    In row (keys db) /\ col_id row = id
    /\ Decrypt env (col_private_key row) = Ok priv
    /\ signData env (col_key_type row) priv data dataType (col_curve row)
       = Ok sig
    /\ signatureBytes env sig.
Proof.
  unfold Sign, result_of.
  destruct (queryFault env db _); [discriminate|].
  unfold selectById.
  destruct (filter (fun r => hasID id r = true) (keys db)) as [|row l] eqn:Hf;
    [discriminate|].
  cbn [fmap list_fmap].
  destruct (scanFault env db _); [discriminate|].
  unfold privateColumns. cbn [sc_private_key sc_key_type sc_curve].
  destruct (Decrypt env (col_private_key row)) as [priv|] eqn:Hopen;
    [|discriminate].
  cbn [fst]. intros Hres.
  assert (Hin : row ∈ filter (fun r => hasID id r = true) (keys db))
    by (rewrite Hf; left).
  apply list_elem_of_filter in Hin as [Hid Hin].
  apply list_elem_of_In in Hin. apply String.eqb_eq in Hid.
  exists row, priv. split; [exact Hin|]. split; [exact Hid|].
  split; [exact Hopen|]. split; [exact Hres|].
  eapply signData_signature. exact Hres.
Qed.

End PrivateKeys.

(** C3.  [Create] and [Import] store and return the private key as the
    encryptor returned it: a successful call has made exactly one
    encryptor call, on the generated (or supplied) private key, followed
    by one INSERT whose [private_key] column is that ciphertext, and
    every INSERT either operation sends carries an output of the
    encryptor.  [GetPublicKey], [List] and [Update] return keys whose
    [PrivateKey] field is empty and change no stored private key.
    Neither these nor [Delete] call [Decrypt]; [Sign] leaves the
    database as it found it and calls [Decrypt] at most once, on the
    stored ciphertext of the key it was asked to sign with; and what a
    successful [Sign] returns is what [signData] made of the decrypted
    key and the data, bytes that one of the signing routines returned,
    not the decrypted key. *)
Theorem private_key_never_plain :
  forall (env : Env),
    (forall name ty curve tags db key,
        result_of (Create env name ty curve tags db) = Ok key ->
        exists c priv pub tagsJSON,
          GenerateKeyPair env ty c = Ok (priv, pub)
          /\ Encrypt env priv = Ok (PrivateKey key)
          /\ PublicKey key = pub
          /\ keys (db_of (Create env name ty curve tags db))
             = keys db
               ++ [MkKeyRow (ID key) name ty (curveNameOf c) tagsJSON (now env)
                     (PrivateKey key) pub]
          /\ calls_of (Create env name ty curve tags db)
             = [Encrypted priv;
                Executed
                  (InsertKey
                     (MkKeyRow (ID key) name ty (curveNameOf c) tagsJSON
                        (now env) (PrivateKey key) pub))])
    /\ (forall name ty curve priv pub tags db key,
          result_of (Import env name ty curve priv pub tags db) = Ok key ->
          exists c tagsJSON,
            Encrypt env priv = Ok (PrivateKey key)
            /\ PublicKey key = pub
            /\ keys (db_of (Import env name ty curve priv pub tags db))
               = keys db
                 ++ [MkKeyRow (ID key) name ty (curveNameOf c) tagsJSON (now env)
                       (PrivateKey key) pub]
            /\ calls_of (Import env name ty curve priv pub tags db)
               = [Encrypted priv;
                  Executed
                    (InsertKey
                       (MkKeyRow (ID key) name ty (curveNameOf c) tagsJSON
                          (now env) (PrivateKey key) pub))])
    /\ (forall name ty curve tags db,
          Forall (writesCiphertext env)
            (calls_of (Create env name ty curve tags db))
          /\ existsb isDecrypted (calls_of (Create env name ty curve tags db))
             = false)
    /\ (forall name ty curve priv pub tags db,
          Forall (writesCiphertext env)
            (calls_of (Import env name ty curve priv pub tags db))
          /\ existsb isDecrypted
               (calls_of (Import env name ty curve priv pub tags db)) = false)
    /\ (forall id db,
          db_of (GetPublicKey env id db) = db
          /\ calls_of (GetPublicKey env id db) = [Queried (SelectPublic id)]
          /\ forall key,
              result_of (GetPublicKey env id db) = Ok key -> PrivateKey key = [])
    /\ (forall limit token db,
          db_of (List_ env limit token db) = db
          /\ existsb isDecrypted (calls_of (List_ env limit token db)) = false
          /\ forall page,
              result_of (List_ env limit token db) = Ok page ->
              Forall (fun k => PrivateKey k = []) (PageItems page))
    /\ (forall id name tags db,
          map col_private_key (keys (db_of (Update env id name tags db)))
          = map col_private_key (keys db)
          /\ existsb isDecrypted (calls_of (Update env id name tags db)) = false
          /\ forall key,
              result_of (Update env id name tags db) = Ok key ->
              PrivateKey key = [])
    /\ (forall id db, existsb isDecrypted (calls_of (Delete env id db)) = false)
    /\ (forall id data dataType db,
          db_of (Sign env id data dataType db) = db
          /\ (calls_of (Sign env id data dataType db)
              = [Queried (SelectPrivate id)]
              \/ exists row,
                  In row (keys db) /\ col_id row = id
                  /\ calls_of (Sign env id data dataType db)
                     = [Queried (SelectPrivate id);
                        Decrypted (col_private_key row)]))
    /\ (forall id data dataType db sig,
          result_of (Sign env id data dataType db) = Ok sig ->
          exists row priv,
            In row (keys db) /\ col_id row = id
            /\ Decrypt env (col_private_key row) = Ok priv
            /\ signData env (col_key_type row) priv data dataType
                 (col_curve row) = Ok sig
            /\ signatureBytes env sig).
Proof.
  intros env.
  split; [intros; apply Create_ok; assumption|].
  split; [intros; apply Import_ok; assumption|].
  split; [intros; apply Create_writes|].
  split; [intros; apply Import_writes|].
  split; [intros; apply GetPublicKey_public|].
  split; [intros; apply List_public|].
  split; [intros; apply Update_private|].
  split; [intros; apply Delete_no_decrypt|].
  split; [intros; apply Sign_decrypts_once|].
  intros id data dataType db sig Hres.
  apply Sign_returns_signature. exact Hres.
Qed.

Lemma private_key_never_plain_witness :
  exists c priv pub tagsJSON,
    GenerateKeyPair KeystoreFixtures.keystoreEnv KeyTypeECDSA c = Ok (priv, pub)
    /\ Encrypt KeystoreFixtures.keystoreEnv priv
       = Ok (PrivateKey KeystoreFixtures.createdKey)
    /\ PublicKey KeystoreFixtures.createdKey = pub
    /\ keys (db_of (Create KeystoreFixtures.keystoreEnv "k" KeyTypeECDSA None
                      None KeystoreFixtures.emptyDB))
       = keys KeystoreFixtures.emptyDB
         ++ [MkKeyRow (ID KeystoreFixtures.createdKey) "k" KeyTypeECDSA
               (curveNameOf c) tagsJSON (now KeystoreFixtures.keystoreEnv)
               (PrivateKey KeystoreFixtures.createdKey) pub]
    /\ calls_of (Create KeystoreFixtures.keystoreEnv "k" KeyTypeECDSA None None
                   KeystoreFixtures.emptyDB)
       = [Encrypted priv;
          Executed
            (InsertKey
               (MkKeyRow (ID KeystoreFixtures.createdKey) "k" KeyTypeECDSA
                  (curveNameOf c) tagsJSON (now KeystoreFixtures.keystoreEnv)
                  (PrivateKey KeystoreFixtures.createdKey) pub))].
Proof.
  apply (proj1 (private_key_never_plain KeystoreFixtures.keystoreEnv)
           "k" KeyTypeECDSA None None KeystoreFixtures.emptyDB
           KeystoreFixtures.createdKey).
  reflexivity.
Defined.

End KeystoreFacts.

(** ** The secp256k1 group law *)

Module Secp256k1Facts.
Import Secp256k1.

Section Inverse.
Variable n : Z.
Hypothesis Hn : 2 <= n.

Lemma ModInverse_Some g z :
  ModInverse g n = Some z -> 0 <= z < n /\ (z * g) mod n = 1.
Proof.
  unfold ModInverse. destruct (Z.eqb_spec (Z.gcd g n) 1) as [Hg|]; [|discriminate].
  intros [= <-]. split.
  - rewrite <- Z.mod_invmod. apply Z.mod_pos_bound. lia.
  - apply Z.invmod_coprime; assumption.
Qed.

Lemma inverse_coprime g z : (z * g) mod n = 1 -> Z.gcd g n = 1.
Proof.
  intros H. apply Z.bezout_1_gcd. exists z, (- ((z * g) / n)).
  pose proof (Z.div_mod (z * g) n ltac:(lia)) as Hd. lia.
Qed.

Lemma inverse_unique g z z' :
  0 <= z < n -> 0 <= z' < n ->
  (z * g) mod n = 1 -> (z' * g) mod n = 1 -> z = z'.
Proof.
  intros Hz Hz' H H'.
  assert (E : z mod n = z' mod n).
  { transitivity ((z * (z' * g)) mod n).
    - rewrite <- Z.mul_mod_idemp_r, H' by lia. f_equal. lia.
    - replace (z * (z' * g)) with (z' * (z * g)) by ring.
      rewrite <- Z.mul_mod_idemp_r, H by lia. f_equal. lia. }
  rewrite !Z.mod_small in E by lia. exact E.
Qed.

Lemma ModInverse_complete g z :
  0 <= z < n -> (z * g) mod n = 1 -> ModInverse g n = Some z.
Proof.
  intros Hz H. pose proof (inverse_coprime _ _ H) as Hg.
  destruct (ModInverse g n) as [z'|] eqn:E.
  - destruct (ModInverse_Some _ _ E) as [Hz' H'].
    f_equal. eapply inverse_unique; eauto.
  - unfold ModInverse in E. rewrite Hg in E. discriminate.
Qed.

(** The inverse of the opposite is the opposite of the inverse. *)
Lemma ModInverse_opp a b :
  a mod n = (- b) mod n ->
  ModInverse a n = option_map (fun z => (- z) mod n) (ModInverse b n).
Proof.
  assert (Hstep : forall a b z,
             a mod n = (- b) mod n -> ModInverse b n = Some z ->
             ModInverse a n = Some ((- z) mod n)).
  { clear a b. intros a b z Hab E.
    destruct (ModInverse_Some _ _ E) as [Hz H].
    apply ModInverse_complete; [apply Z.mod_pos_bound; lia|].
    rewrite Z.mul_mod_idemp_l by lia.
    rewrite <- Z.mul_mod_idemp_r, Hab, Z.mul_mod_idemp_r by lia.
    replace (- z * - b) with (z * b) by ring. exact H. }
  intros Hab. destruct (ModInverse b n) as [z|] eqn:E; cbn.
  - eapply Hstep; eauto.
  - destruct (ModInverse a n) as [w|] eqn:E'; [|reflexivity].
    assert (Hba : b mod n = (- a) mod n).
    { apply Z.cong_iff_ex. apply Z.cong_iff_ex in Hab as [k Hk].
      exists k. lia. }
    rewrite (Hstep _ _ _ Hba E') in E. discriminate.
Qed.

(** The chord through two points has one slope, whichever point comes
    first, and leads to one third point. *)
Lemma slope_symmetric (z y1 y2 : Z) :
  (((y1 - y2) mod n) * ((- z) mod n)) mod n
  = (((y2 - y1) mod n) * z) mod n.
Proof.
  rewrite Z.mul_mod_idemp_l, Z.mul_mod_idemp_r by lia.
  rewrite Z.mul_mod_idemp_l by lia. f_equal. ring.
Qed.

Lemma chord_symmetric z x1 y1 x2 y2 x3 :
  (z * ((x2 - x1) mod n)) mod n = 1 ->
  let lambda := (((y2 - y1) mod n) * z) mod n in
  (lambda * (x2 - x3) - y2) mod n = (lambda * (x1 - x3) - y1) mod n.
Proof.
  intros Hz lambda. apply Z.cong_iff_ex.
  pose proof (Z.div_mod (x2 - x1) n ltac:(lia)) as Hdx.
  pose proof (Z.div_mod (y2 - y1) n ltac:(lia)) as Hdy.
  pose proof (Z.div_mod (z * ((x2 - x1) mod n)) n ltac:(lia)) as Hq.
  pose proof (Z.div_mod (((y2 - y1) mod n) * z) n ltac:(lia)) as Hl.
  fold lambda in Hl. rewrite Hz in Hq.
  set (dx := (x2 - x1) mod n) in *. set (dy := (y2 - y1) mod n) in *.
  set (q1 := (x2 - x1) / n) in *. set (q2 := (y2 - y1) / n) in *.
  set (q3 := (z * dx) / n) in *. set (q4 := (dy * z) / n) in *.
  exists (dy * q3 + dy * z * q1 - q4 * (x2 - x1) - q2).
  assert (E : dy * (z * dx) = dy * (n * q3 + 1)) by (rewrite Hq; reflexivity).
  assert (Ea : x2 - x3 - (x1 - x3) = n * q1 + dx) by lia.
  replace (lambda * (x2 - x3) - y2 - (lambda * (x1 - x3) - y1))
    with (lambda * (x2 - x3 - (x1 - x3)) - (y2 - y1)) by ring.
  rewrite Ea, Hdy.
  replace lambda with (dy * z - n * q4) by lia.
  replace (x2 - x1) with (n * q1 + dx) by lia.
  ring_simplify. ring_simplify in E. lia.
Qed.

End Inverse.

Lemma P_ge_2 : 2 <= P.
Proof. vm_compute. discriminate. Qed.

Lemma P_odd y : y + y <> P.
Proof.
  intros H. assert (E : (y + y) mod 2 = P mod 2) by (rewrite H; reflexivity).
  replace (y + y) with (y * 2) in E by ring.
  rewrite Z.mod_mul in E by lia. vm_compute in E. discriminate.
Qed.

Lemma IsOnCurve_range x y :
  IsOnCurve x y = true ->
  0 <= x < P /\ 0 <= y < P /\ ~ (x = 0 /\ y = 0).
Proof.
  unfold IsOnCurve.
  destruct (Z.leb_spec 0 x), (Z.ltb_spec x P), (Z.leb_spec 0 y),
    (Z.ltb_spec y P); cbn; try discriminate.
  destruct (Z.eqb_spec x 0), (Z.eqb_spec y 0); cbn; try discriminate;
    intros _; lia.
Qed.

(** The test vectors of the curve's tests. *)
Example base_point_on_curve : IsOnCurve Gx Gy = true.
Proof. vm_compute. reflexivity. Qed.

Example double_base_point : Double Gx Gy = Some (doubleX, doubleY).
Proof. vm_compute. reflexivity. Qed.

Example add_point_to_its_inverse : Add Gx Gy Gx (P - Gy) = Some (0, 0).
Proof. vm_compute. reflexivity. Qed.

Example triple_base_point :
  Add doubleX doubleY Gx Gy
  = Some
      (112711660439710606056748659173929673102114977341539408544630613555209775888121,
       25583027980570883691656905877401976406448868254816295069919888960541586679410).
Proof. vm_compute. reflexivity. Qed.

Example add_same_x_opposite_y : Add 42 10 42 (P - 10) = Some (0, 0).
Proof. vm_compute. reflexivity. Qed.

Example double_with_zero_y : Double 1 0 = Some (0, 0).
Proof. reflexivity. Qed.

Example double_infinity : Double 0 0 = Some (0, 0).
Proof. reflexivity. Qed.

(** Without the guards the formulas ask for the inverse of zero, which
    does not exist: the case the tests provoke with [addUnsafe] and
    [doubleUnsafe]. *)
Example chord_of_equal_x_fails : addFormula 42 10 42 11 = None.
Proof. vm_compute. reflexivity. Qed.

Example tangent_at_zero_y_fails : doubleFormula 42 0 = None.
Proof. vm_compute. reflexivity. Qed.

(** The chord formula does not depend on the order of the two points. *)
Lemma addFormula_comm x1 y1 x2 y2 :
  addFormula x1 y1 x2 y2 = addFormula x2 y2 x1 y1.
Proof.
  pose proof P_ge_2 as HP.
  unfold addFormula.
  rewrite (ModInverse_opp P HP ((x1 - x2) mod P) ((x2 - x1) mod P)).
  2:{ rewrite Z.mod_mod by lia. apply Z.cong_iff_ex.
      pose proof (Z.div_mod (x2 - x1) P ltac:(lia)) as Hd.
      exists (- ((x2 - x1) / P)). lia. }
  destruct (ModInverse ((x2 - x1) mod P) P) as [z|] eqn:E;
    cbn [option_map]; [|reflexivity].
  destruct (ModInverse_Some P HP _ _ E) as [Hz Hinv].
  rewrite (slope_symmetric P HP).
  set (lambda := (((y2 - y1) mod P) * z) mod P).
  replace (lambda * lambda - x2 - x1) with (lambda * lambda - x1 - x2) by ring.
  f_equal. f_equal. symmetry.
  apply (chord_symmetric P HP z x1 y1 x2 y2). exact Hinv.
Qed.

Lemma Add_comm x1 y1 x2 y2 : Add x1 y1 x2 y2 = Add x2 y2 x1 y1.
Proof.
  unfold Add.
  destruct (Z.eqb_spec x1 0), (Z.eqb_spec y1 0), (Z.eqb_spec x2 0),
    (Z.eqb_spec y2 0), (Z.eqb_spec x1 x2), (Z.eqb_spec x2 x1),
    (Z.eqb_spec y1 y2), (Z.eqb_spec y2 y1),
    (Z.eqb_spec (y1 + y2) P), (Z.eqb_spec (y2 + y1) P);
    cbn [andb]; subst; try reflexivity; try lia; try congruence;
    apply addFormula_comm.
Qed.

(** C9.  For a point (x, y) on the curve: adding the point at infinity
    (0,0) on either side returns the point; adding the point to itself
    is [Double]; adding a point of the curve with the same x whose y
    sums with y to p returns (0,0); and [Add] gives the same result
    whichever argument comes first (a result is [None] when the Go code
    would fail on a nil inverse). *)
Theorem Add_laws :
  forall x y : Z,
    IsOnCurve x y = true ->
    Add x y 0 0 = Some (x, y)
    /\ Add 0 0 x y = Some (x, y)
    /\ Add x y x y = Double x y
    /\ (forall y', IsOnCurve x y' = true -> y + y' = P ->
                   Add x y x y' = Some (0, 0))
    /\ (forall x2 y2, Add x y x2 y2 = Add x2 y2 x y).
Proof.
  intros x y Hon. destruct (IsOnCurve_range _ _ Hon) as (Hx & Hy & Hinf).
  assert (Hfirst : (x =? 0) && (y =? 0) = false).
  { destruct (Z.eqb_spec x 0), (Z.eqb_spec y 0); cbn; try reflexivity. lia. }
  split; [|split; [|split; [|split]]].
  - unfold Add. rewrite Hfirst. reflexivity.
  - reflexivity.
  - unfold Add. rewrite Hfirst, !Z.eqb_refl. reflexivity.
  - intros y' Hon' Hsum.
    destruct (IsOnCurve_range _ _ Hon') as (_ & Hy' & Hinf').
    assert (Hsecond : (x =? 0) && (y' =? 0) = false).
    { destruct (Z.eqb_spec x 0), (Z.eqb_spec y' 0); cbn; try reflexivity. lia. }
    assert (Hne : (y =? y') = false).
    { apply Z.eqb_neq. intros ->. exact (P_odd _ Hsum). }
    unfold Add. rewrite Hfirst, Hsecond, Z.eqb_refl, Hne. cbn [andb].
    apply Z.eqb_eq in Hsum. rewrite Hsum. reflexivity.
  - intros x2 y2. apply Add_comm.
Qed.

Lemma Add_laws_witness :
  Add Gx Gy 0 0 = Some (Gx, Gy)
  /\ Add 0 0 Gx Gy = Some (Gx, Gy)
  /\ Add Gx Gy Gx Gy = Double Gx Gy
  /\ Add Gx Gy Gx (P - Gy) = Some (0, 0)
  /\ Add Gx Gy doubleX doubleY = Add doubleX doubleY Gx Gy.
Proof.
  destruct (Add_laws Gx Gy) as (H1 & H2 & H3 & H4 & H5).
  - vm_compute. reflexivity.
  - split; [exact H1|]. split; [exact H2|]. split; [exact H3|].
    split; [|apply H5].
    apply H4; [vm_compute; reflexivity|lia].
Defined.

End Secp256k1Facts.

(** ** More on the history engine *)

Module HistoryMore.
Import History HistoryObs HistoryMoreObs HistoryFacts.

(** *** Monitoring and unmonitoring *)

(** X1.  [MonitorAddress] of an address that is not monitored stores it
    under its key with the given start block: [getStartBlock] then
    returns that block without a warning, and the first request of the
    next pass over the address asks for transactions from that block.
    No other entry, the channel and the repository are touched. *)
Theorem MonitorAddress_then_read :
  forall (R : Type) (env : Env R) (s : historyService R)
         (address : Address) (startBlockNumber : Z),
    syncAddresses s !! deriveAddressKey env address = None ->
    let s' := state_of (MonitorAddress env address startBlockNumber s) in
    getStartBlock env address s' = ((startBlockNumber, s'), [])
    /\ (forall k, k <> deriveAddressKey env address ->
                  syncAddresses s' !! k = syncAddresses s !! k)
    /\ historyEventsChan s' = historyEventsChan s
    /\ repository s' = repository s
    /\ (forall explorer,
          NewExplorer (blockExplorerFactory env) (ChainType address)
          = Ok explorer ->
          hd_error (requestsOf (trace_of (syncTransactionsForAddress env address s')))
          = Some (Request (ChainType address) (ToChecksum env address)
                    (MkOptions TxTypeNormal (Int64 startBlockNumber) 9000) "")).
Proof.
  intros R env s a b Hnone s'.
  assert (Hs' : syncAddresses s' !! deriveAddressKey env a
                = Some (MkSyncInfo a b)).
  { unfold s', MonitorAddress, state_of. rewrite Hnone. cbn.
    apply lookup_insert_eq. }
  split; [|split; [|split; [|split]]].
  - unfold getStartBlock. rewrite Hs'. reflexivity.
  - intros k Hk. unfold s', MonitorAddress, state_of. rewrite Hnone. cbn.
    apply lookup_insert_ne. congruence.
  - unfold s', MonitorAddress, state_of. rewrite Hnone. reflexivity.
  - unfold s', MonitorAddress, state_of. rewrite Hnone. reflexivity.
  - intros ex Hex. rewrite pass_requests, (byType_requests _ _ _ _ _ Hex).
    cbn [app hd_error]. unfold optionsFor.
    rewrite (getStartBlock_value _ _ _ _ Hs'). reflexivity.
Qed.

Import HistoryFixtures HistoryMoreFixtures.

Lemma MonitorAddress_then_read_witness :
  let env := fixtureEnv oneAtSeven false in
  let s' := state_of (MonitorAddress env addrB 42
                        (monitoring [(keyA, MkSyncInfo addrA 100)])) in
  getStartBlock env addrB s' = ((42, s'), [])
  /\ hd_error (requestsOf (trace_of (syncTransactionsForAddress env addrB s')))
     = Some (Request "ethereum" "0xbb" (MkOptions TxTypeNormal (Int64 42) 9000) "").
Proof.
  cbv zeta.
  destruct (MonitorAddress_then_read _ (fixtureEnv oneAtSeven false)
              (monitoring [(keyA, MkSyncInfo addrA 100)]) addrB 42 eq_refl)
    as (H1 & _ & _ & _ & H5).
  split; [exact H1|]. eapply H5. reflexivity.
Defined.

(** X2.  [UnmonitorAddress] removes the entry of the address and no
    other; on an address that is not monitored it changes nothing and
    logs nothing; and unmonitoring an address right after it was first
    monitored gives back the state from before. *)
Theorem UnmonitorAddress_removes :
  forall (R : Type) (env : Env R) (s : historyService R) (address : Address),
    let s' := state_of (UnmonitorAddress env address s) in
    syncAddresses s' !! deriveAddressKey env address = None
    /\ (forall k, k <> deriveAddressKey env address ->
                  syncAddresses s' !! k = syncAddresses s !! k)
    /\ (syncAddresses s !! deriveAddressKey env address = None ->
        UnmonitorAddress env address s = ((None, s), [])
        /\ forall startBlockNumber,
            state_of (UnmonitorAddress env address
                        (state_of (MonitorAddress env address startBlockNumber s)))
            = s).
Proof.
  intros R env s a s'. unfold s', UnmonitorAddress, state_of.
  split; [|split].
  - destruct (syncAddresses s !! deriveAddressKey env a) eqn:E; cbn.
    + apply lookup_delete_eq.
    + exact E.
  - intros k Hk.
    destruct (syncAddresses s !! deriveAddressKey env a) eqn:E; cbn.
    + apply lookup_delete_ne. congruence.
    + reflexivity.
  - intros Hnone. rewrite Hnone. split; [reflexivity|].
    intros b. unfold MonitorAddress. rewrite Hnone. cbn.
    rewrite lookup_insert_eq. cbn.
    rewrite delete_insert_id by exact Hnone. destruct s; reflexivity.
Qed.

Lemma UnmonitorAddress_removes_witness :
  UnmonitorAddress (fixtureEnv oneAtSeven false) addrB
    (monitoring [(keyA, MkSyncInfo addrA 100)])
  = ((None, monitoring [(keyA, MkSyncInfo addrA 100)]), [])
  /\ forall startBlockNumber,
      state_of
        (UnmonitorAddress (fixtureEnv oneAtSeven false) addrB
           (state_of
              (MonitorAddress (fixtureEnv oneAtSeven false) addrB
                 startBlockNumber (monitoring [(keyA, MkSyncInfo addrA 100)]))))
      = monitoring [(keyA, MkSyncInfo addrA 100)].
Proof.
  apply (proj2 (proj2 (UnmonitorAddress_removes _ (fixtureEnv oneAtSeven false)
                         (monitoring [(keyA, MkSyncInfo addrA 100)]) addrB))).
  reflexivity.
Defined.

(** *** What a cycle keeps *)

Section Kept.
Context {R : Type} (env : Env R).

Lemma SameAddresses_refl (s : historyService R) : SameAddresses s s.
Proof. intros k. reflexivity. Qed.

Lemma SameAddresses_trans (s1 s2 s3 : historyService R) :
  SameAddresses s1 s2 -> SameAddresses s2 s3 -> SameAddresses s1 s3.
Proof. intros H12 H23 k. rewrite H23. apply H12. Qed.

Lemma byType_same_addresses a ty s :
  SameAddresses s (state_of (syncTransactionsForAddressByType env a ty s)).
Proof.
  intros k. rewrite byType_sync. unfold syncAfter.
  destruct (fetched env a ty s) as [[page|e]|]; try reflexivity.
  destruct (Items page) as [|first others]; try reflexivity.
  unfold advance.
  destruct (syncAddresses s !! deriveAddressKey env a) as [info|] eqn:E;
    [|reflexivity].
  destruct (decide (deriveAddressKey env a = k)) as [<-|Hne].
  - rewrite lookup_insert_eq, E. reflexivity.
  - rewrite lookup_insert_ne by exact Hne. reflexivity.
Qed.

Lemma pass_same_addresses a s : SameAddresses s (passState env s a).
Proof.
  unfold passState. rewrite pass_state.
  eapply SameAddresses_trans; apply byType_same_addresses.
Qed.

Lemma syncLoop_same_addresses ctxErr l : forall i s,
  SameAddresses s (state_of (syncLoop env ctxErr i l s)).
Proof.
  induction l as [|a l IH]; intros i s; cbn [syncLoop].
  - apply SameAddresses_refl.
  - destruct (ctxErr i); [apply SameAddresses_refl|].
    rewrite !state_of_bind, pass_value. cbn [ret state_of fst snd].
    eapply SameAddresses_trans; [apply (pass_same_addresses a s)|].
    apply IH.
Qed.

End Kept.

(** X3.  A sync cycle never adds, removes or re-addresses a monitored
    address: after the cycle the map has the same keys, each with the
    address it had, whatever the explorer, the repository and the
    cancellation do; and entries stored under the key of their address
    stay so. *)
Theorem cycle_keeps_addresses :
  forall (R : Type) (env : Env R) (ctxErr : nat -> option Vault0Error)
         (addresses : list Address) (s : historyService R),
    let s' := state_of (syncTransactions env ctxErr addresses s) in
    SameAddresses s s'
    /\ dom (syncAddresses s') = dom (syncAddresses s)
    /\ (WellKeyed env s -> WellKeyed env s').
Proof.
  intros R env ctxErr l s s'.
  assert (H : SameAddresses s s').
  { unfold s', syncTransactions. destruct l as [|a l].
    - apply SameAddresses_refl.
    - rewrite state_of_bind. apply syncLoop_same_addresses. }
  split; [exact H|]. split.
  - apply set_eq. intros k. rewrite !elem_of_dom. specialize (H k).
    destruct (syncAddresses s' !! k), (syncAddresses s !! k);
      cbn in H; try discriminate; split; intros [? ?]; eauto; discriminate.
  - intros Hw k info' Hk. specialize (H k). rewrite Hk in H.
    destruct (syncAddresses s !! k) as [info|] eqn:E; [|discriminate].
    cbn in H. injection H as H. rewrite H. eapply Hw. exact E.
Qed.

Lemma monitoring_two_well_keyed :
  WellKeyed (fixtureEnv oneAtSeven false)
    (monitoring [(keyA, MkSyncInfo addrA 0); (keyB, MkSyncInfo addrB 0)]).
Proof.
  intros k info. unfold monitoring. cbn [syncAddresses list_to_map foldr].
  destruct (decide (keyA = k)) as [<-|Ha].
  { rewrite lookup_insert_eq. intros [= <-]. reflexivity. }
  rewrite lookup_insert_ne by exact Ha.
  destruct (decide (keyB = k)) as [<-|Hb].
  { rewrite lookup_insert_eq. intros [= <-]. reflexivity. }
  rewrite lookup_insert_ne, lookup_empty by exact Hb. discriminate.
Qed.

Lemma cycle_keeps_addresses_witness :
  WellKeyed (fixtureEnv oneAtSeven false)
    (state_of
       (syncTransactions (fixtureEnv oneAtSeven false) (fun _ => None)
          [addrA; addrB]
          (monitoring [(keyA, MkSyncInfo addrA 0); (keyB, MkSyncInfo addrB 0)]))).
Proof.
  apply (cycle_keeps_addresses _ (fixtureEnv oneAtSeven false) (fun _ => None)
           [addrA; addrB]
           (monitoring [(keyA, MkSyncInfo addrA 0); (keyB, MkSyncInfo addrB 0)])).
  exact monitoring_two_well_keyed.
Defined.

(** *** A pass over an address that is no longer monitored *)

Lemma Int64_zero : Int64 0 = 0.
Proof. reflexivity. Qed.

(** X4.  When the address of a sub-fetch is not in the map (it was
    unmonitored after the cycle copied the addresses), the sub-fetch
    logs a warning, asks the explorer for transactions from block 0,
    stores and publishes what it gets like any other sub-fetch, and
    records no watermark: the map of monitored addresses is left as it
    was. *)
Theorem subfetch_unmonitored :
  forall (R : Type) (env : Env R) (s : historyService R)
         (address : Address) (txType : TransactionType)
         (explorer : BlockExplorer),
    syncAddresses s !! deriveAddressKey env address = None ->
    NewExplorer (blockExplorerFactory env) (ChainType address) = Ok explorer ->
    let r := syncTransactionsForAddressByType env address txType s in
    requestsOf (trace_of r)
    = [Request (ChainType address) (ToChecksum env address)
         (MkOptions txType 0 9000) ""]
    /\ syncAddresses (state_of r) = syncAddresses s
    /\ In (Log Warn "Address not found in syncAddresses"
             [FString "address" (AddressString env address)]) (trace_of r)
    /\ (forall page first others,
          GetTransactionHistory explorer (ToChecksum env address)
            (MkOptions txType 0 9000) "" = Ok page ->
          Items page = first :: others ->
          state_of r = state_of (forEach (Items page) (processItem env txType) s)).
Proof.
  intros R env s a ty ex Hnone Hex r.
  assert (Hopts : optionsFor env a ty s = MkOptions ty 0 9000).
  { unfold optionsFor, getStartBlock, value_of. rewrite Hnone. reflexivity. }
  split; [|split; [|split]].
  - unfold r. rewrite (byType_requests _ _ _ _ _ Hex), Hopts. reflexivity.
  - unfold r. rewrite byType_sync. unfold syncAfter.
    destruct (fetched env a ty s) as [[page|e]|]; try reflexivity.
    destruct (Items page); try reflexivity.
    unfold advance. rewrite Hnone. reflexivity.
  - unfold r. rewrite (byType_unfold _ _ _ _ _ Hex). cbv zeta.
    assert (Hin : In (Log Warn "Address not found in syncAddresses"
                        [FString "address" (AddressString env a)])
                    (trace_of (getStartBlock env a s))).
    { unfold getStartBlock, trace_of. rewrite Hnone. left. reflexivity. }
    destruct (GetTransactionHistory _ _ _ _) as [page|e];
      [destruct (Items page)|];
      unfold trace_of at 1; cbn [snd]; apply in_or_app; left;
      apply in_or_app; left; exact Hin.
  - intros page first others Hget Hitems. unfold r.
    rewrite (byType_unfold _ _ _ _ _ Hex). cbv zeta.
    rewrite Hopts, Hget, Hitems. unfold state_of at 1. cbn [fst snd].
    unfold setStartBlock, state_of at 1.
    rewrite (preserves_items_sync env ty (first :: others) s), Hnone.
    reflexivity.
Qed.

Lemma subfetch_unmonitored_witness :
  let env := fixtureEnv oneAtSeven false in
  let r := syncTransactionsForAddressByType env addrB TxTypeNormal
             (monitoring [(keyA, MkSyncInfo addrA 100)]) in
  requestsOf (trace_of r)
  = [Request "ethereum" "0xbb" (MkOptions TxTypeNormal 0 9000) ""]
  /\ syncAddresses (state_of r)
     = syncAddresses (monitoring [(keyA, MkSyncInfo addrA 100)]).
Proof.
  cbv zeta.
  destruct (subfetch_unmonitored _ (fixtureEnv oneAtSeven false)
              (monitoring [(keyA, MkSyncInfo addrA 100)]) addrB TxTypeNormal
              (MkExplorer (fun address options _ => oneAtSeven address options))
              eq_refl eq_refl)
    as (H1 & H2 & _).
  split; [exact H1|exact H2].
Defined.

(** *** The channel over a cycle *)

Section ChannelGrowth.
Context {R : Type} (env : Env R).

Lemma ChanExtends_refl (s : historyService R) : ChanExtends s s.
Proof. split; [exists []; rewrite app_nil_r; reflexivity|auto]. Qed.

Lemma ChanExtends_trans (s1 s2 s3 : historyService R) :
  ChanExtends s1 s2 -> ChanExtends s2 s3 -> ChanExtends s1 s3.
Proof.
  intros [[e1 H1] B1] [[e2 H2] B2]. split.
  - exists (e1 ++ e2). rewrite H2, H1, app_assoc. reflexivity.
  - auto.
Qed.

Lemma ChanExtends_same (s s' : historyService R) :
  historyEventsChan s' = historyEventsChan s -> ChanExtends s s'.
Proof.
  intros H. split; [exists []; rewrite app_nil_r; exact H|].
  rewrite H. auto.
Qed.

Lemma extending_ret {A} (a : A) : Extending (R:=R) (ret a).
Proof. intros s. apply ChanExtends_refl. Qed.

Lemma extending_bind {A B} (m : M R A) (k : A -> M R B) :
  Extending m -> (forall a, Extending (k a)) -> Extending (bind m k).
Proof.
  intros Hm Hk s. rewrite state_of_bind.
  eapply ChanExtends_trans; [apply Hm|apply Hk].
Qed.

Lemma extending_preserves {A} (m : M R A) :
  Preserves (@historyEventsChan R) m -> Extending m.
Proof. intros H s. apply ChanExtends_same. apply H. Qed.

Lemma extending_emitLog lvl msg fields :
  Extending (R:=R) (emitLog lvl msg fields).
Proof. apply extending_preserves. apply preserves_emitLog. Qed.

Lemma extending_forEach {A} (l : list A) (body : A -> M R unit) :
  (forall x, Extending (body x)) -> Extending (forEach l body).
Proof.
  intros Hb. induction l as [|x l IH]; simpl.
  - apply extending_ret.
  - apply extending_bind; auto.
Qed.

Lemma extending_publish ev : Extending (R:=R) (publish ev).
Proof.
  intros s. unfold publish, historyEventsChanCap, state_of.
  destruct (Nat.ltb_spec (length (historyEventsChan s)) 100) as [Hlt|Hge];
    cbn [fst snd].
  - split; [exists [ev]; reflexivity|].
    intros _. cbn. rewrite length_app. cbn. lia.
  - apply ChanExtends_refl.
Qed.

Lemma extending_upsert t st ex : Extending (upsertAndEmit env t st ex).
Proof.
  unfold upsertAndEmit. destruct ex as [e|];
    (apply extending_bind;
     [apply extending_preserves; intros s; reflexivity|];
     intros [err|]; [apply extending_emitLog|];
     apply extending_bind; [apply extending_emitLog|];
     intros _; apply extending_publish).
Qed.

Lemma extending_processItem ty item : Extending (processItem env ty item).
Proof.
  unfold processItem.
  destruct (Apply _ item) as [t|]; [|apply extending_emitLog].
  apply extending_bind.
  - destruct (isERC20 ty);
      [apply extending_preserves, preserves_isValid|apply extending_ret].
  - intros valid. destruct (negb valid); [apply extending_ret|].
    destruct (FromCoreTransaction env t) as [st|]; [|apply extending_emitLog].
    apply extending_bind;
      [apply extending_preserves; intros s; reflexivity|].
    intros found. destruct (lookupFailed env _); [apply extending_emitLog|].
    apply extending_upsert.
Qed.

Lemma extending_byType a ty :
  Extending (syncTransactionsForAddressByType env a ty).
Proof.
  intros s.
  destruct (NewExplorer (blockExplorerFactory env) (ChainType a))
    as [ex|e0] eqn:Hex.
  - rewrite (byType_unfold _ _ _ _ _ Hex). cbv zeta.
    destruct (GetTransactionHistory _ _ _ _) as [page|e];
      [|apply ChanExtends_refl].
    destruct (Items page) as [|first others]; [apply ChanExtends_refl|].
    unfold state_of at 1. cbn [fst snd].
    eapply ChanExtends_trans.
    + apply (extending_forEach (first :: others) _ (extending_processItem ty)).
    + apply ChanExtends_same. apply setStartBlock_chan.
  - rewrite (byType_no_explorer _ _ _ _ _ Hex). apply ChanExtends_refl.
Qed.

Lemma extending_pass a s : ChanExtends s (passState env s a).
Proof.
  unfold passState. rewrite pass_state.
  eapply ChanExtends_trans; apply extending_byType.
Qed.

Lemma extending_syncLoop ctxErr l : forall i,
  Extending (syncLoop env ctxErr i l).
Proof.
  induction l as [|a l IH]; intros i s; cbn [syncLoop].
  - apply ChanExtends_refl.
  - destruct (ctxErr i); [apply ChanExtends_refl|].
    rewrite !state_of_bind, pass_value. cbn [ret state_of fst snd].
    eapply ChanExtends_trans; [apply (extending_pass a s)|apply IH].
Qed.

End ChannelGrowth.

(** X5.  Over a whole sync cycle the event channel is only appended to:
    the events buffered before the cycle are still there, in order, at
    the front; and if the channel held at most 100 events before the
    cycle it holds at most 100 after it. *)
Theorem cycle_extends_channel :
  forall (R : Type) (env : Env R) (ctxErr : nat -> option Vault0Error)
         (addresses : list Address) (s : historyService R),
    let s' := state_of (syncTransactions env ctxErr addresses s) in
    (exists events, historyEventsChan s' = historyEventsChan s ++ events)
    /\ ((length (historyEventsChan s) <= 100)%nat ->
        (length (historyEventsChan s') <= 100)%nat).
Proof.
  intros R env ctxErr l s s'. unfold s', syncTransactions.
  destruct l as [|a l].
  - apply ChanExtends_refl.
  - rewrite state_of_bind. apply extending_syncLoop.
Qed.

Lemma cycle_extends_channel_witness :
  (length
     (historyEventsChan
        (state_of
           (syncTransactions (fixtureEnv normalThenToken false) (fun _ => None)
              [addrA] (monitoring [(keyA, MkSyncInfo addrA 100)]))))
   <= 100)%nat.
Proof.
  apply (cycle_extends_channel _ (fixtureEnv normalThenToken false)
           (fun _ => None) [addrA] (monitoring [(keyA, MkSyncInfo addrA 100)])).
  cbn. lia.
Defined.

(** *** Items that never reach the repository *)

Section Dropped.
Context {R : Type} (env : Env R).

Lemma preserves_state_isValid t s :
  state_of (isValidERC20Token env t s) = s.
Proof. apply (preserves_isValid env (fun x => x) t s). Qed.

Lemma isValid_unknown t s :
  unknownToken env t ->
  value_of (isValidERC20Token env t s) = false
  /\ state_of (isValidERC20Token env t s) = s.
Proof.
  unfold unknownToken, isValidERC20Token.
  destruct (Metadata t !! _) as [tok|]; [|intros _; split; reflexivity].
  destruct (GetToken _ tok) as [[token|] [e|]]; intros H; try contradiction;
    try (destruct (IsError env e _)); split; reflexivity.
Qed.

Lemma processItem_dropped ty item s :
  dropped env ty item -> state_of (processItem env ty item s) = s.
Proof.
  unfold dropped, processItem.
  destruct (Apply _ item) as [t|]; [|reflexivity].
  intros [[-> Hunk]|Hconv].
  - cbn [isERC20]. rewrite state_of_bind.
    destruct (isValid_unknown t s Hunk) as [-> ->]. reflexivity.
  - rewrite state_of_bind.
    assert (Hst : state_of ((if isERC20 ty then isValidERC20Token env t
                             else ret true) s) = s).
    { destruct (isERC20 ty); [apply preserves_state_isValid|reflexivity]. }
    rewrite Hst.
    destruct (negb _); [reflexivity|]. rewrite Hconv. reflexivity.
Qed.

Lemma forEach_dropped ty items : forall s,
  Forall (dropped env ty) items ->
  state_of (forEach items (processItem env ty) s) = s.
Proof.
  induction items as [|x items IH]; intros s H; [reflexivity|].
  apply Forall_cons in H as [Hx H]. cbn [forEach].
  rewrite state_of_bind, (processItem_dropped _ _ _ Hx). apply IH. exact H.
Qed.

End Dropped.

(** X8.  A returned transaction that the transformer vetoes, that
    cannot be converted to the service model or, in an ERC20 sub-fetch,
    whose token is not recognised by the token store is neither stored
    nor published: the loop body leaves the state as it found it.  A
    sub-fetch whose page holds only such transactions changes nothing
    but the watermark, which it still moves past them. *)
Theorem dropped_items_leave_no_trace :
  forall (R : Type) (env : Env R) (s : historyService R),
    (forall txType item,
        dropped env txType item ->
        state_of (processItem env txType item s) = s)
    /\ (forall address txType page first others,
          fetched env address txType s = Some (Ok page) ->
          Items page = first :: others ->
          Forall (dropped env txType) (Items page) ->
          state_of (syncTransactionsForAddressByType env address txType s)
          = state_of
              (setStartBlock env address
                 (BlockNumber (List.last others first) + 1) s)).
Proof.
  intros R env s. split.
  - intros ty item. apply processItem_dropped.
  - intros a ty page first others Hf Hitems Hall.
    apply fetched_explorer in Hf as (ex & Hex & Hget).
    rewrite (byType_unfold _ _ _ _ _ Hex). cbv zeta.
    rewrite Hget, Hitems. unfold state_of at 1. cbn [fst snd].
    rewrite <- Hitems, (forEach_dropped env ty _ s Hall). reflexivity.
Qed.

Lemma dropped_items_leave_no_trace_witness :
  let env := fixtureEnv tokenless false in
  let s := monitoring [(keyA, MkSyncInfo addrA 0)] in
  state_of (syncTransactionsForAddressByType env addrA TxTypeERC20 s)
  = state_of (setStartBlock env addrA (9 + 1) s).
Proof.
  cbv zeta.
  apply (proj2 (dropped_items_leave_no_trace _ (fixtureEnv tokenless false)
                  (monitoring [(keyA, MkSyncInfo addrA 0)]))
           addrA TxTypeERC20 (MkPage [tx "0x05" 9]) (tx "0x05" 9) []).
  - reflexivity.
  - reflexivity.
  - constructor; [|constructor].
    left. split; [reflexivity|exact I].
Defined.

(** *** Cancellation *)

Section Cancelled.
Context {R : Type} (env : Env R).

Lemma syncLoop_step ctxErr i a l s :
  ctxErr i = None ->
  state_of (syncLoop env ctxErr i (a :: l) s)
  = state_of (syncLoop env ctxErr (S i) l (passState env s a))
  /\ requestsOf (trace_of (syncLoop env ctxErr i (a :: l) s))
     = requestsOf (trace_of (syncTransactionsForAddress env a s))
       ++ requestsOf (trace_of (syncLoop env ctxErr (S i) l (passState env s a))).
Proof.
  intros Hc. cbn [syncLoop]. rewrite Hc. split.
  - rewrite !state_of_bind, pass_value. reflexivity.
  - rewrite !trace_of_bind, !requestsOf_app, pass_value.
    cbn [ret trace_of snd requestsOf List.filter app]. reflexivity.
Qed.

Lemma syncLoop_cancelled ctxErr e l : forall n i s,
  (forall j, (j < n)%nat -> ctxErr (i + j)%nat = None) ->
  ctxErr (i + n)%nat = Some e ->
  (n < length l)%nat ->
  state_of (syncLoop env ctxErr i l s)
  = state_of (syncLoop env (fun _ => None) 0 (take n l) s)
  /\ requestsOf (trace_of (syncLoop env ctxErr i l s))
     = requestsOf (trace_of (syncLoop env (fun _ => None) 0 (take n l) s))
  /\ In (Log Info "Transaction history sync cycle interrupted" [FError e])
        (trace_of (syncLoop env ctxErr i l s)).
Proof.
  induction l as [|a l IH]; intros n i s Hbefore Hat Hlen; [cbn in Hlen; lia|].
  destruct n as [|n].
  - rewrite Nat.add_0_r in Hat. cbn [take syncLoop]. rewrite Hat.
    repeat split. left. reflexivity.
  - assert (Hi : ctxErr i = None).
    { rewrite <- (Nat.add_0_r i). apply Hbefore. lia. }
    destruct (syncLoop_step ctxErr i a l s Hi) as [Hs Hr].
    destruct (syncLoop_step (fun _ => None) 0 a (take n l) s eq_refl)
      as [Hs' Hr'].
    cbn [take]. rewrite Hs, Hr, Hs', Hr'.
    destruct (IH n (S i) (passState env s a)) as (H1 & H2 & H3).
    + intros j Hj. replace (S i + j)%nat with (i + S j)%nat by lia.
      apply Hbefore. lia.
    + replace (S i + n)%nat with (i + S n)%nat by lia. exact Hat.
    + cbn in Hlen. lia.
    + assert (Hstate0 : forall k l0 s0,
                 state_of (syncLoop env (fun _ => None) k l0 s0)
                 = state_of (syncLoop env (fun _ => None) 0 l0 s0)).
      { intros k l0 s0. rewrite !syncLoop_state by reflexivity. reflexivity. }
      assert (Hreq0 : forall l0 k s0,
                 requestsOf (trace_of (syncLoop env (fun _ => None) k l0 s0))
                 = requestsOf (trace_of (syncLoop env (fun _ => None) 0 l0 s0))).
      { induction l0 as [|b l0 IH0]; intros k s0; [reflexivity|].
        destruct (syncLoop_step (fun _ => None) k b l0 s0 eq_refl) as [_ ->].
        destruct (syncLoop_step (fun _ => None) 0 b l0 s0 eq_refl) as [_ ->].
        rewrite (IH0 (S k)), (IH0 1%nat). reflexivity. }
      rewrite (Hstate0 1%nat), (Hreq0 _ 1%nat), H1, H2.
      repeat split.
      cbn [syncLoop]. rewrite Hi. rewrite !trace_of_bind.
      apply in_or_app. right. apply in_or_app. right. exact H3.
Qed.

End Cancelled.

(** X6.  If the context is first found cancelled when the loop reaches
    address number [n] of the copied addresses, the cycle stops there:
    it leaves the state, and has sent the explorer the requests, of a
    complete cycle over the first [n] addresses alone, and it logs the
    interruption; the addresses from number [n] on are not visited. *)
Theorem cycle_cancelled :
  forall (R : Type) (env : Env R) (ctxErr : nat -> option Vault0Error)
         (e : Vault0Error) (addresses : list Address)
         (s : historyService R) (n : nat),
    (forall j, (j < n)%nat -> ctxErr j = None) ->
    ctxErr n = Some e ->
    (n < length addresses)%nat ->
    state_of (syncTransactions env ctxErr addresses s)
    = state_of (syncTransactions env (fun _ => None) (take n addresses) s)
    /\ requestsOf (trace_of (syncTransactions env ctxErr addresses s))
       = requestsOf
           (trace_of (syncTransactions env (fun _ => None) (take n addresses) s))
    /\ In (Log Info "Transaction history sync cycle interrupted" [FError e])
          (trace_of (syncTransactions env ctxErr addresses s)).
Proof.
  intros R env ctxErr e l s n Hbefore Hat Hlen.
  destruct (syncLoop_cancelled env ctxErr e l n 0 s) as (H1 & H2 & H3);
    [exact Hbefore|exact Hat|exact Hlen|].
  destruct l as [|a l]; [cbn in Hlen; lia|].
  unfold syncTransactions at 1 3 5.
  rewrite state_of_bind, !trace_of_bind, requestsOf_app.
  cbn [emitLog state_of value_of trace_of fst snd requestsOf List.filter
       isRequest app].
  change (List.filter isRequest) with requestsOf.
  rewrite H1, H2.
  split; [|split].
  - unfold syncTransactions. destruct n as [|n]; [reflexivity|].
    cbn [take]. rewrite state_of_bind. reflexivity.
  - unfold syncTransactions. destruct n as [|n]; [reflexivity|].
    cbn [take]. rewrite trace_of_bind, requestsOf_app. reflexivity.
  - right. exact H3.
Qed.

Lemma cycle_cancelled_witness :
  let env := fixtureEnv oneAtSeven false in
  let s := monitoring [(keyA, MkSyncInfo addrA 0); (keyB, MkSyncInfo addrB 0)] in
  state_of (syncTransactions env cancelledAtOne [addrA; addrB] s)
  = state_of (syncTransactions env (fun _ => None) [addrA] s)
  /\ requestsOf (trace_of (syncTransactions env cancelledAtOne [addrA; addrB] s))
     = requestsOf (trace_of (syncTransactions env (fun _ => None) [addrA] s)).
Proof.
  cbv zeta.
  destruct (cycle_cancelled _ (fixtureEnv oneAtSeven false) cancelledAtOne
              (MkError "" "context canceled") [addrA; addrB]
              (monitoring [(keyA, MkSyncInfo addrA 0); (keyB, MkSyncInfo addrB 0)])
              1%nat) as (H1 & H2 & _).
  - intros j Hj. assert (j = 0)%nat as -> by lia. reflexivity.
  - reflexivity.
  - cbn. lia.
  - split; [exact H1|exact H2].
Defined.

(** *** The requests of a cycle *)

Section Shapes.
Context {R : Type} (env : Env R).

Lemma shapesOf_app t1 t2 : shapesOf (t1 ++ t2) = shapesOf t1 ++ shapesOf t2.
Proof. apply omap_app. Qed.

Lemma shapesOf_requestsOf t : shapesOf (requestsOf t) = shapesOf t.
Proof.
  induction t as [|e t IH]; [reflexivity|].
  destruct e; cbn; [exact IH|]. f_equal. exact IH.
Qed.

Lemma byType_shapes a ty s :
  shapesOf (trace_of (syncTransactionsForAddressByType env a ty s))
  = match NewExplorer (blockExplorerFactory env) (ChainType a) with
    | Ok _ => [(ChainType a, ToChecksum env a, ty, 9000, "")]
    | Fail _ => []
    end.
Proof.
  destruct (NewExplorer _ _) as [ex|e0] eqn:Hex.
  - rewrite <- shapesOf_requestsOf, (byType_requests _ _ _ _ _ Hex).
    reflexivity.
  - rewrite (byType_no_explorer _ _ _ _ _ Hex). reflexivity.
Qed.

Lemma pass_shapes a s :
  shapesOf (trace_of (syncTransactionsForAddress env a s))
  = availableShapes env a.
Proof.
  rewrite <- shapesOf_requestsOf, pass_requests, shapesOf_app,
    !shapesOf_requestsOf, !byType_shapes.
  unfold availableShapes, passShapes.
  destruct (NewExplorer _ _); reflexivity.
Qed.

Lemma syncLoop_shapes l : forall i s,
  shapesOf (trace_of (syncLoop env (fun _ => None) i l s))
  = flat_map (availableShapes env) l.
Proof.
  induction l as [|a l IH]; intros i s; [reflexivity|].
  rewrite <- shapesOf_requestsOf.
  destruct (syncLoop_step env (fun _ => None) i a l s eq_refl) as [_ ->].
  rewrite shapesOf_app, !shapesOf_requestsOf, pass_shapes, IH. reflexivity.
Qed.

End Shapes.

(** X7.  A cycle that is not cancelled sends the explorer, for each
    copied address in order, one request for normal transactions and
    then one for ERC20 transfers, each for the checksum address on the
    chain of the address, with limit 9000 and an empty page token (a
    next page is never asked for); an address whose chain has no
    explorer gets no request. *)
Theorem cycle_requests :
  forall (R : Type) (env : Env R) (addresses : list Address)
         (s : historyService R),
    shapesOf (trace_of (syncTransactions env (fun _ => None) addresses s))
    = flat_map (availableShapes env) addresses.
Proof.
  intros R env l s. unfold syncTransactions. destruct l as [|a l].
  - reflexivity.
  - rewrite trace_of_bind, shapesOf_app. apply syncLoop_shapes.
Qed.

(** *** Events and stored transactions *)

Section NoWrites.
Context {R : Type} (env : Env R).
Hypothesis Hfail : WritesFail env.

Lemma upsert_keeps_channel t st ex :
  Preserves (@historyEventsChan R) (upsertAndEmit env t st ex).
Proof.
  intros s. unfold upsertAndEmit. destruct ex as [existing|].
  - rewrite state_of_bind.
    destruct (value_of (repoUpdate env (withID (ID existing) st) s))
      as [e|] eqn:E; [reflexivity|].
    unfold repoUpdate, value_of in E. cbn in E.
    destruct (Hfail (repository s) (withID (ID existing) st)) as [_ H].
    contradiction.
  - rewrite state_of_bind.
    destruct (value_of (repoCreate env st s)) as [e|] eqn:E; [reflexivity|].
    unfold repoCreate, value_of in E. cbn in E.
    destruct (Hfail (repository s) st) as [H _]. contradiction.
Qed.

Lemma processItem_keeps_channel ty item :
  Preserves (@historyEventsChan R) (processItem env ty item).
Proof.
  unfold processItem.
  destruct (Apply _ item) as [t|]; [|apply preserves_emitLog].
  apply preserves_bind.
  - destruct (isERC20 ty); [apply preserves_isValid|apply preserves_ret].
  - intros valid. destruct (negb valid); [apply preserves_ret|].
    destruct (FromCoreTransaction env t) as [st|]; [|apply preserves_emitLog].
    apply preserves_bind; [intros s; reflexivity|].
    intros found. destruct (lookupFailed env _); [apply preserves_emitLog|].
    apply upsert_keeps_channel.
Qed.

Lemma byType_keeps_channel a ty :
  Preserves (@historyEventsChan R) (syncTransactionsForAddressByType env a ty).
Proof.
  intros s.
  destruct (NewExplorer (blockExplorerFactory env) (ChainType a))
    as [ex|e0] eqn:Hex.
  - rewrite (byType_unfold _ _ _ _ _ Hex). cbv zeta.
    destruct (GetTransactionHistory _ _ _ _) as [page|e]; [|reflexivity].
    destruct (Items page) as [|first others]; [reflexivity|].
    unfold state_of at 1. cbn [fst snd]. rewrite setStartBlock_chan.
    apply (preserves_forEach _ (first :: others) _
             (processItem_keeps_channel ty)).
  - rewrite (byType_no_explorer _ _ _ _ _ Hex). reflexivity.
Qed.

Lemma syncLoop_keeps_channel ctxErr l : forall i,
  Preserves (@historyEventsChan R) (syncLoop env ctxErr i l).
Proof.
  induction l as [|a l IH]; intros i s; cbn [syncLoop]; [reflexivity|].
  destruct (ctxErr i); [reflexivity|].
  rewrite !state_of_bind, pass_value. cbn [ret state_of fst snd].
  rewrite IH. fold (state_of (syncTransactionsForAddress env a s)).
  rewrite pass_state, !byType_keeps_channel. reflexivity.
Qed.

End NoWrites.

(** X9.  No event is published for a transaction that was not stored:
    with a repository that refuses every [Create] and [Update], a whole
    cycle leaves the event channel exactly as it was. *)
Theorem no_event_without_write :
  forall (R : Type) (env : Env R),
    WritesFail env ->
    forall ctxErr addresses (s : historyService R),
      historyEventsChan (state_of (syncTransactions env ctxErr addresses s))
      = historyEventsChan s.
Proof.
  intros R env Hfail ctxErr l s. unfold syncTransactions.
  destruct l as [|a l]; [reflexivity|].
  rewrite state_of_bind. apply syncLoop_keeps_channel. exact Hfail.
Qed.

Lemma failing_repository_refuses f : WritesFail (fixtureEnv f true).
Proof. intros r t. split; discriminate. Qed.

Lemma no_event_without_write_witness :
  historyEventsChan
    (state_of
       (syncTransactions (fixtureEnv normalThenToken true) (fun _ => None)
          [addrA] (monitoring [(keyA, MkSyncInfo addrA 100)])))
  = historyEventsChan (monitoring [(keyA, MkSyncInfo addrA 100)]).
Proof.
  apply (no_event_without_write _ (fixtureEnv normalThenToken true)
           (failing_repository_refuses normalThenToken)).
Defined.

End HistoryMore.

(** ** Starting and stopping *)

Module LifecycleFacts.
Import History Lifecycle.

Lemma goroutines_app (t1 t2 : list Effect) :
  goroutines (t1 ++ t2) = goroutines t1 ++ goroutines t2.
Proof. unfold goroutines. apply omap_app. Qed.

Lemma isOpen_below (cs : list nat) (n : nat) :
  Forall (fun c => (c < n)%nat) cs -> isOpen cs n = true.
Proof.
intros Hall. unfold isOpen. apply negb_true_iff.
apply not_true_is_false. intros Hex.
apply existsb_exists in Hex. destruct Hex as (c & Hin & Heq).
apply Nat.eqb_eq in Heq. subst c.
rewrite Forall_forall in Hall.
apply list_elem_of_In in Hin. specialize (Hall _ Hin). lia.
Qed.

Lemma filter_open_cons (c : nat) (cs l : list nat) :
  List.filter (isOpen (c :: cs)) l
  = List.filter (fun x => negb (Nat.eqb x c)) (List.filter (isOpen cs) l).
Proof.
induction l as [|x l IH]; [reflexivity|].
cbn [List.filter]. rewrite IH.
assert (Hx : isOpen (c :: cs) x = negb (Nat.eqb x c) && isOpen cs x).
{ unfold isOpen. cbn [existsb]. apply negb_orb. }
rewrite Hx.
destruct (isOpen cs x); cbn [List.filter].
- rewrite andb_true_r. reflexivity.
- rewrite andb_false_r. reflexivity.
Qed.

Lemma step_consistent (c : Command) (l : lifecycle) (n : nat) :
  Consistent l n ->
  Consistent (fst (step c l)) (n + length (goroutines (snd (step c l)))).
Proof.
intros (Hcancel & Hbound & Hopen & Hn).
destruct l as [ctx cancel made done]. cbn in Hcancel, Hbound, Hopen, Hn.
subst cancel. unfold openContexts, current in Hopen. cbn in Hopen.
destruct c as [config|]; destruct ctx as [c|]; cbn.
- unfold Consistent, openContexts, current. cbn.
  repeat split; try assumption. lia.
- unfold Consistent, openContexts, current. cbn [syncCancel syncCtx contexts cancelled].
  split; [reflexivity|]. split.
  + eapply Forall_impl; [exact Hbound|]. cbn. intros; lia.
  + split; [|lia].
    rewrite seq_S, List.filter_app, Hopen. cbn [seq app List.filter Nat.add].
    rewrite (isOpen_below done made Hbound). reflexivity.
- unfold Consistent, openContexts, current. cbn [syncCancel syncCtx contexts cancelled].
  split; [reflexivity|]. split.
  + constructor; [|exact Hbound].
    assert (Hin : In c (List.filter (isOpen done) (seq 0 made)))
      by (rewrite Hopen; left; reflexivity).
    apply List.filter_In in Hin. destruct Hin as [Hin _].
    apply in_seq in Hin. lia.
  + split; [|lia].
    rewrite filter_open_cons, Hopen. cbn [List.filter].
    rewrite Nat.eqb_refl. reflexivity.
- unfold Consistent, openContexts, current. cbn.
  repeat split; try assumption. lia.
Qed.

Lemma run_consistent (cs : list Command) (l : lifecycle) (n : nat) :
  Consistent l n ->
  Consistent (fst (run cs l)) (n + length (goroutines (snd (run cs l)))).
Proof.
revert l n. induction cs as [|c cs IH]; intros l n Hl.
- cbn. rewrite Nat.add_0_r. exact Hl.
- cbn [run fst snd]. rewrite goroutines_app, length_app, Nat.add_assoc.
  apply IH, step_consistent, Hl.
Qed.

Lemma tickerDuration_positive (interval : Z) :
  0 < interval <= maxTickerSeconds ->
  tickerDuration interval = interval * 1000000000
  /\ 0 < tickerDuration interval.
Proof.
unfold maxTickerSeconds, tickerDuration, to_int64. intros Hi.
assert (H63 : 2 ^ 63 = 9223372036854775808) by reflexivity.
assert (H64 : 2 ^ 64 = 18446744073709551616) by reflexivity.
rewrite H63, H64.
rewrite (Z.mod_small (interval + _)) by lia.
replace (interval + 9223372036854775808 - 9223372036854775808)
  with interval by ring.
rewrite Z.mod_small by lia. lia.
Qed.

Lemma step_durations (c : Command) (l : lifecycle) :
  withinTickerRange c ->
  Forall (fun d => 0 < d) (goroutines (snd (step c l))).
Proof.
destruct c as [config|]; cbn.
- intros Hrange. unfold StartTransactionSyncing.
  destruct (syncCtx l); cbn; [constructor|].
  constructor; [|constructor].
  destruct (Z.gtb_spec (HistorySynchInterval config) 0) as [Hpos|Hnon].
  + apply tickerDuration_positive. lia.
  + reflexivity.
- intros _. unfold StopTransactionSyncing. destruct (syncCtx l); cbn; constructor.
Qed.

(** X10.  Whatever sequence of [StartTransactionSyncing] and
    [StopTransactionSyncing] calls a new service receives: the
    contexts made whose cancel function has not been called are
    exactly the current [syncCtx] (none when stopped, so no context is
    left open behind), and one scheduler goroutine was started per
    context made.  When every configured interval is at most
    9223372036 seconds, every duration given to [time.NewTicker] is
    positive (the configured seconds, or 300 when the configured
    value is not positive, in nanoseconds), so no ticker panics. *)
Theorem lifecycle_contexts (cs : list Command) :
  let r := run cs newLifecycle in
  openContexts (fst r) = current (fst r)
  /\ length (goroutines (snd r)) = contexts (fst r)
  /\ (Forall withinTickerRange cs ->
      Forall (fun d => 0 < d) (goroutines (snd r))).
Proof.
cbn zeta. split; [|split].
- apply (run_consistent cs newLifecycle 0). repeat split; constructor.
- destruct (run_consistent cs newLifecycle 0) as (_ & _ & _ & Hn);
    [repeat split; constructor|]. cbn in Hn. exact Hn.
- generalize newLifecycle. induction cs as [|c cs IH]; intros l Hrange.
  + constructor.
  + apply Forall_cons in Hrange. destruct Hrange as [Hc Hcs].
    cbn [run snd]. rewrite goroutines_app. apply Forall_app.
    split; [apply step_durations; exact Hc|apply IH; exact Hcs].
Qed.

Lemma lifecycle_contexts_witness :
  let r := run [Start (MkConfig 0); Stop; Start (MkConfig 60)] newLifecycle in
  openContexts (fst r) = [1%nat]
  /\ length (goroutines (snd r)) = 2%nat
  /\ Forall (fun d => 0 < d) (goroutines (snd r)).
Proof.
destruct (lifecycle_contexts [Start (MkConfig 0); Stop; Start (MkConfig 60)])
  as (Hopen & Hcount & Hpositive).
split; [exact Hopen|]. split; [exact Hcount|].
apply Hpositive.
apply List.Forall_cons; [unfold withinTickerRange, maxTickerSeconds; cbn; lia|].
apply List.Forall_cons; [exact I|].
apply List.Forall_cons; [unfold withinTickerRange, maxTickerSeconds; cbn; lia|].
apply List.Forall_nil.
Defined.

(** Beyond that bound the multiplication wraps: a configured interval
    of 9223372037 seconds gives a negative duration and one of 2^55
    seconds gives zero, and [time.NewTicker] panics on both. *)
Example ticker_duration_wraps :
  tickerDuration 9223372037 < 0 /\ tickerDuration (2 ^ 55) = 0.
Proof. split; vm_compute; reflexivity. Qed.

End LifecycleFacts.

(** ** How the keystore operations compose *)

Module KeystoreMore.
Import Keystore KeystoreObs KeystoreFixtures KeystoreMoreFixtures.
Import KeystoreFacts.

Lemma selectById_fresh (id : string) (ks : list KeyRow) (ws : list WalletInfo)
      (row : KeyRow) :
  (forall r, In r ks -> col_id r <> id) ->
  col_id row = id ->
  selectById id (MkDB (ks ++ [row]) ws) = [row].
Proof.
intros Hfresh Hid. unfold selectById. cbn [keys].
rewrite filter_app, (filter_hasID_absent id ks (hasID_absent id ks Hfresh)).
cbn [app]. rewrite filter_cons, filter_nil.
destruct (decide (hasID id row = true)) as [_|Hno]; [reflexivity|].
exfalso. apply Hno. unfold hasID. rewrite Hid. apply String.eqb_refl.
Qed.

Lemma curveByName_name (c : CurveImpl) :
  curveByName (curveParamsName c) = Ok c
  /\ String.eqb (curveParamsName c) "" = false.
Proof. destruct c; split; reflexivity. Qed.

(** X11.  Signing with an imported key signs with the imported
    private key.  When [Import] succeeded with an id no earlier row
    has, the encryptor opens what it sealed, and the query does not
    fail, [Sign] on the new id decrypts the stored ciphertext once and
    returns exactly what [signData] gives for the imported private
    key, the key type and the curve name of the returned key. *)
Theorem Import_then_Sign (env : Env) (name : string) (ty : KeyType) (curve : Curve)
        (priv pub : bytes) (tags : option (gmap string string)) (db : DB)
        (key : Key) (data : bytes) (dt : DataType) :
  result_of (Import env name ty curve priv pub tags db) = Ok key ->
  (forall r, In r (keys db) -> col_id r <> ID key) ->
  Decrypt env (PrivateKey key) = Ok priv ->
  queryFault env (db_of (Import env name ty curve priv pub tags db))
    (SelectPrivate (ID key)) = None ->
  scanFault env (db_of (Import env name ty curve priv pub tags db))
    (SelectPrivate (ID key)) = None ->
  Sign env (ID key) data dt (db_of (Import env name ty curve priv pub tags db))
  = ((signData env ty priv data dt (curveNameOf (Curve_ key)),
      db_of (Import env name ty curve priv pub tags db)),
     [Queried (SelectPrivate (ID key)); Decrypted (PrivateKey key)]).
Proof.
unfold Import, ExecuteStatementContext, result_of, db_of.
destruct (jsonMarshal env tags) as [tagsJSON|]; [|discriminate].
destruct (Encrypt env priv) as [sealed|]; [|discriminate].
destruct (GenerateID env db) as [z|]; [|discriminate].
match goal with |- context [execFault env db ?st] =>
  destruct (execFault env db st) end; [discriminate|].
cbn [fst snd runStatement]. intros Hkey. injection Hkey as <-.
cbn [ID PrivateKey Curve_ Name Type_ CreatedAt PublicKey].
intros Hfresh Hopen Hquery Hscan.
unfold Sign. rewrite Hquery.
rewrite selectById_fresh; [|exact Hfresh|reflexivity].
cbn [fmap list_fmap privateColumns col_id col_name col_key_type col_curve
     col_private_key sc_private_key sc_key_type sc_curve].
rewrite Hscan, Hopen. reflexivity.
Qed.

Lemma Import_then_Sign_witness :
  Sign keystoreEnv "1" [Byte.x07] DataTypeRaw
    (db_of (Import keystoreEnv "imported" KeyTypeRSA None
              [Byte.x04; Byte.x05] [Byte.x0c] None emptyDB))
  = ((signData keystoreEnv KeyTypeRSA [Byte.x04; Byte.x05] [Byte.x07]
        DataTypeRaw "",
      db_of (Import keystoreEnv "imported" KeyTypeRSA None
               [Byte.x04; Byte.x05] [Byte.x0c] None emptyDB)),
     [Queried (SelectPrivate "1");
      Decrypted (sealBytes [Byte.x04; Byte.x05])]).
Proof.
apply (Import_then_Sign keystoreEnv "imported" KeyTypeRSA None
         [Byte.x04; Byte.x05] [Byte.x0c] None emptyDB
         (MkKey "1" "imported" KeyTypeRSA None 1700000000 None
            (sealBytes [Byte.x04; Byte.x05]) [Byte.x0c])
         [Byte.x07] DataTypeRaw).
- reflexivity.
- intros r [].
- reflexivity.
- reflexivity.
- reflexivity.
Defined.

(** X12.  A created key can be read back.  When [Create] succeeded
    with an id no earlier row has, the tags survive the JSON round
    trip and the query does not fail, [GetPublicKey] on the new id
    returns the same id, name, type, tags, curve (none, P-256 or
    secp256k1, P-256 being the default of an ECDSA key) and public
    key, with an empty private key. *)
Theorem Create_then_GetPublicKey (env : Env) (name : string) (ty : KeyType)
        (curve : Curve) (tags : option (gmap string string)) (db : DB)
        (key : Key) :
  result_of (Create env name ty curve tags db) = Ok key ->
  (forall r, In r (keys db) -> col_id r <> ID key) ->
  (forall j, jsonMarshal env tags = Ok j -> jsonUnmarshal env j = Ok tags) ->
  queryFault env (db_of (Create env name ty curve tags db))
    (SelectPublic (ID key)) = None ->
  scanFault env (db_of (Create env name ty curve tags db))
    (SelectPublic (ID key)) = None ->
  exists read,
    result_of (GetPublicKey env (ID key)
                 (db_of (Create env name ty curve tags db))) = Ok read
    /\ ID read = ID key /\ Name read = name /\ Type_ read = ty
    /\ Tags read = tags /\ Curve_ read = Curve_ key
    /\ (String.eqb ty KeyTypeECDSA = true -> curve = None ->
        Curve_ read = Some P256)
    /\ PublicKey read = PublicKey key /\ PrivateKey read = [].
Proof.
unfold Create, ExecuteStatementContext, result_of, db_of.
destruct (jsonMarshal env tags) as [tagsJSON|] eqn:Hjson; [|discriminate].
destruct (GenerateID env db) as [z|]; [|discriminate].
match goal with |- context [GenerateKeyPair env ty ?c] =>
  set (chosen := c); destruct (GenerateKeyPair env ty chosen) as [[priv pub]|]
end; [|discriminate].
destruct (Encrypt env priv) as [sealed|]; [|discriminate].
match goal with |- context [execFault env db ?st] =>
  destruct (execFault env db st) end; [discriminate|].
cbn [fst snd runStatement]. intros Hkey. injection Hkey as <-.
cbn [ID PrivateKey Curve_ Name Type_ CreatedAt PublicKey].
intros Hfresh Htags Hquery Hscan.
unfold GetPublicKey. rewrite Hquery.
rewrite selectById_fresh; [|exact Hfresh|reflexivity].
cbn [fmap list_fmap publicColumns col_id col_name col_key_type col_curve
     col_tags col_created_at col_public_key].
rewrite Hscan. cbn [fst].
unfold scanPublic, publicColumns.
cbn [pc_id pc_name pc_key_type pc_curve pc_tags pc_created_at pc_public_key
     col_id col_name col_key_type col_curve col_tags col_created_at
     col_public_key].
rewrite (Htags tagsJSON eq_refl).
destruct chosen as [c|] eqn:Hchosen; cbn [curveNameOf].
- destruct (curveByName_name c) as [-> ->].
  eexists. split; [reflexivity|]. cbn.
  repeat split; try reflexivity.
  intros Hty ->. subst chosen. rewrite Hty in Hchosen. congruence.
- cbn [String.eqb]. eexists. split; [reflexivity|]. cbn.
  repeat split; try reflexivity.
  intros Hty ->. subst chosen. rewrite Hty in Hchosen. discriminate.
Qed.

Lemma Create_then_GetPublicKey_witness :
  exists read,
    result_of (GetPublicKey keystoreEnv "1"
                 (db_of (Create keystoreEnv "k" KeyTypeECDSA None None
                           emptyDB))) = Ok read
    /\ ID read = "1" /\ Name read = "k" /\ Type_ read = KeyTypeECDSA
    /\ Tags read = None /\ Curve_ read = Some P256
    /\ (String.eqb KeyTypeECDSA KeyTypeECDSA = true -> @None CurveImpl = None ->
        Curve_ read = Some P256)
    /\ PublicKey read = [Byte.x0a; Byte.x0b] /\ PrivateKey read = [].
Proof.
apply (Create_then_GetPublicKey keystoreEnv "k" KeyTypeECDSA None None
         emptyDB createdKey).
- reflexivity.
- intros r [].
- intros j Hj. reflexivity.
- reflexivity.
- reflexivity.
Defined.

Lemma selectById_delete (id id' : string) (db : DB) :
  selectById id' (fst (runStatement (DeleteKey id) db))
  = if String.eqb id' id then [] else selectById id' db.
Proof.
unfold selectById, runStatement. cbn [fst keys].
induction (keys db) as [|r ks IH]; [destruct (String.eqb id' id); reflexivity|].
rewrite !filter_cons.
destruct (decide (hasID id r = false)) as [Hr|Hr].
- rewrite filter_cons, IH.
  destruct (String.eqb id' id) eqn:Hid.
  + apply String.eqb_eq in Hid. subst id'.
    destruct (decide (hasID id r = true)); [congruence|reflexivity].
  + reflexivity.
- rewrite IH. apply not_false_is_true in Hr.
  destruct (String.eqb id' id) eqn:Hid; [reflexivity|].
  destruct (decide (hasID id' r = true)) as [Hr'|]; [|reflexivity].
  unfold hasID in Hr, Hr'. apply String.eqb_eq in Hr, Hr'.
  apply String.eqb_neq in Hid. congruence.
Qed.

(** X13.  Once the DELETE statement ran, the key is gone for every
    reader, also when [Delete] itself went on to report an error from
    [RowsAffected]: [GetPublicKey] and [Sign] on that id answer "not
    found" (and [Sign] decrypts nothing), the rows of every other id
    are as before, and the wallets are untouched. *)
Theorem Delete_then_lookup (env : Env) (id : string) (db : DB)
        (data : bytes) (dt : DataType) :
  execFault env db (DeleteKey id) = None ->
  queryFault env (db_of (Delete env id db)) (SelectPublic id) = None ->
  queryFault env (db_of (Delete env id db)) (SelectPrivate id) = None ->
  GetPublicKey env id (db_of (Delete env id db))
  = ((Fail (NewResourceNotFoundError "key" id), db_of (Delete env id db)),
     [Queried (SelectPublic id)])
  /\ Sign env id data dt (db_of (Delete env id db))
     = ((Fail (NewResourceNotFoundError "key" id), db_of (Delete env id db)),
        [Queried (SelectPrivate id)])
  /\ (forall other, other <> id ->
        selectById other (db_of (Delete env id db)) = selectById other db)
  /\ wallets (db_of (Delete env id db)) = wallets db.
Proof.
intros Hexec.
assert (Hdb : db_of (Delete env id db) = fst (runStatement (DeleteKey id) db)).
{ unfold Delete, ExecuteStatementContext, db_of. rewrite Hexec.
  destruct (rowsAffectedFault env db (DeleteKey id)); [reflexivity|].
  destruct (snd (runStatement (DeleteKey id) db) =? 0); reflexivity. }
rewrite Hdb. intros Hpublic Hprivate.
split; [|split; [|split]].
- unfold GetPublicKey. rewrite Hpublic, selectById_delete, String.eqb_refl.
  reflexivity.
- unfold Sign. rewrite Hprivate, selectById_delete, String.eqb_refl.
  reflexivity.
- intros other Hother. rewrite selectById_delete.
  apply String.eqb_neq in Hother. rewrite Hother. reflexivity.
- reflexivity.
Qed.

Lemma Delete_then_lookup_witness :
  GetPublicKey keystoreEnv "1" (db_of (Delete keystoreEnv "1" dbTwo))
  = ((Fail (NewResourceNotFoundError "key" "1"),
      db_of (Delete keystoreEnv "1" dbTwo)),
     [Queried (SelectPublic "1")])
  /\ Sign keystoreEnv "1" [Byte.x07] DataTypeRaw
       (db_of (Delete keystoreEnv "1" dbTwo))
     = ((Fail (NewResourceNotFoundError "key" "1"),
         db_of (Delete keystoreEnv "1" dbTwo)),
        [Queried (SelectPrivate "1")])
  /\ (forall other, other <> "1" ->
        selectById other (db_of (Delete keystoreEnv "1" dbTwo))
        = selectById other dbTwo)
  /\ wallets (db_of (Delete keystoreEnv "1" dbTwo)) = wallets dbTwo.
Proof.
apply (Delete_then_lookup keystoreEnv "1" dbTwo [Byte.x07] DataTypeRaw);
  reflexivity.
Defined.

Lemma selectById_update (id name tags : string) (db : DB) :
  selectById id (fst (runStatement (UpdateKey name tags id) db))
  = map (renamed name tags) (selectById id db).
Proof.
unfold selectById, runStatement. cbn [fst keys].
induction (keys db) as [|r ks IH]; [reflexivity|].
cbn [map]. rewrite !filter_cons.
destruct (hasID id r) eqn:Hr.
- destruct (decide (hasID id (MkKeyRow (col_id r) name (col_key_type r)
                                (col_curve r) tags (col_created_at r)
                                (col_private_key r) (col_public_key r)) = true))
    as [_|Hno]; [|exfalso; apply Hno; exact Hr].
  destruct (decide (true = true)); [|congruence].
  cbn [map]. rewrite IH. reflexivity.
- destruct (decide (hasID id r = true)); [congruence|].
  destruct (decide (false = true)); [congruence|]. exact IH.
Qed.

Lemma selectById_update_other (id name tags other : string) (db : DB) :
  other <> id ->
  selectById other (fst (runStatement (UpdateKey name tags id) db))
  = selectById other db.
Proof.
intros Hne. unfold selectById, runStatement. cbn [fst keys].
induction (keys db) as [|x ks IH]; [reflexivity|].
cbn [map]. rewrite !filter_cons.
destruct (hasID id x) eqn:Hx.
- unfold hasID in Hx. apply String.eqb_eq in Hx.
  assert (Hno : hasID other x = false)
    by (unfold hasID; apply String.eqb_neq; congruence).
  assert (Hno' : hasID other (renamed name tags x) = false)
    by exact Hno.
  unfold renamed in Hno'.
  repeat case_decide; first [congruence | exact IH].
- rewrite IH. reflexivity.
Qed.

Lemma selectById_In (id : string) (db : DB) (r : KeyRow) :
  In r (selectById id db) -> In r (keys db) /\ col_id r = id.
Proof.
unfold selectById. intros Hin. apply list_elem_of_In in Hin.
apply list_elem_of_filter in Hin. destruct Hin as [Hid Hin].
split; [apply list_elem_of_In; exact Hin|].
apply String.eqb_eq. exact Hid.
Qed.

(** X14.  A successful [Update] returns the key as it now is: the id
    asked for, the new name, the tags read back from the JSON just
    written, no private key, and the type and public key of a row
    that already had that id; the rows of every other id are still in
    the table, unchanged. *)
Theorem Update_returns_new_metadata (env : Env) (id name : string)
        (tags : option (gmap string string)) (db : DB) (key : Key) :
  result_of (Update env id name tags db) = Ok key ->
  ID key = id /\ Name key = name /\ PrivateKey key = []
  /\ (exists j, jsonMarshal env tags = Ok j
                /\ jsonUnmarshal env j = Ok (Tags key))
  /\ (exists r, In r (keys db) /\ col_id r = id
                /\ Type_ key = col_key_type r
                /\ PublicKey key = col_public_key r)
  /\ (forall other, other <> id ->
        selectById other (db_of (Update env id name tags db))
        = selectById other db).
Proof.
unfold Update, ExecuteStatementContext, result_of, db_of.
destruct (jsonMarshal env tags) as [tagsJSON|] eqn:Hjson; [|discriminate].
destruct (execFault env db (UpdateKey name tagsJSON id)); [discriminate|].
destruct (rowsAffectedFault env db (UpdateKey name tagsJSON id));
  [discriminate|].
destruct (snd (runStatement (UpdateKey name tagsJSON id) db) =? 0);
  [discriminate|].
cbn [fst snd]. unfold GetPublicKey.
destruct (queryFault env _ (SelectPublic id)); [discriminate|].
rewrite selectById_update.
destruct (selectById id db) as [|r rest] eqn:Hsel; [discriminate|].
cbn [map fmap list_fmap].
destruct (scanFault env _ (SelectPublic id)); [discriminate|].
cbn [fst snd]. unfold scanPublic, publicColumns, renamed.
cbn [pc_id pc_name pc_key_type pc_curve pc_tags pc_created_at pc_public_key
     col_id col_name col_key_type col_curve col_tags col_created_at
     col_public_key].
destruct (selectById_In id db r) as [Hin Hid]; [rewrite Hsel; left; reflexivity|].
intros Hres.
destruct (if String.eqb (col_curve r) "" then Ok None
          else match curveByName (col_curve r) with
               | Ok cv => Ok (Some cv)
               | Fail e => Fail e
               end) as [cv|]; [|discriminate].
destruct (jsonUnmarshal env tagsJSON) as [read|] eqn:Hread; [|discriminate].
injection Hres as <-. cbn.
split; [exact Hid|]. split; [reflexivity|]. split; [reflexivity|].
split; [exists tagsJSON; split; [reflexivity|exact Hread]|].
split; [exists r; repeat split; assumption|].
intros other Hne. apply selectById_update_other. exact Hne.
Qed.

Lemma Update_returns_new_metadata_witness :
  exists key,
    result_of (Update keystoreEnv "2" "renamed" None dbTwo) = Ok key
    /\ ID key = "2" /\ Name key = "renamed" /\ PrivateKey key = []
    /\ Type_ key = KeyTypeRSA /\ PublicKey key = [Byte.x0c].
Proof.
exists (MkKey "2" "renamed" KeyTypeRSA None 1700000000 None [] [Byte.x0c]).
split; [reflexivity|].
destruct (Update_returns_new_metadata keystoreEnv "2" "renamed" None dbTwo
            (MkKey "2" "renamed" KeyTypeRSA None 1700000000 None []
               [Byte.x0c]) eq_refl)
  as (Hid & Hname & Hprivate & _ & _ & _).
repeat split; assumption || reflexivity.
Defined.

(** X15.  What a key that is not an ECDSA key signs.  For the row
    [Sign] reads, a raw input gives the same outcome as the digest
    input [signedMessage]: an Ed25519 or HMAC key signs the bytes it
    is given whatever the data type says, an RSA key signs the
    SHA-256 digest of raw input, and any other type is refused either
    way. *)
Theorem Sign_data_type (env : Env) (id : string) (data : bytes) (db : DB)
        (r : KeyRow) (rest : list KeyRow) :
  selectById id db = r :: rest ->
  col_key_type r <> KeyTypeECDSA ->
  Sign env id data DataTypeRaw db
  = Sign env id (signedMessage env (col_key_type r) data) DataTypeDigest db.
Proof.
intros Hsel Hty. unfold Sign. rewrite Hsel.
cbn [fmap list_fmap privateColumns sc_private_key sc_key_type sc_curve].
destruct (queryFault env db (SelectPrivate id)); [reflexivity|].
destruct (scanFault env db (SelectPrivate id)); [reflexivity|].
unfold privateColumns. cbn [sc_private_key sc_key_type sc_curve].
destruct (Decrypt env (col_private_key r)) as [priv|]; [|reflexivity].
f_equal. f_equal. unfold signData, signedMessage.
apply String.eqb_neq in Hty. rewrite Hty.
destruct (String.eqb (col_key_type r) KeyTypeRSA) eqn:Hrsa.
- apply String.eqb_eq in Hrsa. rewrite Hrsa. reflexivity.
- destruct (String.eqb (col_key_type r) KeyTypeEd25519); [reflexivity|].
  destruct (String.eqb (col_key_type r) KeyTypeSymmetric); reflexivity.
Qed.

Lemma Sign_data_type_witness :
  Sign keystoreEnv "2" [Byte.x07] DataTypeRaw dbTwo
  = Sign keystoreEnv "2" (signedMessage keystoreEnv KeyTypeRSA [Byte.x07])
      DataTypeDigest dbTwo.
Proof.
apply (Sign_data_type keystoreEnv "2" [Byte.x07] dbTwo rowRSA []).
- reflexivity.
- discriminate.
Defined.

Lemma scanRows_all (env : Env) (db : DB) (q : Query)
      (rows : list PublicColumns) (ks : list Key) :
  scanRows env db q rows = Ok ks ->
  Forall2 (fun c k => scanPublic env c = Ok k) rows ks.
Proof.
revert ks. induction rows as [|c rows IH]; intros ks; cbn [scanRows].
- destruct (rowsErr env db q); intros Hres; simplify_eq. constructor.
- destruct (scanFault env db q); [discriminate|].
  destruct (scanPublic env c) as [k|] eqn:Hk; [|discriminate].
  destruct (scanRows env db q rows) as [ks'|]; [|discriminate].
  intros Hres. simplify_eq. constructor; [exact Hk|apply IH; reflexivity].
Qed.

(** X16.  [List] is all or nothing over the rows it fetches, the
    look-ahead row included.  It asks for one row more than the limit
    (50 when the limit is not positive); when it returns a page,
    every fetched row was readable, so a single row whose curve name
    or tags cannot be read makes the whole call fail, even when that
    row lies just beyond the page. *)
Theorem List_reads_every_fetched_row (env : Env) (limit : Z)
        (nextToken : string) (db : DB) (token : option NextPageToken)
        (r : KeyRow) :
  decodeToken env nextToken = Ok token ->
  In r (selectPage (Value <$> token) (effectiveLimit limit + 1) db) ->
  (forall k, scanPublic env (publicColumns r) <> Ok k) ->
  exists e, result_of (List_ env limit nextToken db) = Fail e.
Proof.
unfold decodeToken, effectiveLimit, List_, result_of.
intros -> Hin Hbad.
destruct (queryFault env db _); [eexists; reflexivity|].
match goal with |- context [scanRows env db ?q ?rows] =>
  destruct (scanRows env db q rows) as [ks|e] eqn:Hscan end;
  [|eexists; reflexivity].
exfalso. apply scanRows_all in Hscan.
apply (in_map publicColumns) in Hin.
apply list_elem_of_In in Hin.
change (publicColumns r ∈
          publicColumns <$>
            selectPage (Value <$> token)
              ((if limit <=? 0 then 50 else limit) + 1) db) in Hin.
apply list_elem_of_lookup_1 in Hin. destruct Hin as [i Hi].
destruct (Forall2_lookup_l _ _ _ i _ Hscan Hi) as (k & _ & Hk).
exact (Hbad k Hk).
Qed.

Lemma List_reads_every_fetched_row_witness :
  exists e, result_of (List_ keystoreEnv 2 "" dbThree) = Fail e.
Proof.
apply (List_reads_every_fetched_row keystoreEnv 2 "" dbThree None rowP384).
- reflexivity.
- vm_compute. right. right. left. reflexivity.
- intros k. vm_compute. discriminate.
Defined.

End KeystoreMore.

(** ** The explorer factory *)

Module ExplorerFactoryFacts.
Import ExplorerFactory.

Section Factory.
Context (types : ChainTypes).

Lemma NewExplorer_chains (c : string) (f : factory) :
  chains (snd (fst (NewExplorer types c f))) = chains f.
Proof.
unfold ExplorerFactory.NewExplorer.
destruct (explorers f !! c); [reflexivity|].
destruct (chains f c); [|reflexivity].
destruct (evmCompatible types c); reflexivity.
Qed.

Lemma requestAll_chains (cs : list string) (f : factory) :
  chains (fst (requestAll types cs f)) = chains f.
Proof.
revert f. induction cs as [|c cs IH]; intros f; [reflexivity|].
cbn [ExplorerFactory.requestAll fst]. rewrite IH. apply NewExplorer_chains.
Qed.

Lemma NewExplorer_coherent (c : string) (f : factory) :
  Coherent types f -> Coherent types (snd (fst (NewExplorer types c f))).
Proof.
intros Hf. unfold ExplorerFactory.NewExplorer.
destruct (explorers f !! c) eqn:Hc; [exact Hf|].
destruct (chains f c) as [chain|] eqn:Hchain; [|exact Hf].
destruct (evmCompatible types c) eqn:Hevm; [|exact Hf].
cbn [fst snd]. intros c' e. cbn [explorers chains].
destruct (decide (c' = c)) as [->|Hne].
- rewrite lookup_insert_eq. intros He. injection He as <-.
  unfold ExplorerFactory.firstAnswer, ExplorerFactory.NewExplorer, NewFactory.
  cbn [explorers chains]. rewrite lookup_empty, Hchain, Hevm. reflexivity.
- rewrite lookup_insert_ne by congruence. apply Hf.
Qed.

Lemma requestAll_coherent (cs : list string) (f : factory) :
  Coherent types f -> Coherent types (fst (requestAll types cs f)).
Proof.
revert f. induction cs as [|c cs IH]; intros f Hf; [exact Hf|].
cbn [ExplorerFactory.requestAll fst]. apply IH, NewExplorer_coherent, Hf.
Qed.

Lemma NewExplorer_answer (c : string) (f : factory) :
  Coherent types f ->
  fst (fst (NewExplorer types c f)) = firstAnswer types (chains f) c.
Proof.
intros Hf. unfold ExplorerFactory.NewExplorer at 1.
destruct (explorers f !! c) as [e|] eqn:Hc.
- symmetry. apply Hf. exact Hc.
- unfold ExplorerFactory.firstAnswer, ExplorerFactory.NewExplorer, NewFactory.
  cbn [explorers chains]. rewrite lookup_empty.
  destruct (chains f c); [|reflexivity].
  destruct (evmCompatible types c); reflexivity.
Qed.

(** X17.  The cache of the factory cannot be told from outside:
    after any sequence of earlier requests, for whatever chain types
    and however they ended, [NewExplorer] answers exactly what a
    factory that has made no explorer yet would answer for the same
    chain registry: the explorer built from the registry entry for an
    Ethereum, Polygon or Base chain, the registry's own error for an
    unknown chain, "chain not supported" otherwise.  In particular a
    failure is never remembered. *)
Theorem factory_cache_transparent (registry : string -> Result Chain)
        (earlier : list string) (chainType : string) :
  fst (fst (NewExplorer types chainType
              (fst (requestAll types earlier (NewFactory registry)))))
  = firstAnswer types registry chainType
  /\ firstAnswer types registry chainType
     = match registry chainType with
       | Fail err => Fail err
       | Ok chain =>
           if evmCompatible types chainType then
             Ok (NewEtherscanExplorer chain (ExplorerAPIUrl chain)
                   (ExplorerUrl chain) (ExplorerAPIKey chain))
           else Fail (NewChainNotSupportedError chainType)
       end.
Proof.
split.
- rewrite NewExplorer_answer.
  + rewrite requestAll_chains. reflexivity.
  + apply requestAll_coherent. intros c e. cbn [NewFactory explorers].
    rewrite lookup_empty. discriminate.
- unfold ExplorerFactory.firstAnswer, ExplorerFactory.NewExplorer, NewFactory.
  cbn [explorers chains]. rewrite lookup_empty.
  destruct (registry chainType); [|reflexivity].
  destruct (evmCompatible types chainType); reflexivity.
Qed.

Lemma NewExplorer_built (c : string) (f : factory) :
  (snd (NewExplorer types c f) = []
   /\ explorers (snd (fst (NewExplorer types c f))) = explorers f)
  \/ (snd (NewExplorer types c f) = [Built c]
      /\ explorers f !! c = None
      /\ evmCompatible types c = true
      /\ exists e,
          explorers (snd (fst (NewExplorer types c f))) = <[c := e]> (explorers f)).
Proof.
unfold ExplorerFactory.NewExplorer.
destruct (explorers f !! c) eqn:Hc; [left; split; reflexivity|].
destruct (chains f c) as [chain|]; [|left; split; reflexivity].
destruct (evmCompatible types c) eqn:Hevm; [|left; split; reflexivity].
right. cbn [fst snd explorers]. repeat split. eexists. reflexivity.
Qed.

Lemma requestAll_built (cs : list string) (f : factory) :
  NoDup (map builtChain (snd (requestAll types cs f)))
  /\ (forall c, In c (map builtChain (snd (requestAll types cs f))) ->
          explorers f !! c = None /\ evmCompatible types c = true /\ In c cs)
  /\ (forall c, is_Some (explorers f !! c) ->
          is_Some (explorers (fst (requestAll types cs f)) !! c)).
Proof.
revert f. induction cs as [|c cs IH]; intros f.
- cbn. split; [constructor|]. split; [intros c []|]. intros c Hc. exact Hc.
- cbn [ExplorerFactory.requestAll fst snd].
  destruct (IH (snd (fst (NewExplorer types c f)))) as (Hnodup & Hnew & Hkept).
  destruct (NewExplorer_built c f)
    as [[Htrace Hsame]|(Htrace & Hnone & Hevm & e & Hins)];
    rewrite Htrace; cbn [app map builtChain].
  + rewrite Hsame in Hnew. split; [exact Hnodup|]. split.
    * intros c' Hc'. destruct (Hnew c' Hc') as (H1 & H2 & H3).
      repeat split; try assumption. right. exact H3.
    * intros c' Hc'. apply Hkept. rewrite Hsame. exact Hc'.
  + rewrite Hins in Hnew. split; [|split].
    * apply NoDup_cons. split; [|exact Hnodup].
      intros Hin. apply list_elem_of_In in Hin.
      destruct (Hnew c Hin) as (Hfresh & _).
      rewrite lookup_insert_eq in Hfresh. discriminate.
    * intros c' [<-|Hc']; [repeat split; try assumption; left; reflexivity|].
      destruct (Hnew c' Hc') as (H1 & H2 & H3).
      split; [|split; [exact H2|right; exact H3]].
      destruct (decide (c' = c)) as [->|Hne]; [exact Hnone|].
      rewrite lookup_insert_ne in H1 by congruence. exact H1.
    * intros c' Hc'. apply Hkept. rewrite Hins.
      destruct (decide (c' = c)) as [->|Hne].
      -- rewrite lookup_insert_eq. eexists; reflexivity.
      -- rewrite lookup_insert_ne by congruence. exact Hc'.
Qed.

(** X18.  At most one explorer is ever built per chain type.  Over any
    sequence of requests on a new factory, [NewEtherscanExplorer] is
    called for pairwise different chain types, each of them Ethereum,
    Polygon or Base and each of them requested. *)
Theorem factory_builds_once (registry : string -> Result Chain)
        (requests : list string) :
  NoDup (map builtChain (snd (requestAll types requests (NewFactory registry))))
  /\ Forall (fun c => evmCompatible types c = true /\ In c requests)
       (map builtChain (snd (requestAll types requests (NewFactory registry)))).
Proof.
destruct (requestAll_built requests (NewFactory registry))
  as (Hnodup & Hnew & _).
split; [exact Hnodup|].
apply Forall_forall. intros c Hc. apply list_elem_of_In in Hc.
destruct (Hnew c Hc) as (_ & Hevm & Hin). split; assumption.
Qed.

End Factory.

End ExplorerFactoryFacts.

(** ** The helpers of the curve's tests *)

Module Secp256k1HelpersFacts.
Import Secp256k1 Secp256k1Helpers.

Lemma ModInverse_zero : ModInverse 0 P = None.
Proof. vm_compute. reflexivity. Qed.

(** X19.  The two unchecked formulas of the tests never return: for
    all arguments [addUnsafe] asks for the inverse of a zero
    difference of abscissas and [doubleUnsafe] for the inverse of
    twice a zero ordinate, which do not exist, so both panic. *)
Theorem unsafe_formulas_panic (x1 y1 x2 y2 : Z) :
  addUnsafe x1 y1 x2 y2 = None /\ doubleUnsafe x1 y1 = None.
Proof.
split.
- unfold addUnsafe, addFormula. cbn zeta.
  rewrite Z.sub_diag, Z.mod_0_l by (vm_compute; discriminate).
  rewrite ModInverse_zero. reflexivity.
- unfold doubleUnsafe, doubleFormula. cbn zeta.
  rewrite Z.mul_0_l, Z.mod_0_l by (vm_compute; discriminate).
  rewrite ModInverse_zero. reflexivity.
Qed.

Lemma SetBytes_from (buf : list Byte.byte) (acc : Z) :
  fold_left (fun a b => a * 256 + Z.of_N (Byte.to_N b)) buf acc
  = acc * 256 ^ Z.of_nat (length buf) + SetBytes buf.
Proof.
unfold SetBytes. revert acc. induction buf as [|b buf IH]; intros acc.
- cbn. lia.
- cbn [fold_left length]. rewrite IH, (IH (0 * 256 + _)).
  rewrite Nat2Z.inj_succ, Z.pow_succ_r by lia. ring.
Qed.

Lemma SetBytes_zeros (n : nat) (buf : list Byte.byte) :
  SetBytes (replicate n Byte.x00 ++ buf) = SetBytes buf.
Proof.
induction n as [|n IH]; [reflexivity|].
cbn [replicate app]. unfold SetBytes in *. cbn [fold_left].
exact IH.
Qed.

(** X20.  [padTo32Bytes] always returns exactly 32 bytes; for an
    input of at most 32 bytes they hold the same big-endian number
    (only leading zeros are added); a longer input loses its last
    bytes; and padding twice is padding once. *)
Theorem padTo32Bytes_fixed_width (input : list Byte.byte) :
  length (padTo32Bytes input) = 32%nat
  /\ ((length input <= 32)%nat ->
      SetBytes (padTo32Bytes input) = SetBytes input)
  /\ ((32 < length input)%nat ->
      exists lost, lost <> [] /\ input = padTo32Bytes input ++ lost)
  /\ padTo32Bytes (padTo32Bytes input) = padTo32Bytes input.
Proof.
assert (Hlen : length (padTo32Bytes input) = 32%nat).
{ unfold padTo32Bytes.
  destruct (Nat.eqb_spec (length input) 32) as [He|Hne]; [exact He|].
  destruct (Nat.ltb_spec 32 (length input)) as [Hlt|Hge].
  - rewrite length_take. lia.
  - rewrite length_app, length_replicate. lia. }
split; [exact Hlen|]. split; [|split].
- intros Hle. unfold padTo32Bytes.
  destruct (Nat.eqb_spec (length input) 32); [reflexivity|].
  destruct (Nat.ltb_spec 32 (length input)); [lia|].
  apply SetBytes_zeros.
- intros Hlt. unfold padTo32Bytes.
  destruct (Nat.eqb_spec (length input) 32); [lia|].
  destruct (Nat.ltb_spec 32 (length input)); [|lia].
  exists (drop 32 input). split.
  + intros Hnil. apply (f_equal length) in Hnil.
    rewrite length_drop in Hnil. cbn in Hnil. lia.
  + symmetry. apply take_drop.
- unfold padTo32Bytes at 1. rewrite Hlen. reflexivity.
Qed.

(** X21.  [normalizeS] puts a signature value in the lower half of
    the order: for 0 < s < N the result is again positive, at most
    N/2, and is s itself or N - s; and normalizing a second time
    changes nothing. *)
Theorem normalizeS_low (N s : Z) :
  0 < s < N ->
  0 < normalizeS N s <= Z.shiftr N 1
  /\ (normalizeS N s = s \/ normalizeS N s = N - s)
  /\ normalizeS N (normalizeS N s) = normalizeS N s.
Proof.
intros Hs. unfold normalizeS. cbn zeta.
rewrite Z.shiftr_div_pow2 by lia. change (2 ^ 1) with 2.
pose proof (Z.div_mod N 2 ltac:(lia)) as Hdiv.
pose proof (Z.mod_pos_bound N 2 ltac:(lia)) as Hmod.
destruct (Z.gtb_spec s (N / 2)) as [Hhigh|Hlow].
- split; [lia|]. split; [right; reflexivity|].
  destruct (Z.gtb_spec (N - s) (N / 2)); [lia|reflexivity].
- split; [lia|]. split; [left; reflexivity|].
  destruct (Z.gtb_spec s (N / 2)); [lia|reflexivity].
Qed.

Lemma normalizeS_low_witness :
  0 < normalizeS 23 17 <= Z.shiftr 23 1
  /\ (normalizeS 23 17 = 17 \/ normalizeS 23 17 = 23 - 17)
  /\ normalizeS 23 (normalizeS 23 17) = normalizeS 23 17.
Proof.
apply (normalizeS_low 23 17). lia.
Defined.

End Secp256k1HelpersFacts.

(** ** The formulas stay on the curve *)

Module Secp256k1Closure.
Import Secp256k1.

Section Modulus.
Variables n b : Z.

Lemma divide_cong (a c : Z) : a mod n = c mod n <-> (n | a - c).
Proof. apply Z.cong_iff_ex. Qed.

Lemma divide_mod (a : Z) : (n | a mod n - a).
Proof. apply divide_cong. apply Z.mod_mod_divide. reflexivity. Qed.

Lemma divide_cancel (z d v : Z) : (n | z * d - 1) -> (n | d * v) -> (n | v).
Proof.
intros Hz Hd.
replace v with (z * (d * v) - v * (z * d - 1)) by ring.
apply Z.divide_sub_r; apply Z.divide_mul_r; assumption.
Qed.

(** The chord through two points of y^2 = x^3 + b meets the curve in
    a third point, whose mirror image the formula returns. *)
Lemma chord_closed (z x1 y1 x2 y2 lambda x3 y3 : Z) :
  (n | y1 * y1 - (x1 * x1 * x1 + b)) ->
  (n | y2 * y2 - (x2 * x2 * x2 + b)) ->
  (n | z * (x2 - x1) - 1) ->
  (n | lambda - (y2 - y1) * z) ->
  (n | x3 - (lambda * lambda - x1 - x2)) ->
  (n | y3 - (lambda * (x1 - x3) - y1)) ->
  (n | y3 * y3 - (x3 * x3 * x3 + b)).
Proof.
intros H1 H2 Hz Hl Hx Hy.
set (X3 := lambda * lambda - x1 - x2) in *.
set (g := fun t => t * t * t + b - (lambda * (t - x1) + y1) * (lambda * (t - x1) + y1)).
assert (Hg1 : (n | g x1)).
{ unfold g. replace (_ - _) with (- (y1 * y1 - (x1 * x1 * x1 + b))) by ring.
  apply Z.divide_opp_r. exact H1. }
set (e := lambda * (x2 - x1) - (y2 - y1)).
assert (He : (n | e)).
{ unfold e.
  replace (_ - _)
    with ((lambda - (y2 - y1) * z) * (x2 - x1) + (y2 - y1) * (z * (x2 - x1) - 1))
    by ring.
  apply Z.divide_add_r; [apply Z.divide_mul_l|apply Z.divide_mul_r]; assumption. }
assert (Hg2 : (n | g x2)).
{ unfold g.
  replace (_ - _)
    with (- (y2 * y2 - (x2 * x2 * x2 + b)) - e * (2 * y2 + e))
    by (unfold e; ring).
  apply Z.divide_sub_r; [apply Z.divide_opp_r; exact H2|].
  apply Z.divide_mul_l. exact He. }
assert (Hg3 : (n | g X3)).
{ apply (divide_cancel z (x2 - x1)); [exact Hz|].
  replace ((x2 - x1) * g X3) with ((x2 - X3) * g x1 + (X3 - x1) * g x2)
    by (unfold g, X3; ring).
  apply Z.divide_add_r; apply Z.divide_mul_r; assumption. }
set (u := x3 - X3) in *.
set (v := y3 - (lambda * (x1 - x3) - y1)) in *.
set (L := lambda * (X3 - x1) + y1).
replace (y3 * y3 - (x3 * x3 * x3 + b))
  with (- g X3 + (v - lambda * u) * (v - lambda * u - 2 * L)
        - u * (3 * X3 * X3 + 3 * X3 * u + u * u))
  by (unfold g, L, v, u; ring).
apply Z.divide_sub_r; [apply Z.divide_add_r|].
- apply Z.divide_opp_r. exact Hg3.
- apply Z.divide_mul_l. apply Z.divide_sub_r; [exact Hy|].
  apply Z.divide_mul_r. exact Hx.
- apply Z.divide_mul_l. exact Hx.
Qed.

(** The tangent at a point of y^2 = x^3 + b meets the curve in one
    more point, whose mirror image the formula returns. *)
Lemma tangent_closed (w x1 y1 lambda x3 y3 : Z) :
  (n | y1 * y1 - (x1 * x1 * x1 + b)) ->
  (n | w * (y1 * 2) - 1) ->
  (n | lambda - x1 * x1 * 3 * w) ->
  (n | x3 - (lambda * lambda - 2 * x1)) ->
  (n | y3 - (lambda * (x1 - x3) - y1)) ->
  (n | y3 * y3 - (x3 * x3 * x3 + b)).
Proof.
intros H1 Hw Hl Hx Hy.
set (X3 := lambda * lambda - 2 * x1) in *.
set (g := fun t => t * t * t + b - (lambda * (t - x1) + y1) * (lambda * (t - x1) + y1)).
assert (Hg1 : (n | g x1)).
{ unfold g. replace (_ - _) with (- (y1 * y1 - (x1 * x1 * x1 + b))) by ring.
  apply Z.divide_opp_r. exact H1. }
set (s := 3 * x1 * x1 - 2 * lambda * y1).
assert (Hs : (n | s)).
{ unfold s.
  replace (_ - _)
    with (- ((lambda - x1 * x1 * 3 * w) * (2 * y1))
          - 3 * x1 * x1 * (w * (y1 * 2) - 1))
    by ring.
  apply Z.divide_sub_r; [apply Z.divide_opp_r; apply Z.divide_mul_l
                        |apply Z.divide_mul_r]; assumption. }
assert (Hg3 : (n | g X3)).
{ replace (g X3) with (g x1 + s * (X3 - x1)) by (unfold g, s, X3; ring).
  apply Z.divide_add_r; [exact Hg1|apply Z.divide_mul_l; exact Hs]. }
set (u := x3 - X3) in *.
set (v := y3 - (lambda * (x1 - x3) - y1)) in *.
set (L := lambda * (X3 - x1) + y1).
replace (y3 * y3 - (x3 * x3 * x3 + b))
  with (- g X3 + (v - lambda * u) * (v - lambda * u - 2 * L)
        - u * (3 * X3 * X3 + 3 * X3 * u + u * u))
  by (unfold g, L, v, u; ring).
apply Z.divide_sub_r; [apply Z.divide_add_r|].
- apply Z.divide_opp_r. exact Hg3.
- apply Z.divide_mul_l. apply Z.divide_sub_r; [exact Hy|].
  apply Z.divide_mul_r. exact Hx.
- apply Z.divide_mul_l. exact Hx.
Qed.

End Modulus.

Lemma on_curve_equation (x y : Z) :
  IsOnCurve x y = true -> (P | y * y - (x * x * x + B)).
Proof.
unfold IsOnCurve.
destruct (negb _); [discriminate|].
destruct (_ && _); [discriminate|].
intros Heq. apply Z.eqb_eq in Heq. apply divide_cong. exact Heq.
Qed.

Lemma equation_on_curve (x y : Z) :
  0 <= x < P -> 0 <= y < P -> (P | y * y - (x * x * x + B)) ->
  IsOnCurve x y = true.
Proof.
intros Hx Hy Heq. unfold IsOnCurve.
destruct (Z.leb_spec 0 x), (Z.ltb_spec x P), (Z.leb_spec 0 y),
  (Z.ltb_spec y P); try lia. cbn [andb negb].
destruct (Z.eqb_spec x 0) as [->|], (Z.eqb_spec y 0) as [->|]; cbn [andb].
- exfalso. destruct Heq as [k Hk]. change (-7 = k * P) in Hk.
  assert (HP : 7 < P) by (vm_compute; reflexivity).
  destruct (Z.lt_trichotomy k 0) as [Hneg|[->|Hpos]]; [|lia|].
  + assert (k * P <= -1 * P) by (apply Z.mul_le_mono_nonneg_r; lia). lia.
  + assert (1 * P <= k * P) by (apply Z.mul_le_mono_nonneg_r; lia). lia.
- apply Z.eqb_eq, divide_cong. exact Heq.
- apply Z.eqb_eq, divide_cong. exact Heq.
- apply Z.eqb_eq, divide_cong. exact Heq.
Qed.

Lemma inverse_divide (g z : Z) :
  ModInverse (g mod P) P = Some z -> (P | z * g - 1).
Proof.
intros Hinv.
destruct (Secp256k1Facts.ModInverse_Some P Secp256k1Facts.P_ge_2 _ _ Hinv)
  as [_ Hone].
replace (z * g - 1) with ((z * (g mod P) - 1) - z * (g mod P - g)) by ring.
apply Z.divide_sub_r.
- apply divide_cong. rewrite Hone. reflexivity.
- apply Z.divide_mul_r. apply divide_mod.
Qed.

Lemma mod_P_bound (a : Z) : 0 <= a mod P < P.
Proof. apply Z.mod_pos_bound. reflexivity. Qed.

(** X22.  The chord formula stays on the curve: whenever it returns
    a point for two points of the curve (coordinates in [0, p),
    y^2 = x^3 + 7 mod p, not (0,0)), that point is on the curve
    too. *)
Theorem addFormula_on_curve (x1 y1 x2 y2 x3 y3 : Z) :
  IsOnCurve x1 y1 = true ->
  IsOnCurve x2 y2 = true ->
  addFormula x1 y1 x2 y2 = Some (x3, y3) ->
  IsOnCurve x3 y3 = true.
Proof.
intros H1 H2. unfold addFormula. cbn zeta.
destruct (ModInverse ((x2 - x1) mod P) P) as [z|] eqn:Hinv; [|discriminate].
intros Hres. injection Hres as Hx Hy.
apply on_curve_equation in H1, H2.
apply inverse_divide in Hinv.
apply equation_on_curve.
- rewrite <- Hx. apply mod_P_bound.
- rewrite <- Hy. apply mod_P_bound.
- apply (chord_closed P B z x1 y1 x2 y2
           ((((y2 - y1) mod P) * z) mod P) x3 y3); try assumption.
  + replace (_ - _)
      with (((((y2 - y1) mod P) * z) mod P - ((y2 - y1) mod P) * z)
            + ((y2 - y1) mod P - (y2 - y1)) * z) by ring.
    apply Z.divide_add_r; [apply divide_mod|].
    apply Z.divide_mul_l, divide_mod.
  + rewrite <- Hx. apply divide_mod.
  + rewrite <- Hy at 1. rewrite Hx. apply divide_mod.
Qed.

Lemma addFormula_on_curve_witness :
  IsOnCurve
    112711660439710606056748659173929673102114977341539408544630613555209775888121
    25583027980570883691656905877401976406448868254816295069919888960541586679410
  = true.
Proof.
apply (addFormula_on_curve doubleX doubleY Gx Gy).
- vm_compute. reflexivity.
- vm_compute. reflexivity.
- vm_compute. reflexivity.
Defined.

(** X23.  The tangent formula stays on the curve: whenever it
    returns a point for a point of the curve, that point is on the
    curve too. *)
Theorem doubleFormula_on_curve (x1 y1 x3 y3 : Z) :
  IsOnCurve x1 y1 = true ->
  doubleFormula x1 y1 = Some (x3, y3) ->
  IsOnCurve x3 y3 = true.
Proof.
intros H1. unfold doubleFormula. cbn zeta.
destruct (ModInverse ((y1 * 2) mod P) P) as [w|] eqn:Hinv; [|discriminate].
intros Hres. injection Hres as Hx Hy.
apply on_curve_equation in H1.
apply inverse_divide in Hinv.
apply equation_on_curve.
- rewrite <- Hx. apply mod_P_bound.
- rewrite <- Hy. apply mod_P_bound.
- apply (tangent_closed P B w x1 y1 ((x1 * x1 * 3 * w) mod P) x3 y3);
    try assumption.
  + apply divide_mod.
  + rewrite <- Hx. apply divide_mod.
  + rewrite <- Hy at 1. rewrite Hx. apply divide_mod.
Qed.

Lemma doubleFormula_on_curve_witness : IsOnCurve doubleX doubleY = true.
Proof.
apply (doubleFormula_on_curve Gx Gy).
- vm_compute. reflexivity.
- vm_compute. reflexivity.
Defined.

End Secp256k1Closure.

(** ** The events of a sub-fetch *)

Module HistoryEvents.
Import History HistoryObs HistoryEventsObs HistoryFacts.

Section Events.
Context {R : Type} (env : Env R).

Lemma emits_ret {A} (a : A) : EmitsWithin (R:=R) [] (ret a).
Proof.
intros s. exists []. split; [symmetry; apply app_nil_r|constructor].
Qed.

Lemma emits_preserves {A} (m : M R A) :
  Preserves (@historyEventsChan R) m -> EmitsWithin [] m.
Proof.
intros Hm s. exists []. rewrite Hm, app_nil_r. split; [reflexivity|constructor].
Qed.

Lemma emits_emitLog lvl msg fields :
  EmitsWithin (R:=R) [] (emitLog lvl msg fields).
Proof. apply emits_preserves, preserves_emitLog. Qed.

Lemma emits_bind {A B} (c1 c2 : list Transaction) (m : M R A)
      (k : A -> M R B) :
  EmitsWithin c1 m -> (forall a, EmitsWithin c2 (k a)) ->
  EmitsWithin (c1 ++ c2) (bind m k).
Proof.
intros Hm Hk s. rewrite state_of_bind.
destruct (Hm s) as (ev1 & H1 & S1).
destruct (Hk (value_of (m s)) (state_of (m s))) as (ev2 & H2 & S2).
exists (ev1 ++ ev2). split.
- rewrite H2, H1, app_assoc. reflexivity.
- rewrite fmap_app. apply sublist_app; assumption.
Qed.

Lemma emits_weaken {A} (c c' : list Transaction) (m : M R A) :
  c `sublist_of` c' -> EmitsWithin c m -> EmitsWithin c' m.
Proof.
intros Hc Hm s. destruct (Hm s) as (ev & H & S).
exists ev. split; [exact H|]. etransitivity; eassumption.
Qed.

Lemma emits_publish ev : EmitsWithin (R:=R) [EvTransaction ev] (publish ev).
Proof.
intros s. unfold publish, state_of.
destruct (_ <? _)%nat; cbn [fst snd historyEventsChan].
- exists [ev]. split; reflexivity.
- exists []. split; [symmetry; apply app_nil_r|apply sublist_nil_l].
Qed.

Lemma emits_upsert t st ex : EmitsWithin [t] (upsertAndEmit env t st ex).
Proof.
unfold upsertAndEmit. destruct ex as [e|];
  (apply (emits_bind [] [t]);
   [apply emits_preserves; intros s; reflexivity|];
   intros [err|];
   [apply (emits_weaken [] [t]); [apply sublist_nil_l|apply emits_emitLog]|];
   apply (emits_bind [] [t]); [apply emits_emitLog|];
   intros _; apply (emits_publish (MkEvent t _))).
Qed.

Lemma emits_processItem ty item :
  EmitsWithin (transformed env item) (processItem env ty item).
Proof.
unfold processItem, transformed.
destruct (Apply _ item) as [t|]; [|apply emits_emitLog].
apply (emits_bind [] [t]).
- destruct (isERC20 ty);
    [apply emits_preserves, preserves_isValid|apply emits_ret].
- intros valid.
  assert (Hnone : forall (m : M R unit), EmitsWithin [] m -> EmitsWithin [t] m)
    by (intros m; apply emits_weaken, sublist_nil_l).
  destruct (negb valid); [apply Hnone, emits_ret|].
  destruct (FromCoreTransaction env t) as [st|]; [|apply Hnone, emits_emitLog].
  apply (emits_bind [] [t]);
    [apply emits_preserves; intros s; reflexivity|].
  intros found. destruct (lookupFailed env _); [apply Hnone, emits_emitLog|].
  apply emits_upsert.
Qed.

Lemma emits_forEach {A} (f : A -> list Transaction) (l : list A)
      (body : A -> M R unit) :
  (forall x, EmitsWithin (f x) (body x)) ->
  EmitsWithin (flat_map f l) (forEach l body).
Proof.
intros Hb. induction l as [|x l IH]; cbn [flat_map forEach].
- apply emits_ret.
- apply emits_bind; [apply Hb|]. intros _. exact IH.
Qed.

(** X24.  A sub-fetch publishes events in page order and only for
    transactions of its page: the channel after it is the channel
    before it followed by events whose transactions are, in order,
    some of the transformed items of the page (each item at most
    once); without an explorer, with a failed request or with an
    empty page nothing is published. *)
Theorem subfetch_events_in_page_order (address : Address)
        (txType : TransactionType) (s : historyService R) :
  exists events,
    historyEventsChan
      (state_of (syncTransactionsForAddressByType env address txType s))
    = historyEventsChan s ++ events
    /\ (EvTransaction <$> events)
         `sublist_of` publishable env address txType s.
Proof.
unfold publishable, fetched.
destruct (NewExplorer (blockExplorerFactory env) (ChainType address))
  as [ex|e0] eqn:Hex.
- rewrite (byType_unfold _ _ _ _ _ Hex). cbv zeta.
  destruct (GetTransactionHistory _ _ _ _) as [page|e].
  + destruct (Items page) as [|first others] eqn:Hitems.
    * exists []. split; [symmetry; apply app_nil_r|constructor].
    * unfold state_of at 1. cbn [fst snd].
      rewrite setStartBlock_chan.
      apply (emits_forEach (transformed env) (first :: others) _
               (emits_processItem txType) s).
  + exists []. split; [symmetry; apply app_nil_r|constructor].
- rewrite (byType_no_explorer _ _ _ _ _ Hex).
  exists []. split; [symmetry; apply app_nil_r|constructor].
Qed.

Lemma channel_unchanged (l : list TransactionEvent) (ev : TransactionEvent) :
  l <> l ++ [ev].
Proof.
intros H. apply (f_equal length) in H. rewrite length_app in H. cbn in H. lia.
Qed.

Lemma validity_check_state ty t s :
  state_of ((if isERC20 ty then isValidERC20Token env t else ret true) s) = s.
Proof.
destruct (isERC20 ty); [|reflexivity].
apply (preserves_isValid env (fun x => x) t s).
Qed.

(** X25.  An event is published for an item only after its write
    succeeded, and its flag tells which write it was.  If the loop
    body adds an event for an item, then the item was transformed and
    converted, the event carries the transformed transaction, and
    either the lookup by hash found a record, the flag is false and
    the update of that record (under its id) returned no error, or
    the lookup found none, the flag is true and the create returned
    no error. *)
Theorem published_event_reports_write (txType : TransactionType)
        (item : Transaction) (s : historyService R) (ev : TransactionEvent) :
  historyEventsChan (state_of (processItem env txType item s))
  = historyEventsChan s ++ [ev] ->
  exists t st,
    Apply (transformerService env) item = Some t
    /\ FromCoreTransaction env t = Some st
    /\ EvTransaction ev = t
    /\ let lookup := GetByHash (repositoryOps env) (repository s) (SHash st) in
       match fst (snd lookup) with
       | Some existing =>
           IsNew ev = false
           /\ snd (Update (repositoryOps env) (fst lookup)
                     (withID (ID existing) st)) = None
       | None =>
           IsNew ev = true
           /\ snd (Create (repositoryOps env) (fst lookup) st) = None
       end.
Proof.
unfold processItem.
destruct (Apply (transformerService env) item) as [t|];
  [|intros H; exfalso; exact (channel_unchanged _ _ H)].
rewrite state_of_bind, validity_check_state.
destruct (negb _);
  [intros H; exfalso; exact (channel_unchanged _ _ H)|].
destruct (FromCoreTransaction env t) as [st|] eqn:Hconv;
  [|intros H; exfalso; exact (channel_unchanged _ _ H)].
rewrite state_of_bind.
intros Hchan. exists t, st. split; [reflexivity|]. split; [exact Hconv|].
revert Hchan. cbn zeta.
change (value_of (repoGetByHash env (SHash st) s))
  with (snd (GetByHash (repositoryOps env) (repository s) (SHash st))).
change (state_of (repoGetByHash env (SHash st) s))
  with (MkService (syncAddresses s) (historyEventsChan s)
          (fst (GetByHash (repositoryOps env) (repository s) (SHash st)))).
destruct (GetByHash (repositoryOps env) (repository s) (SHash st))
  as [repo [existing err]]. cbn [fst snd].
destruct (lookupFailed env err);
  [intros H; exfalso; exact (channel_unchanged _ _ H)|].
unfold upsertAndEmit.
destruct existing as [existing|]; rewrite state_of_bind.
- change (value_of (repoUpdate env (withID (ID existing) st)
                      (MkService (syncAddresses s) (historyEventsChan s) repo)))
    with (snd (Update (repositoryOps env) repo (withID (ID existing) st))).
  destruct (snd (Update (repositoryOps env) repo (withID (ID existing) st)))
    as [e|] eqn:Hupdate;
    [intros H; exfalso; exact (channel_unchanged _ _ H)|].
  rewrite state_of_bind.
  unfold publish, state_of. cbn [fst snd historyEventsChan emitLog repoUpdate].
  destruct (_ <? _)%nat; cbn [fst snd historyEventsChan];
    [|intros H; exfalso; exact (channel_unchanged _ _ H)].
  intros H. apply app_inv_head in H. injection H as <-.
  split; [reflexivity|]. split; reflexivity.
- change (value_of (repoCreate env st
                      (MkService (syncAddresses s) (historyEventsChan s) repo)))
    with (snd (Create (repositoryOps env) repo st)).
  destruct (snd (Create (repositoryOps env) repo st)) as [e|] eqn:Hcreate;
    [intros H; exfalso; exact (channel_unchanged _ _ H)|].
  rewrite state_of_bind.
  unfold publish, state_of. cbn [fst snd historyEventsChan emitLog repoCreate].
  destruct (_ <? _)%nat; cbn [fst snd historyEventsChan];
    [|intros H; exfalso; exact (channel_unchanged _ _ H)].
  intros H. apply app_inv_head in H. injection H as <-.
  split; [reflexivity|]. split; reflexivity.
Qed.

End Events.

Lemma published_event_reports_write_witness :
  let env := HistoryFixtures.fixtureEnv HistoryFixtures.oneAtSeven false in
  let s := HistoryFixtures.monitoring [] in
  let ev := MkEvent (HistoryFixtures.tx "0x01" 7) true in
  exists t st,
    Apply (transformerService env) (HistoryFixtures.tx "0x01" 7) = Some t
    /\ FromCoreTransaction env t = Some st
    /\ EvTransaction ev = t
    /\ let lookup := GetByHash (repositoryOps env) (repository s) (SHash st) in
       match fst (snd lookup) with
       | Some existing =>
           IsNew ev = false
           /\ snd (Update (repositoryOps env) (fst lookup)
                     (withID (ID existing) st)) = None
       | None =>
           IsNew ev = true
           /\ snd (Create (repositoryOps env) (fst lookup) st) = None
       end.
Proof.
intros env s ev.
apply (published_event_reports_write env TxTypeNormal
         (HistoryFixtures.tx "0x01" 7) s ev).
reflexivity.
Defined.

End HistoryEvents.
